(** * The mbox/MMDF mailbox engine and the Notmuch query window of NeoMutt

    A shallow embedding of [mbox/mbox.c] (locking, the two parsers, the
    integrity check, reconciliation and the crash-safe sync) and of the
    query-window code of [notmuch/mutt_notmuch.c], with the properties
    the specification states about them. *)

From Stdlib Require Import ZArith Bool Ascii String DecimalString Lia.
From stdpp Require Import base tactics option list strings.

Local Open Scope Z_scope.

(** ** C integers

    [int] is the 32-bit signed type.  Signed overflow is undefined in C, so
    an [int] operation is a partial function: it has no result outside the
    range of the type. *)

Definition INT_MIN : Z := -2147483648.
Definition INT_MAX : Z := 2147483647.

Definition in_int (z : Z) : bool := (INT_MIN <=? z) && (z <=? INT_MAX).

Definition int_of (z : Z) : option Z := if in_int z then Some z else None.

Definition int_add (a b : Z) : option Z := int_of (a + b).
Definition int_sub (a b : Z) : option Z := int_of (a - b).
Definition int_mul (a b : Z) : option Z := int_of (a * b).

(** Conversion of a wider integer to [int] (as in [int cl = length;]):
    the value modulo 2^32, read as a signed number. *)
Definition to_int (z : Z) : Z := (z + 2147483648) mod 4294967296 - 2147483648.

(** [printf("%d")] of an [int]. *)
Definition fmt_d (z : Z) : string := NilZero.string_of_int (Z.to_int z).

(** [snprintf(buf, buflen, ...)]: the formatted text cut to [buflen - 1]
    characters. *)
Definition snprintf (buflen : nat) (s : string) : string :=
  String.substring 0 (buflen - 1) s.

(** Buffer sizes of [mutt/string2.h] (the header is not among the sources;
    the values are those NeoMutt compiles with). *)
Definition SHORT_STRING : nat := 128.
Definition STRING : nat := 256.
Definition LONG_STRING : nat := 1024.
Definition HUGE_STRING : nat := Z.to_nat 8192.

(** [PATH_MAX] of [limits.h]. *)
Definition PATH_MAX : nat := Z.to_nat 4096.

(** ** The Notmuch query window *)

Module Notmuch.

(** The configuration variables the window code reads and writes.  The two
    strings are [char *] and may be NULL. *)
Record Globals := mkGlobals {
  NmQueryWindowDuration : Z;
  NmQueryWindowCurrentPosition : Z;
  NmQueryWindowTimebase : option string;
  NmQueryWindowCurrentSearch : option string;
}.

Definition set_position (p : Z) (g : Globals) : Globals :=
  {| NmQueryWindowDuration := NmQueryWindowDuration g;
     NmQueryWindowCurrentPosition := p;
     NmQueryWindowTimebase := NmQueryWindowTimebase g;
     NmQueryWindowCurrentSearch := NmQueryWindowCurrentSearch g |}.

Definition set_search (s : option string) (g : Globals) : Globals :=
  {| NmQueryWindowDuration := NmQueryWindowDuration g;
     NmQueryWindowCurrentPosition := NmQueryWindowCurrentPosition g;
     NmQueryWindowTimebase := NmQueryWindowTimebase g;
     NmQueryWindowCurrentSearch := s |}.

(** [query_window_check_timebase] *)
Definition query_window_check_timebase (timebase : string) : bool :=
  String.eqb timebase "hour" || String.eqb timebase "day" ||
  String.eqb timebase "week" || String.eqb timebase "month" ||
  String.eqb timebase "year".

(** [query_window_reset]: [cs_str_native_set(Config,
    "nm_query_window_current_position", 0, NULL)] stores 0 in the variable. *)
Definition query_window_reset (g : Globals) : Globals := set_position 0 g.

(** [windowed_query_from_query].  The outer [option] is C's undefined
    behaviour (overflow of the two products, a NULL string handed to
    [strcmp] or to ["%s"]); the inner one is the function's boolean result,
    [Some buf] for [true]. *)
Definition windowed_query_from_query (g : Globals) (query : string) (buflen : nat)
  : option (Globals * option string) :=
  p1 ← int_add (NmQueryWindowCurrentPosition g) 1;
  beg ← int_mul (NmQueryWindowDuration g) p1;
  end_ ← int_mul (NmQueryWindowDuration g) (NmQueryWindowCurrentPosition g);
  if NmQueryWindowDuration g <=? 0 then Some (query_window_reset g, None)
  else
    let g1 :=
      match NmQueryWindowCurrentSearch g with
      | None => query_window_reset g
      | Some cur => if String.eqb query cur then g else query_window_reset g
      end in
    timebase ← NmQueryWindowTimebase g1;
    if negb (query_window_check_timebase timebase) then Some (g1, None)
    else
      cur ← NmQueryWindowCurrentSearch g1;
      if end_ =? 0 then
        Some (g1, Some (snprintf buflen
          ("date:" +:+ fmt_d beg +:+ timebase +:+ ".. and " +:+ cur)))
      else
        Some (g1, Some (snprintf buflen
          ("date:" +:+ fmt_d beg +:+ timebase +:+ ".." +:+ fmt_d end_ +:+ timebase
           +:+ " and " +:+ cur))).

(** [nm_query_window_forward] and [nm_query_window_backward]. *)
Definition nm_query_window_forward (g : Globals) : option Globals :=
  if negb (NmQueryWindowCurrentPosition g =? 0) then
    p ← int_sub (NmQueryWindowCurrentPosition g) 1; Some (set_position p g)
  else Some g.

Definition nm_query_window_backward (g : Globals) : option Globals :=
  p ← int_add (NmQueryWindowCurrentPosition g) 1; Some (set_position p g).

(** [enum NmQueryType] and the per-mailbox data the query code uses. *)
Inductive NmQueryType := NM_QUERY_TYPE_MESGS | NM_QUERY_TYPE_THREADS.

Record NmMboxData := mkMboxData {
  db_query : option string;       (* previous query, NULL at first *)
  db_limit : Z;
  query_type : NmQueryType;
  query_strings : list (option string * option string); (* db_url.query_strings *)
}.

(** [string_to_query_type] ([mutt_str_strcmp] accepts NULL; the error
    message of the last case is not modelled). *)
Definition string_to_query_type (str : option string) : NmQueryType :=
  match str with
  | Some s =>
      if String.eqb s "threads" then NM_QUERY_TYPE_THREADS
      else if String.eqb s "messages" then NM_QUERY_TYPE_MESGS
      else NM_QUERY_TYPE_MESGS
  | None => NM_QUERY_TYPE_MESGS
  end.

(** Helpers of libmutt's [string.c], which is not among the sources:
    [mutt_str_strdup] copies a string and gives NULL for NULL or the empty
    string; [mutt_str_replace(&p, s)] frees [p] and stores a copy of [s]. *)
Definition mutt_str_strdup (s : option string) : option string :=
  match s with
  | Some EmptyString => None
  | other => other
  end.

Definition mutt_str_replace (s : option string) : option string := mutt_str_strdup s.

(** [strstr(haystack, needle) != NULL]. *)
Fixpoint strstr (haystack needle : string) : bool :=
  String.prefix needle haystack ||
  match haystack with
  | EmptyString => false
  | String _ rest => strstr rest needle
  end.

Section GetQueryString.

(** [mutt_str_atoi(str, &dst)] of libmutt, absent from the sources: from the
    text and the old value of [dst], the return code and the new [dst]. *)
Variable mutt_str_atoi : string -> Z -> Z * Z.

(** The configuration variable [NmQueryType]. *)
Variable NmQueryType_cfg : option string.

(** One round of the [STAILQ_FOREACH] over the URL's query items. *)
Definition query_item (mdata : NmMboxData) (item : option string * option string)
  : NmMboxData :=
  match item with
  | (Some name, Some value) =>
      if String.eqb name "limit" then
        {| db_query := db_query mdata;
           db_limit := snd (mutt_str_atoi value (db_limit mdata));
           query_type := query_type mdata;
           query_strings := query_strings mdata |}
      else if String.eqb name "type" then
        {| db_query := db_query mdata; db_limit := db_limit mdata;
           query_type := string_to_query_type (Some value);
           query_strings := query_strings mdata |}
      else if String.eqb name "query" then
        {| db_query := mutt_str_strdup (Some value); db_limit := db_limit mdata;
           query_type := query_type mdata;
           query_strings := query_strings mdata |}
      else mdata
  | _ => mdata
  end.

Definition set_db_query (q : option string) (mdata : NmMboxData) : NmMboxData :=
  {| db_query := q; db_limit := db_limit mdata; query_type := query_type mdata;
     query_strings := query_strings mdata |}.

(** [get_query_string(mdata, window)] for a non-NULL [mdata]: the globals
    and the mailbox data after the call and the string returned (NULL is
    [None]).  The outer [option] is undefined behaviour, as above. *)
Definition get_query_string (g : Globals) (mdata : NmMboxData) (window : bool)
  : option (Globals * NmMboxData * option string) :=
  match db_query mdata with
  | Some q => Some (g, mdata, Some q)
  | None =>
      let mdata0 :=
        {| db_query := db_query mdata; db_limit := db_limit mdata;
           query_type := string_to_query_type NmQueryType_cfg;
           query_strings := query_strings mdata |} in
      let mdata1 := fold_left query_item (query_strings mdata0) mdata0 in
      match db_query mdata1 with
      | None => Some (g, mdata1, None)
      | Some q =>
          if window then
            let g1 := set_search (mutt_str_replace (Some q)) g in
            if negb (strstr q "date:") then
              r ← windowed_query_from_query g1 q LONG_STRING;
              match r with
              | (g2, Some buf) =>
                  let mdata2 := set_db_query (mutt_str_strdup (Some buf)) mdata1 in
                  Some (g2, mdata2, db_query mdata2)
              | (g2, None) => Some (g2, mdata1, Some q)
              end
            else Some (g1, mdata1, Some q)
          else Some (g, mdata1, Some q)
      end
  end.

End GetQueryString.

(** Sequences of window commands, as the user issues them. *)
Inductive WindowOp := Forward | Backward | Reset.

Definition window_step (op : WindowOp) (g : Globals) : option Globals :=
  match op with
  | Forward => nm_query_window_forward g
  | Backward => nm_query_window_backward g
  | Reset => Some (query_window_reset g)
  end.

Fixpoint window_run (ops : list WindowOp) (g : Globals) : option Globals :=
  match ops with
  | [] => Some g
  | op :: rest => g' ← window_step op g; window_run rest g'
  end.

(** The same commands as a build runs them on which [int] wraps around
    (two's complement, as under [-fwrapv]): [++] and [--] are taken
    modulo 2^32. *)
Definition nm_query_window_forward_wrapping (g : Globals) : Globals :=
  if negb (NmQueryWindowCurrentPosition g =? 0)
  then set_position (to_int (NmQueryWindowCurrentPosition g - 1)) g
  else g.

Definition nm_query_window_backward_wrapping (g : Globals) : Globals :=
  set_position (to_int (NmQueryWindowCurrentPosition g + 1)) g.

Definition window_step_wrapping (op : WindowOp) (g : Globals) : Globals :=
  match op with
  | Forward => nm_query_window_forward_wrapping g
  | Backward => nm_query_window_backward_wrapping g
  | Reset => query_window_reset g
  end.

Definition window_run_wrapping (ops : list WindowOp) (g : Globals) : Globals :=
  foldl (fun g op => window_step_wrapping op g) g ops.

End Notmuch.

(** ** The mbox and MMDF mailbox engine *)

Module Mbox.

(** *** Bytes, lines and C strings *)

Definition nl : ascii := "010"%char.
Definition NUL : ascii := "000"%char.
Definition SOH : ascii := "001"%char.

(** [MMDF_SEP] of [mbox.h] (not among the sources): four control-A bytes and
    a newline, the fixed separator line of the MMDF format.  [sizeof(MMDF_SEP)
    - 1] is 5, half of what [mmdf_msg_padding_size] answers. *)
Definition MMDF_SEP : list ascii := [SOH; SOH; SOH; SOH; nl].

Definition From_ : list ascii := list_ascii_of_string "From ".

(** The characters of a buffer up to its first NUL: what the [str*]
    functions see of it. *)
Fixpoint cstr (buf : list ascii) : list ascii :=
  match buf with
  | [] => []
  | c :: rest => if Ascii.eqb c NUL then [] else c :: cstr rest
  end.

(** [mutt_str_strcmp(a, b) == 0] and [mutt_str_strncmp("From ", buf, 5) == 0]. *)
Definition str_equal (a b : list ascii) : bool := bool_decide (cstr a = cstr b).
Definition starts_with_From (buf : list ascii) : bool :=
  bool_decide (take 5 (cstr buf) = From_).

(** What [fgets] stores: at most [k] characters, stopping after a newline. *)
Fixpoint read_line (k : nat) (l : list ascii) : list ascii :=
  match k, l with
  | O, _ => []
  | _, [] => []
  | S k', c :: rest => if Ascii.eqb c nl then [c] else c :: read_line k' rest
  end.

(** [fgets(buf, n, fp)] on a stream over [data] at offset [pos]: NULL at or
    past the end, else the line and the offset after it. *)
Definition fgets (n : nat) (data : list ascii) (pos : Z) : option (list ascii * Z) :=
  if (pos <? 0) || (Z.of_nat (length data) <=? pos) then None
  else
    let buf := read_line (n - 1) (drop (Z.to_nat pos) data) in
    Some (buf, pos + Z.of_nat (length buf)).

(** The number of newlines among the [cl] bytes at [pos]: the [fgetc] loop
    that counts the lines of a body of known length. *)
Definition count_newlines (data : list ascii) (pos cl : Z) : Z :=
  Z.of_nat (length (filter (fun c => c = nl) (take (Z.to_nat cl) (drop (Z.to_nat pos) data)))).

(** *** Data model *)

(** [enum MailboxType] of [config/magic.h]. *)
Inductive MailboxType :=
  | MUTT_MAILBOX_ERROR | MUTT_UNKNOWN | MUTT_MBOX | MUTT_MMDF | MUTT_MH
  | MUTT_MAILDIR | MUTT_NNTP | MUTT_IMAP | MUTT_NOTMUCH | MUTT_POP
  | MUTT_COMPRESSED.

Definition is_mbox (m : MailboxType) : bool :=
  match m with MUTT_MBOX => true | _ => false end.
Definition is_mmdf (m : MailboxType) : bool :=
  match m with MUTT_MMDF => true | _ => false end.

(** Status codes of [mx.h] (not among the sources): distinct positive
    values, in the order the header declares them. *)
Definition MUTT_NEW_MAIL : Z := 1.
Definition MUTT_LOCKED : Z := 2.
Definition MUTT_REOPENED : Z := 3.

Record Timespec := mkTimespec { tv_sec : Z; tv_nsec : Z }.

(** [mutt_stat_timespec_compare(...) == 0]: the two times are the same. *)
Definition timespec_equal (a b : Timespec) : bool :=
  (tv_sec a =? tv_sec b) && (tv_nsec a =? tv_nsec b).

Record Stat := mkStat { st_size : Z; st_atime : Timespec; st_mtime : Timespec }.

(** The part of [struct Envelope] this file touches, and an opaque
    fingerprint standing for the rest of the parsed header. *)
Record Envelope := mkEnvelope {
  return_path : option string;
  from : option string;
  fingerprint : string;
}.

(** [struct Header] with its [content] body ([c_offset], [c_hdr_offset] and
    [c_length] are [content->offset], [content->hdr_offset] and
    [content->length]). *)
Record Header := mkHeader {
  offset : Z;
  index : Z;
  lines : Z;
  received : Z;
  c_offset : Z;
  c_hdr_offset : Z;
  c_length : Z;
  deleted : bool;
  changed : bool;
  old : bool;
  read : bool;
  flagged : bool;
  replied : bool;
  purge : bool;
  tagged : bool;
  attach_del : bool;
  env : Envelope;
}.

(** [mutt_header_new()]: a zeroed header. *)
Definition mutt_header_new : Header :=
  mkHeader 0 0 0 0 0 0 0 false false false false false false false false false
    (mkEnvelope None None "").

Definition set_offset (v : Z) (h : Header) : Header :=
  mkHeader v (index h) (lines h) (received h) (c_offset h) (c_hdr_offset h)
   (c_length h) (deleted h) (changed h) (old h) (read h) (flagged h) (replied h)
   (purge h) (tagged h) (attach_del h) (env h).
Definition set_index (v : Z) (h : Header) : Header :=
  mkHeader (offset h) v (lines h) (received h) (c_offset h) (c_hdr_offset h)
   (c_length h) (deleted h) (changed h) (old h) (read h) (flagged h) (replied h)
   (purge h) (tagged h) (attach_del h) (env h).
Definition set_lines (v : Z) (h : Header) : Header :=
  mkHeader (offset h) (index h) v (received h) (c_offset h) (c_hdr_offset h)
   (c_length h) (deleted h) (changed h) (old h) (read h) (flagged h) (replied h)
   (purge h) (tagged h) (attach_del h) (env h).
Definition set_received (v : Z) (h : Header) : Header :=
  mkHeader (offset h) (index h) (lines h) v (c_offset h) (c_hdr_offset h) (c_length h)
   (deleted h) (changed h) (old h) (read h) (flagged h) (replied h) (purge h)
   (tagged h) (attach_del h) (env h).
Definition set_c_offset (v : Z) (h : Header) : Header :=
  mkHeader (offset h) (index h) (lines h) (received h) v (c_hdr_offset h) (c_length h)
   (deleted h) (changed h) (old h) (read h) (flagged h) (replied h) (purge h)
   (tagged h) (attach_del h) (env h).
Definition set_c_hdr_offset (v : Z) (h : Header) : Header :=
  mkHeader (offset h) (index h) (lines h) (received h) (c_offset h) v (c_length h)
   (deleted h) (changed h) (old h) (read h) (flagged h) (replied h) (purge h)
   (tagged h) (attach_del h) (env h).
Definition set_c_length (v : Z) (h : Header) : Header :=
  mkHeader (offset h) (index h) (lines h) (received h) (c_offset h) (c_hdr_offset h) v
   (deleted h) (changed h) (old h) (read h) (flagged h) (replied h) (purge h)
   (tagged h) (attach_del h) (env h).
Definition set_deleted (v : bool) (h : Header) : Header :=
  mkHeader (offset h) (index h) (lines h) (received h) (c_offset h) (c_hdr_offset h)
   (c_length h) v (changed h) (old h) (read h) (flagged h) (replied h) (purge h)
   (tagged h) (attach_del h) (env h).
Definition set_old (v : bool) (h : Header) : Header :=
  mkHeader (offset h) (index h) (lines h) (received h) (c_offset h) (c_hdr_offset h)
   (c_length h) (deleted h) (changed h) v (read h) (flagged h) (replied h) (purge h)
   (tagged h) (attach_del h) (env h).
Definition set_read (v : bool) (h : Header) : Header :=
  mkHeader (offset h) (index h) (lines h) (received h) (c_offset h) (c_hdr_offset h)
   (c_length h) (deleted h) (changed h) (old h) v (flagged h) (replied h) (purge h)
   (tagged h) (attach_del h) (env h).
Definition set_flagged (v : bool) (h : Header) : Header :=
  mkHeader (offset h) (index h) (lines h) (received h) (c_offset h) (c_hdr_offset h)
   (c_length h) (deleted h) (changed h) (old h) (read h) v (replied h) (purge h)
   (tagged h) (attach_del h) (env h).
Definition set_replied (v : bool) (h : Header) : Header :=
  mkHeader (offset h) (index h) (lines h) (received h) (c_offset h) (c_hdr_offset h)
   (c_length h) (deleted h) (changed h) (old h) (read h) (flagged h) v (purge h)
   (tagged h) (attach_del h) (env h).
Definition set_purge (v : bool) (h : Header) : Header :=
  mkHeader (offset h) (index h) (lines h) (received h) (c_offset h) (c_hdr_offset h)
   (c_length h) (deleted h) (changed h) (old h) (read h) (flagged h) (replied h) v
   (tagged h) (attach_del h) (env h).
Definition set_tagged (v : bool) (h : Header) : Header :=
  mkHeader (offset h) (index h) (lines h) (received h) (c_offset h) (c_hdr_offset h)
   (c_length h) (deleted h) (changed h) (old h) (read h) (flagged h) (replied h)
   (purge h) v (attach_del h) (env h).
Definition set_env (v : Envelope) (h : Header) : Header :=
  mkHeader (offset h) (index h) (lines h) (received h) (c_offset h) (c_hdr_offset h)
   (c_length h) (deleted h) (changed h) (old h) (read h) (flagged h) (replied h)
   (purge h) (tagged h) (attach_del h) v.

(** What the code does to the outside world besides reading and writing
    the mailbox file, in the order it does it. *)
Inductive Event :=
  | EvUnlink (path : string)
  | EvRename (src dst : string)
  | EvError (msg : string)
  | EvPerror (what : string)
  | EvMessage (msg : string)
  | EvUtime (actime modtime : Z)
  | EvTouchAtime
  | EvSigBlock
  | EvSigUnblock
  | EvFileUnlock
  | EvFastclose
  | EvUpdateMailbox.

(** One open mailbox with what surrounds it: the fields of [struct Mailbox]
    and [struct Context] that [mbox.c] uses, the globals [SigInt] and [Sort],
    the caller's [*index_hint], the mailbox file on disk, and the trace of
    events.  [msg_count] is the length of [hdrs]; [fp] is the offset of the
    open stream, [None] when [ctx->fp] is NULL.  [polls] counts the reads of
    [SigInt], to place the arrival of the signal.

    Left out, as they touch none of these: the progress display
    ([mutt_progress_init], [mutt_progress_update]), the debug log
    ([mutt_debug]), the growth of the array of records ([mx_alloc_memory]),
    and [mx_update_context], which recomputes the counters and the thread
    tree from the records. *)
Record State := mkState {
  magic : MailboxType;
  size : Z;
  readonly : bool;
  quiet : bool;
  mchanged : bool;            (* ctx->mailbox->changed *)
  hdrs : list Header;
  fp : option Z;
  locked : bool;
  mtime : Timespec;
  atime : Timespec;
  index_hint : option Z;
  SigInt : Z;
  polls : nat;
  Sort : Z;
  disk : list ascii;
  disk_atime : Timespec;
  disk_mtime : Timespec;
  trace : list Event;
}.

Definition set_size (v : Z) (s : State) : State :=
  mkState (magic s) v (readonly s) (quiet s) (mchanged s) (hdrs s) (fp s) (locked s)
   (mtime s) (atime s) (index_hint s) (SigInt s) (polls s) (Sort s) (disk s)
   (disk_atime s) (disk_mtime s) (trace s).
Definition set_readonly (v : bool) (s : State) : State :=
  mkState (magic s) (size s) v (quiet s) (mchanged s) (hdrs s) (fp s) (locked s)
   (mtime s) (atime s) (index_hint s) (SigInt s) (polls s) (Sort s) (disk s)
   (disk_atime s) (disk_mtime s) (trace s).
Definition set_quiet (v : bool) (s : State) : State :=
  mkState (magic s) (size s) (readonly s) v (mchanged s) (hdrs s) (fp s) (locked s)
   (mtime s) (atime s) (index_hint s) (SigInt s) (polls s) (Sort s) (disk s)
   (disk_atime s) (disk_mtime s) (trace s).
Definition set_mchanged (v : bool) (s : State) : State :=
  mkState (magic s) (size s) (readonly s) (quiet s) v (hdrs s) (fp s) (locked s)
   (mtime s) (atime s) (index_hint s) (SigInt s) (polls s) (Sort s) (disk s)
   (disk_atime s) (disk_mtime s) (trace s).
Definition set_hdrs (v : list Header) (s : State) : State :=
  mkState (magic s) (size s) (readonly s) (quiet s) (mchanged s) v (fp s) (locked s)
   (mtime s) (atime s) (index_hint s) (SigInt s) (polls s) (Sort s) (disk s)
   (disk_atime s) (disk_mtime s) (trace s).
Definition set_fp (v : option Z) (s : State) : State :=
  mkState (magic s) (size s) (readonly s) (quiet s) (mchanged s) (hdrs s) v (locked s)
   (mtime s) (atime s) (index_hint s) (SigInt s) (polls s) (Sort s) (disk s)
   (disk_atime s) (disk_mtime s) (trace s).
Definition set_locked (v : bool) (s : State) : State :=
  mkState (magic s) (size s) (readonly s) (quiet s) (mchanged s) (hdrs s) (fp s) v
   (mtime s) (atime s) (index_hint s) (SigInt s) (polls s) (Sort s) (disk s)
   (disk_atime s) (disk_mtime s) (trace s).
Definition set_mtime (v : Timespec) (s : State) : State :=
  mkState (magic s) (size s) (readonly s) (quiet s) (mchanged s) (hdrs s) (fp s)
   (locked s) v (atime s) (index_hint s) (SigInt s) (polls s) (Sort s) (disk s)
   (disk_atime s) (disk_mtime s) (trace s).
Definition set_atime (v : Timespec) (s : State) : State :=
  mkState (magic s) (size s) (readonly s) (quiet s) (mchanged s) (hdrs s) (fp s)
   (locked s) (mtime s) v (index_hint s) (SigInt s) (polls s) (Sort s) (disk s)
   (disk_atime s) (disk_mtime s) (trace s).
Definition set_index_hint (v : option Z) (s : State) : State :=
  mkState (magic s) (size s) (readonly s) (quiet s) (mchanged s) (hdrs s) (fp s)
   (locked s) (mtime s) (atime s) v (SigInt s) (polls s) (Sort s) (disk s)
   (disk_atime s) (disk_mtime s) (trace s).
Definition set_SigInt (v : Z) (s : State) : State :=
  mkState (magic s) (size s) (readonly s) (quiet s) (mchanged s) (hdrs s) (fp s)
   (locked s) (mtime s) (atime s) (index_hint s) v (polls s) (Sort s) (disk s)
   (disk_atime s) (disk_mtime s) (trace s).
Definition set_polls (v : nat) (s : State) : State :=
  mkState (magic s) (size s) (readonly s) (quiet s) (mchanged s) (hdrs s) (fp s)
   (locked s) (mtime s) (atime s) (index_hint s) (SigInt s) v (Sort s) (disk s)
   (disk_atime s) (disk_mtime s) (trace s).
Definition set_disk (v : list ascii) (s : State) : State :=
  mkState (magic s) (size s) (readonly s) (quiet s) (mchanged s) (hdrs s) (fp s)
   (locked s) (mtime s) (atime s) (index_hint s) (SigInt s) (polls s) (Sort s) v
   (disk_atime s) (disk_mtime s) (trace s).
Definition set_disk_times (at_ mt : Timespec) (s : State) : State :=
  mkState (magic s) (size s) (readonly s) (quiet s) (mchanged s) (hdrs s) (fp s)
   (locked s) (mtime s) (atime s) (index_hint s) (SigInt s) (polls s) (Sort s) (disk s)
   at_ mt (trace s).
Definition log (e : Event) (s : State) : State :=
  mkState (magic s) (size s) (readonly s) (quiet s) (mchanged s) (hdrs s) (fp s)
   (locked s) (mtime s) (atime s) (index_hint s) (SigInt s) (polls s) (Sort s) (disk s)
   (disk_atime s) (disk_mtime s) (trace s ++ [e]).

(** *** Collaborators and environment *)

(** The functions of NeoMutt that [mbox.c] calls and that live in other
    files: the header parser, the [From ] line recogniser, the strict header
    comparison, the sorter, the message copier and a few string helpers.
    The engine is defined over any implementation of them.

    [mutt_rfc822_read_header data pos h] reads the header found at [pos]:
    it answers the header record it filled in and the offset where it left
    the stream.  [mutt_copy_message_ctx data h] answers its return code, the
    bytes it appended to the output and the header record after its
    update of lengths and offsets.  [mutt_sort_headers sort init l] is the
    store that [mutt_sort_headers(ctx, init)] makes of [l] while the global
    [Sort] holds [sort]. *)
Class Collab := mkCollab {
  is_from : list ascii -> option (string * Z);
  mutt_date_local_tz : Z -> Z;
  mutt_rfc822_read_header : list ascii -> Z -> Header -> Header * Z;
  mutt_addr_parse_list : string -> option string;
  mutt_header_cmp_strict : Header -> Header -> bool;
  mutt_sort_headers : Z -> bool -> list Header -> list Header;
  mutt_copy_message_ctx : list ascii -> Header -> Z * list ascii * Header;
  mutt_pretty_mailbox : string -> string;
}.

(** The places where a system call of [mbox.c] can fail. *)
Inductive Site :=
  | AtParseStat | AtAccess
  | AtOpenFopen | AtOpenLock
  | AtAppendFopen | AtAppendLock
  | AtCheckStat | AtCheckLock
  | AtReopenFopen
  | AtSyncFreopen | AtSyncLock | AtSyncOpenTemp | AtSyncFdopen
  | AtSyncFputsLead (i : nat) | AtSyncFputsTrail (i : nat)
  | AtSyncFcloseTemp | AtSyncStat | AtSyncFopenTemp
  | AtSyncFerror | AtSyncFtello | AtSyncFtruncate
  | AtSyncFcloseMbox | AtSyncFopenFinal | AtBailFreopen
  | AtResetAtimeStat.

#[export] Instance Site_eq_dec : EqDecision Site.
Proof. solve_decision. Defined.

(** What one run meets: the failures injected at the sites above, the polls
    of [SigInt] before which the signal handler has run, how far the stream
    copy of the sync gets ([None]: to the end), and the names and settings
    the sync takes from globals. *)
Record Env := mkEnv {
  fails : Site -> bool;
  sig_arrives : nat -> bool;
  copy_stream_stops : option nat;
  path : string;                     (* ctx->mailbox->path *)
  tempfile : string;                 (* what mutt_mktemp() answers *)
  Tmpdir : string;                   (* NONULL(Tmpdir) *)
  Username : string;
  ShortHostname : string;
  pid : Z;
  MailCheckRecent : bool;
  CheckMboxSize : bool;
  SORT_ORDER : Z;                    (* constant of sort.h *)
}.

Section Engine.

Context {C : Collab} (E : Env).

(** *** Streams *)

Definition ftello (st : State) : Z := default (-1) (fp st).

(** [fseeko(ctx->fp, off, SEEK_SET)]: fails on a negative offset. *)
Definition fseeko (off : Z) (st : State) : option State :=
  match fp st with
  | Some _ => if off <? 0 then None else Some (set_fp (Some off) st)
  | None => None
  end.

(** [fseeko] where the code only logs a failure and goes on. *)
Definition fseeko_or_stay (off : Z) (st : State) : State :=
  default st (fseeko off st).

(** [fgets(buf, n, ctx->fp)]. *)
Definition fgets_fp (n : nat) (st : State) : option (list ascii * State) :=
  pos ← fp st;
  r ← fgets n (disk st) pos;
  Some (fst r, set_fp (Some (snd r)) st).

(** [cl] calls of [fgetc]: the stream moves on by [cl] bytes or to the end
    of the file. *)
Definition fgetc_n (cl : Z) (st : State) : State :=
  match fp st with
  | Some pos =>
      let len := Z.of_nat (length (disk st)) in
      if (0 <? cl) && (0 <=? pos) && (pos <? len)
      then set_fp (Some (Z.min (pos + cl) len)) st else st
  | None => st
  end.

(** [stat(ctx->mailbox->path, &sb)] when it succeeds. *)
Definition stat_disk (st : State) : Stat :=
  mkStat (Z.of_nat (length (disk st))) (disk_atime st) (disk_mtime st).

(** One read of the global [SigInt]: the handler may have run before it. *)
Definition poll_sigint (st : State) : State :=
  set_polls (S (polls st))
    (if sig_arrives E (polls st) then set_SigInt 1 st else st).

(** *** Locking *)

(** [mutt_file_lock()] at a call site: 0 or -1. *)
Definition mutt_file_lock (site : Site) : Z := if fails E site then -1 else 0.

(** [mbox_lock_mailbox(ctx, excl, retry)], with [r] the answer of
    [mutt_file_lock]. *)
Definition mbox_lock_mailbox (r : Z) (excl retry : bool) (st : State) : Z * State :=
  if r =? 0 then (r, set_locked true st)
  else if retry && negb excl then (0, set_readonly true st)
  else (r, st).

(** [mbox_unlock_mailbox].  On a locked mailbox it calls
    [fileno(ctx->fp)], which needs a stream: [None] is that call with
    [ctx->fp] NULL, after which the program has no defined behaviour. *)
Definition mbox_unlock_mailbox (st : State) : option State :=
  if locked st then
    match fp st with
    | Some _ => Some (set_locked false (log EvFileUnlock st))
    | None => None
    end
  else Some st.

(** *** The mbox parser *)

(** "Save the Content-Length of the previous message": the last record gets
    its length from the offset [loc] reached, and its line count from the
    lines counted, where they are not known yet. *)
Definition finish_header (loc lines_seen : Z) (h : Header) : Header :=
  let h1 :=
    if c_length h <? 0 then
      let len := loc - c_offset h - 1 in
      set_c_length (if len <? 0 then 0 else len) h
    else h in
  if lines h1 =? 0 then
    set_lines (if lines_seen =? 0 then 0 else lines_seen - 1) h1
  else h1.

Definition finish_previous (loc lines_seen : Z) (st : State) : State :=
  set_hdrs (alter (finish_header loc lines_seen) (length (hdrs st) - 1)%nat (hdrs st)) st.

(** The test of a declared length: a [From ] line is expected at [tmploc],
    the offset after the body and its newline.  A length that ends at the
    end of the file is kept as it is; one that goes past it, or that leads
    to anything but a [From ] line, is replaced by -1 and the stream is put
    back at [loc]. *)
Definition verify_content_length (st : State) (curhdr : Header) (loc tmploc : Z)
  : State * Header :=
  let bad (s : State) : State * Header :=
    ((if loc <? 0 then s else fseeko_or_stay loc s), set_c_length (-1) curhdr) in
  if (0 <? tmploc) && (tmploc <? size st) then
    match fseeko tmploc st with
    | None => bad st
    | Some st_s =>
        match fgets_fp HUGE_STRING st_s with
        | None => bad st_s
        | Some (buf, st_r) =>
            if starts_with_From buf then (st_r, curhdr) else bad st_r
        end
    end
  else if negb (tmploc =? size st) then (st, set_c_length (-1) curhdr)
  else (st, curhdr).

(** "good content-length": the lines of the body are counted when the
    header gave no count, and the stream goes to the next separator. *)
Definition skip_body (st1 : State) (h1 : Header) (loc tmploc : Z) : State * Header :=
  if negb (c_length h1 =? -1) then
    let '(st2, h2) :=
      if lines h1 =? 0 then
        let cl := to_int (c_length h1) in
        let st_l := if loc <? 0 then st1 else fseeko_or_stay loc st1 in
        (fgetc_n cl st_l, set_lines (count_newlines (disk st_l) (ftello st_l) cl) h1)
      else (st1, h1) in
    (fseeko_or_stay tmploc st2, h2)
  else (st1, h1).

(** The block under [if (curhdr->content->length > 0)]. *)
Definition check_content_length (st : State) (curhdr : Header) : State * Header :=
  if 0 <? c_length curhdr then
    let loc := ftello st in
    let tmploc :=
      if c_length curhdr <? size st then loc + c_length curhdr + 1 else -1 in
    let '(st1, h1) := verify_content_length st curhdr loc tmploc in
    skip_body st1 h1 loc tmploc
  else (st, curhdr).

(** The envelope backfill after a message was read. *)
Definition backfill (rp : string) (h : Header) : Header :=
  let e := env h in
  let e1 :=
    match return_path e with
    | None =>
        if bool_decide (rp = ""%string) then e
        else mkEnvelope (mutt_addr_parse_list rp) (from e) (fingerprint e)
    | Some _ => e
    end in
  let e2 :=
    match from e1 with
    | None => mkEnvelope (return_path e1) (return_path e1) (fingerprint e1)
    | Some _ => e1
    end in
  set_env e2 h.

(** The body of the loop for a line that is a [From ] line. *)
Definition mbox_new_message (st : State) (rp : string) (t : Z) (count lines_seen loc : Z)
  : State :=
  let st1 := if 0 <? count then finish_previous loc lines_seen st else st in
  let curhdr :=
    set_index (Z.of_nat (length (hdrs st1)))
      (set_offset loc (set_received (t - mutt_date_local_tz t) mutt_header_new)) in
  let '(curhdr1, pos) := mutt_rfc822_read_header (disk st1) (ftello st1) curhdr in
  let st2 := set_fp (Some pos) st1 in
  let '(st3, curhdr2) := check_content_length st2 curhdr1 in
  set_hdrs (hdrs st3 ++ [backfill rp curhdr2]) st3.

(** The [while] loop of [mbox_parse_mailbox]; the answer carries the locals
    [count] and [lines].  [None]: the fuel ran out. *)
Fixpoint mbox_parse_loop (fuel : nat) (st : State) (count lines_seen loc : Z)
  : option (State * Z * Z) :=
  match fuel with
  | O => None
  | S fuel' =>
      match fgets_fp HUGE_STRING st with
      | None => Some (st, count, lines_seen)
      | Some (buf, st1) =>
          let st2 := poll_sigint st1 in
          if SigInt st2 =? 1 then Some (st2, count, lines_seen)
          else
            match is_from buf with
            | Some (rp, t) =>
                let st3 := mbox_new_message st2 rp t count lines_seen loc in
                mbox_parse_loop fuel' st3 (count + 1) 0 (ftello st3)
            | None =>
                mbox_parse_loop fuel' st2 count (lines_seen + 1) (ftello st2)
            end
      end
  end.

(** [mbox_parse_mailbox]: 0, -1 (error) or -2 (aborted), and the state. *)
Definition mbox_parse_mailbox (fuel : nat) (st : State) : option (Z * State) :=
  if fails E AtParseStat then Some (-1, log (EvPerror (path E)) st)
  else
    let sb := stat_disk st in
    let st1 := set_atime (st_atime sb) (set_mtime (st_mtime sb) (set_size (st_size sb) st)) in
    let st2 := if negb (readonly st1) then set_readonly (fails E AtAccess) st1 else st1 in
    r ← mbox_parse_loop fuel st2 0 0 (ftello st2);
    let '(st3, count, lines_seen) := r in
    let st4 := if 0 <? count then finish_previous (ftello st3) lines_seen st3 else st3 in
    let st5 := poll_sigint st4 in
    if SigInt st5 =? 1 then Some (-2, set_SigInt 0 st5) else Some (0, st5).

(** *** The MMDF parser *)

(** The [do ... while] scan for the closing separator, from [lines = -1]:
    the state, the lines counted and the offset [loc] of the last line read;
    the inner [None] is the [return -1] of a failed [ftello]. *)
Fixpoint mmdf_scan (fuel : nat) (st : State) (lines_seen : Z)
  : option (option (State * Z * Z)) :=
  match fuel with
  | O => None
  | S fuel' =>
      let loc := ftello st in
      if loc <? 0 then Some None
      else
        match fgets_fp (HUGE_STRING - 1) st with
        | None => Some (Some (st, lines_seen, loc))
        | Some (buf, st1) =>
            if str_equal buf MMDF_SEP then Some (Some (st1, lines_seen + 1, loc))
            else mmdf_scan fuel' st1 (lines_seen + 1)
        end
  end.

(** The test of a declared length: the closing separator is expected at
    [loc + length]. *)
Definition mmdf_check_content_length (st : State) (hdr : Header) (loc : Z)
  : State * Header :=
  if (0 <? c_length hdr) && (0 <? lines hdr) then
    let tmploc := loc + c_length hdr in
    let bad (s : State) : State * Header :=
      (fseeko_or_stay loc s, set_c_length (-1) hdr) in
    if (0 <? tmploc) && (tmploc <? size st) then
      match fseeko tmploc st with
      | None => bad st
      | Some st_s =>
          match fgets_fp (HUGE_STRING - 1) st_s with
          | None => bad st_s
          | Some (buf, st_r) =>
              if str_equal MMDF_SEP buf then (st_r, hdr) else bad st_r
          end
      end
    else (st, set_c_length (-1) hdr)
  else (st, set_c_length (-1) hdr).

(** How the [while (true)] loop ends: by a [return] from inside, or by a
    [break]. *)
Inductive LoopEnd :=
  | Returned (rc : Z) (st : State)
  | Broke (st : State).

(** One message, from the line after its opening separator. *)
Definition mmdf_message (fuel : nat) (st : State) : option (LoopEnd + State) :=
  let loc := ftello st in
  if loc <? 0 then Some (inl (Returned (-1) st))
  else
    let hdr := set_index (Z.of_nat (length (hdrs st))) (set_offset loc mutt_header_new) in
    match fgets_fp (HUGE_STRING - 1) st with
    | None => Some (inl (Broke st))                       (* unexpected EOF *)
    | Some (buf, st1) =>
        let positioned : option (State * Header * string) :=
          match is_from buf with
          | None => st' ← fseeko loc st1; Some (st', hdr, ""%string)
          | Some (rp, t) => Some (st1, set_received (t - mutt_date_local_tz t) hdr, rp)
          end in
        match positioned with
        | None => Some (inl (Returned (-1) (log (EvError "Mailbox is corrupt") st1)))
        | Some (st2, hdr1, rp) =>
            let '(hdr2, pos) := mutt_rfc822_read_header (disk st2) (ftello st2) hdr1 in
            let st3 := set_fp (Some pos) st2 in
            let loc2 := ftello st3 in
            if loc2 <? 0 then Some (inl (Returned (-1) st3))
            else
              let '(st4, hdr3) := mmdf_check_content_length st3 hdr2 loc2 in
              let append (s : State) (h : Header) : State :=
                set_hdrs (hdrs s ++ [backfill rp h]) s in
              if c_length hdr3 <? 0 then
                scanned ← mmdf_scan fuel st4 (-1);
                match scanned with
                | None => Some (inl (Returned (-1) st4))
                | Some (st5, lines_seen, loc3) =>
                    Some (inr (append st5
                      (set_c_length (loc3 - c_offset hdr3) (set_lines lines_seen hdr3))))
                end
              else Some (inr (append st4 hdr3))
        end
    end.

Fixpoint mmdf_parse_loop (fuel : nat) (st : State) : option LoopEnd :=
  match fuel with
  | O => None
  | S fuel' =>
      match fgets_fp (HUGE_STRING - 1) st with
      | None => Some (Broke st)
      | Some (buf, st1) =>
          let st2 := poll_sigint st1 in
          if SigInt st2 =? 1 then Some (Broke st2)
          else if str_equal buf MMDF_SEP then
            r ← mmdf_message fuel' st2;
            match r with
            | inl e => Some e
            | inr st3 => mmdf_parse_loop fuel' st3
            end
          else Some (Returned (-1) (log (EvError "Mailbox is corrupt") st2))
      end
  end.

(** [mmdf_parse_mailbox] *)
Definition mmdf_parse_mailbox (fuel : nat) (st : State) : option (Z * State) :=
  if fails E AtParseStat then Some (-1, log (EvPerror (path E)) st)
  else
    let sb := stat_disk st in
    let st1 := set_size (st_size sb) (set_mtime (st_mtime sb) (set_atime (st_atime sb) st)) in
    r ← mmdf_parse_loop fuel st1;
    match r with
    | Returned rc st2 => Some (rc, st2)
    | Broke st2 =>
        let st3 := poll_sigint st2 in
        if SigInt st3 =? 1 then Some (-2, set_SigInt 0 st3) else Some (0, st3)
    end.

(** The parser of the mailbox's format; -1 for any other format. *)
Definition parse_by_magic (fuel : nat) (st : State) : option (Z * State) :=
  match magic st with
  | MUTT_MBOX => mbox_parse_mailbox fuel st
  | MUTT_MMDF => mmdf_parse_mailbox fuel st
  | _ => Some (-1, st)
  end.

(** *** Opening *)

(** [mbox_mbox_open].  [None]: the fuel of the parser ran out, or the run
    met the undefined call of [mbox_unlock_mailbox]; so for every function
    below that answers in an [option]. *)
Definition mbox_mbox_open (fuel : nat) (st : State) : option (Z * State) :=
  if fails E AtOpenFopen then Some (-1, log (EvPerror (path E)) (set_fp None st))
  else
    let st1 := log EvSigBlock (set_fp (Some 0) st) in
    let '(r, st2) := mbox_lock_mailbox (mutt_file_lock AtOpenLock) false true st1 in
    if r =? -1 then Some (-1, log EvSigUnblock st2)
    else
      res ← parse_by_magic fuel st2;
      let '(rc, st3) := res in
      st4 ← mbox_unlock_mailbox (log EvTouchAtime st3);
      Some (rc, log EvSigUnblock st4).

(** [mbox_mbox_open_append] ([mutt_file_fopen] in mode "w" or "a": the
    stream is left at the end of the file). *)
Definition mbox_mbox_open_append (newfolder : bool) (st : State) : Z * State :=
  if fails E AtAppendFopen then (-1, log (EvPerror (path E)) (set_fp None st))
  else
    let st0 := if newfolder then set_disk [] st else st in
    let st1 := set_fp (Some (Z.of_nat (length (disk st0)))) st0 in
    let '(r, st2) := mbox_lock_mailbox (mutt_file_lock AtAppendLock) true true st1 in
    if negb (r =? 0) then
      (-1, set_fp None (log (EvError ("Couldn't lock " +:+ path E)) st2))
    else (0, st2).

(** *** Reconciliation *)

(** The flags [reopen_mailbox] hands to [mutt_set_flag]. *)
Inductive FlagKind :=
  | MUTT_FLAG | MUTT_REPLIED | MUTT_OLD | MUTT_READ
  | MUTT_DELETE | MUTT_PURGE | MUTT_TAG.

Definition get_flag (k : FlagKind) (h : Header) : bool :=
  match k with
  | MUTT_FLAG => flagged h
  | MUTT_REPLIED => replied h
  | MUTT_OLD => old h
  | MUTT_READ => read h
  | MUTT_DELETE => deleted h
  | MUTT_PURGE => purge h
  | MUTT_TAG => tagged h
  end.

Definition put_flag (k : FlagKind) (bf : bool) (h : Header) : Header :=
  match k with
  | MUTT_FLAG => set_flagged bf h
  | MUTT_REPLIED => set_replied bf h
  | MUTT_OLD => set_old bf h
  | MUTT_READ => set_read bf h
  | MUTT_DELETE => set_deleted bf h
  | MUTT_PURGE => set_purge bf h
  | MUTT_TAG => set_tagged bf h
  end.

(** Modelled from the spec: [mutt_set_flag(ctx, hdrs[i], flag, bf)] of
    [flags.c], which is not among the sources.  It copies the value into the
    record's flag, and a transfer that changes the state of the record
    marks the mailbox changed. *)
Definition mutt_set_flag (i : nat) (k : FlagKind) (bf : bool) (st : State) : State :=
  match hdrs st !! i with
  | Some h =>
      if eqb (get_flag k h) bf then st
      else set_mchanged true (set_hdrs (<[i := put_flag k bf h]> (hdrs st)) st)
  | None => st
  end.

(** Modelled from the spec: [mx_fastclose_mailbox] of [mx.c], which is not
    among the sources, force-closes the mailbox: the header store is released
    and the file handle closed. *)
Definition mx_fastclose_mailbox (st : State) : State :=
  log EvFastclose (set_fp None (set_hdrs [] st)).

(** The first index among [js] whose old record is still there and compares
    equal to the new record [h]: one of the two [for (j ...)] searches. *)
Fixpoint first_match (h : Header) (old_hdrs : list (option Header)) (js : list nat)
  : option nat :=
  match js with
  | [] => None
  | j :: rest =>
      match old_hdrs !! j with
      | Some (Some o) =>
          if mutt_header_cmp_strict h o then Some j else first_match h old_hdrs rest
      | _ => first_match h old_hdrs rest
      end
  end.

(** The two searches for new record [i]: from [i] to the end of the old
    records, then from 0 up to [i]. *)
Definition find_old (i : nat) (h : Header) (old_hdrs : list (option Header)) : option nat :=
  let old_msgcount := length old_hdrs in
  match first_match h old_hdrs (seq i (old_msgcount - i)) with
  | Some j => Some j
  | None => first_match h old_hdrs (seq 0 (Nat.min i old_msgcount))
  end.

(** What is done for a new record [i] that found the old record [o] at [j]. *)
Definition carry_flags (i j : nat) (o : Header) (st : State) : State :=
  let st1 :=
    match index_hint st with
    | Some v => if v =? Z.of_nat j then set_index_hint (Some (Z.of_nat i)) st else st
    | None => st
    end in
  let st2 :=
    if changed o then
      mutt_set_flag i MUTT_READ (read o)
        (mutt_set_flag i MUTT_OLD (old o)
          (mutt_set_flag i MUTT_REPLIED (replied o)
            (mutt_set_flag i MUTT_FLAG (flagged o) st1)))
    else st1 in
  mutt_set_flag i MUTT_TAG (tagged o)
    (mutt_set_flag i MUTT_PURGE (purge o)
      (mutt_set_flag i MUTT_DELETE (deleted o) st2)).

(** One round of the loop over the new records; the third component is the
    [j] found, if any. *)
Definition reconcile_step (i : nat) (st : State) (old_hdrs : list (option Header))
  : State * list (option Header) * option nat :=
  match hdrs st !! i with
  | Some h =>
      match find_old i h old_hdrs with
      | Some j =>
          match old_hdrs !! j with
          | Some (Some o) => (carry_flags i j o st, <[j := None]> old_hdrs, Some j)
          | _ => (st, old_hdrs, None)
          end
      | None => (st, old_hdrs, None)
      end
  | None => (st, old_hdrs, None)
  end.

(** The loop [for (i = 0; i < msg_count; i++)], with [n] rounds to go. *)
Fixpoint reconcile (n i : nat) (st : State) (old_hdrs : list (option Header))
  : State * list (option Header) :=
  match n with
  | O => (st, old_hdrs)
  | S n' =>
      let '(st1, old1, _) := reconcile_step i st old_hdrs in
      reconcile n' (S i) st1 old1
  end.

(** [reopen_mailbox] *)
Definition reopen_mailbox (fuel : nat) (st : State) : option (Z * State) :=
  let st1 := set_quiet true st in
  let st2 :=
    if negb (Sort st1 =? SORT_ORDER E)
    then set_hdrs (mutt_sort_headers (SORT_ORDER E) true (hdrs st1)) st1 else st1 in
  let old_hdrs : list (option Header) :=
    if readonly st2 then [] else map Some (hdrs st2) in
  let st3 := set_mchanged false (set_hdrs [] st2) in
  let parsed : option (Z * State) :=
    if is_mbox (magic st3) || is_mmdf (magic st3) then
      if fails E AtReopenFopen then Some (-1, set_fp None st3)
      else parse_by_magic fuel (set_fp (Some 0) st3)
    else Some (-1, st3) in
  res ← parsed;
  let '(rc, st4) := res in
  if rc =? -1 then Some (-1, set_quiet false st4)
  else
    let st5 := log EvTouchAtime st4 in
    let '(st6, msg_mod) :=
      if negb (readonly st5) then
        let '(st', old') := reconcile (length (hdrs st5)) 0 st5 old_hdrs in
        (st', existsb (fun o => bool_decide (is_Some o)) old')
      else (st5, false) in
    let st7 := set_quiet false st6 in
    Some (if mchanged st7 || msg_mod then MUTT_REOPENED else MUTT_NEW_MAIL, st7).

(** *** The integrity check *)

(** [mbox_mbox_check] *)
Definition mbox_mbox_check (fuel : nat) (st : State) : option (Z * State) :=
  let fatal (s : State) : option (Z * State) :=
    s1 ← mbox_unlock_mailbox s;
    Some (-1, log (EvError "Mailbox was corrupted")
                (log EvSigUnblock (mx_fastclose_mailbox s1))) in
  let unlock_if (unlock : bool) (s : State) : option State :=
    if unlock then s1 ← mbox_unlock_mailbox s; Some (log EvSigUnblock s1) else Some s in
  let modified (unlock : bool) (s : State) : option (Z * State) :=
    r ← reopen_mailbox fuel s;
    let '(rc, s1) := r in
    if negb (rc =? -1) then s2 ← unlock_if unlock s1; Some (MUTT_REOPENED, s2)
    else fatal s1 in
  if fails E AtCheckStat then fatal st
  else
    let sb := stat_disk st in
    if timespec_equal (st_mtime sb) (mtime st) && (st_size sb =? size st) then Some (0, st)
    else if st_size sb =? size st then Some (0, set_mtime (st_mtime sb) st)
    else if size st <? st_size sb then
      let locking : Z * State * bool :=
        if negb (locked st) then
          let '(r, s) :=
            mbox_lock_mailbox (mutt_file_lock AtCheckLock) false false (log EvSigBlock st) in
          (r, s, true)
        else (0, st, false) in
      let '(r, st1, unlock) := locking in
      if r =? -1 then Some (MUTT_LOCKED, log EvSigUnblock st1)
      else
        let st2 := fseeko_or_stay (size st1) st1 in
        match fgets_fp LONG_STRING st2 with
        | Some (buffer, st3) =>
            if (is_mbox (magic st3) && starts_with_From buffer) ||
               (is_mmdf (magic st3) && str_equal MMDF_SEP buffer)
            then
              let st4 := fseeko_or_stay (size st3) st3 in
              r ← (if is_mbox (magic st4) then mbox_parse_mailbox fuel st4
                   else mmdf_parse_mailbox fuel st4);
              st5 ← unlock_if unlock (snd r);
              Some (MUTT_NEW_MAIL, st5)
            else modified unlock st3
        | None => modified unlock st2
        end
    else modified false st.

(** *** The sync *)

(** [struct MUpdate] *)
Record MUpdate := mkMUpdate {
  valid : bool;
  u_hdr : Z;
  u_body : Z;
  u_lines : Z;
  u_length : Z;
}.

(** An entry as [mutt_mem_calloc] leaves it. *)
Definition MUpdate_zero : MUpdate := mkMUpdate false 0 0 0 0.

Definition set_u_hdr (v : Z) (u : MUpdate) : MUpdate :=
  mkMUpdate (valid u) v (u_body u) (u_lines u) (u_length u).
Definition set_u_body (v : Z) (u : MUpdate) : MUpdate :=
  mkMUpdate (valid u) (u_hdr u) v (u_lines u) (u_length u).

(** [mbox_has_new] *)
Definition mbox_has_new (l : list Header) : bool :=
  existsb (fun h => negb (deleted h) && negb (read h) && negb (old h)) l.

(** [mbox_reset_atime(mailbox, st)]; [None] is a NULL [st]. *)
Definition mbox_reset_atime (sb : option Stat) (st : State) : State :=
  let sb' :=
    match sb with
    | Some b => Some b
    | None => if fails E AtResetAtimeStat then None else Some (stat_disk st)
    end in
  match sb' with
  | None => st
  | Some b =>
      let modtime := tv_sec (st_mtime b) in
      let actime :=
        if negb (MailCheckRecent E) && (modtime <=? tv_sec (st_atime b))
           && mbox_has_new (hdrs st)
        then modtime - 1 else tv_sec (st_atime b) in
      log (EvUtime actime modtime)
        (set_disk_times (mkTimespec actime 0) (mkTimespec modtime 0) st)
  end.

(** The first record that is deleted, changed or has a deleted attachment:
    the first [for] loop of the sync. *)
Fixpoint find_first (i : nat) (l : list Header) : option nat :=
  match l with
  | [] => None
  | h :: rest =>
      if negb (deleted h) && negb (changed h) && negb (attach_del h)
      then find_first (S i) rest else Some i
  end.

(** Bytes written at an offset of a file, and [ftruncate]. *)
Definition write_at (pos : Z) (bytes data : list ascii) : list ascii :=
  take (Z.to_nat pos) data ++ bytes ++ drop (Z.to_nat pos + length bytes) data.

(** The restoring loop under [bail], with [n] records to go. *)
Definition restore_header (u : MUpdate) (h : Header) : Header :=
  set_c_length (u_length u) (set_lines (u_lines u)
    (set_c_offset (u_body u) (set_c_hdr_offset (u_hdr u) (set_offset (u_hdr u) h)))).

Fixpoint restore_offsets (n i first : nat) (old_offset : list MUpdate) (l : list Header)
  : list Header :=
  match n with
  | O => l
  | S n' =>
      match old_offset !! (i - first)%nat with
      | Some u =>
          if valid u
          then restore_offsets n' (S i) first old_offset (alter (restore_header u) i l)
          else l
      | None => l
      end
  end.

(** The code under the label [bail].  [first] is [None] while the C variable
    is -1; the ledger is allocated as soon as [first] is set. *)
Definition sync_bail (rc : Z) (need_sort : bool) (first : option nat)
  (old_offset : list MUpdate) (st : State) : option (Z * State) :=
  let st1 :=
    match first with
    | Some f =>
        set_hdrs (restore_offsets (length (hdrs st) - f) f f old_offset (hdrs st)) st
    | None => st
    end in
  unlocked ← mbox_unlock_mailbox st1;
  let st2 := log EvSigUnblock unlocked in
  if fails E AtBailFreopen then
    Some (-1, mx_fastclose_mailbox
                (log (EvError "Could not reopen mailbox") (set_fp None st2)))
  else
    let st3 := set_fp (Some 0) st2 in
    let st4 :=
      if need_sort
      then set_hdrs (mutt_sort_headers (Sort st3) (1 =? MUTT_REOPENED) (hdrs st3)) st3
      else st3 in
    Some (rc, st4).

(** The loop that copies the rewrite region into the temporary file, with
    [n] records to go and [tmp] the bytes written so far.  Left: a [goto
    bail], with the ledger as it stands; right: the loop ran to its end. *)
Fixpoint sync_copy_loop (n i first : nat) (offset_ : Z) (st : State) (tmp : list ascii)
  (new_offset old_offset : list MUpdate)
  : (State * list MUpdate) + (State * list ascii * list MUpdate * list MUpdate) :=
  match n with
  | O => inr (st, tmp, new_offset, old_offset)
  | S n' =>
      match hdrs st !! i with
      | None => inr (st, tmp, new_offset, old_offset)
      | Some h =>
          let k := (i - first)%nat in
          let old1 :=
            <[k := mkMUpdate true (offset h) (c_offset h) (lines h) (c_length h)]> old_offset in
          let failed (s : State) := log (EvUnlink (tempfile E)) (log (EvPerror (tempfile E)) s) in
          if negb (deleted h) then
            if is_mmdf (magic st) && fails E (AtSyncFputsLead i) then inl (failed st, old1)
            else
              let tmp1 := if is_mmdf (magic st) then tmp ++ MMDF_SEP else tmp in
              let new1 := alter (set_u_hdr (Z.of_nat (length tmp1) + offset_)) k new_offset in
              let '(rc, bytes, h') := mutt_copy_message_ctx (disk st) h in
              let st1 := set_hdrs (<[i := h']> (hdrs st)) st in
              let tmp2 := tmp1 ++ bytes in
              if negb (rc =? 0) then inl (failed st1, old1)
              else
                let new2 :=
                  alter (set_u_body (Z.of_nat (length tmp2) - c_length h' + offset_)) k new1 in
                if fails E (AtSyncFputsTrail i) then inl (failed st1, old1)
                else
                  let tmp3 := tmp2 ++ (if is_mmdf (magic st) then MMDF_SEP else [nl]) in
                  sync_copy_loop n' (S i) first offset_ st1 tmp3 new2 old1
          else sync_copy_loop n' (S i) first offset_ st tmp new_offset old1
      end
  end.

(** "update the offsets of the rewritten messages", with [n] records to go
    and [j] the next index to hand out. *)
Fixpoint update_offsets (n i first : nat) (j : Z) (new_offset : list MUpdate)
  (l : list Header) : list Header :=
  match n with
  | O => l
  | S n' =>
      match l !! i, new_offset !! (i - first)%nat with
      | Some h, Some u =>
          if negb (deleted h) then
            update_offsets n' (S i) first (j + 1) new_offset
              (<[i := set_index j (set_c_offset (u_body u)
                        (set_c_hdr_offset (u_hdr u) (set_offset (u_hdr u) h)))]> l)
          else update_offsets n' (S i) first j new_offset l
      | _, _ => l
      end
  end.

(** The name the temporary file is saved under when the write-back fails. *)
Definition savefile : string :=
  snprintf PATH_MAX
    (Tmpdir E +:+ "/neomutt." +:+ Username E +:+ "-" +:+ ShortHostname E +:+ "-"
     +:+ fmt_d (pid E)).

(** The write-back: the sanity check at the splice offset, the stream copy
    and the truncation.  The answer is the C variable [i]: 0 or -1. *)
Definition sync_splice (offset_ : Z) (tmp : list ascii) (st : State) : Z * State :=
  match fseeko offset_ st with
  | None => (-1, st)
  | Some s0 =>
      match fgets_fp 32 s0 with
      | None => (-1, s0)
      | Some (buf, s1) =>
          if (is_mbox (magic s1) && negb (starts_with_From buf)) ||
             (is_mmdf (magic s1) && negb (str_equal MMDF_SEP buf))
          then (-1, s1)
          else
            match fseeko offset_ s1 with
            | None => (-1, s1)
            | Some s2 =>
                let s3 := if quiet s2 then s2 else log (EvMessage "Committing changes...") s2 in
                let written :=
                  match copy_stream_stops E with
                  | None => tmp
                  | Some stop => take stop tmp
                  end in
                let s4 :=
                  set_fp (Some (offset_ + Z.of_nat (length written)))
                    (set_disk (write_at offset_ written (disk s3)) s3) in
                let i :=
                  if fails E AtSyncFerror then -1
                  else match copy_stream_stops E with None => 0 | Some _ => -1 end in
                if i =? 0 then
                  let sz := if fails E AtSyncFtello then -1 else ftello s4 in
                  let s5 := set_size sz s4 in
                  if (sz <? 0) || fails E AtSyncFtruncate then (-1, s5)
                  else (0, set_disk (take (Z.to_nat sz) (disk s5)) s5)
                else (i, s4)
            end
      end
  end.

(** From "Create a temporary file" to the end of [mbox_mbox_sync]. *)
Definition sync_write (need_sort : bool) (st : State) : option (Z * State) :=
  if fails E AtSyncOpenTemp then
    sync_bail (-1) need_sort None [] (log (EvError "Could not create temporary file") st)
  else if fails E AtSyncFdopen then
    sync_bail (-1) need_sort None []
      (log (EvError "Could not create temporary file") (log (EvUnlink (tempfile E)) st))
  else
    match find_first 0 (hdrs st) with
    | None =>
        sync_bail (-1) need_sort None []
          (log (EvUnlink (tempfile E))
            (log (EvError "sync: mbox modified, but no modified messages (report this bug)") st))
    | Some first =>
        let offset_ :=
          default 0 (offset <$> hdrs st !! first) - (if is_mmdf (magic st) then 5 else 0) in
        let n := (length (hdrs st) - first)%nat in
        let ledger := replicate n MUpdate_zero in
        match sync_copy_loop n first first offset_ st [] ledger ledger with
        | inl (st1, old_offset) => sync_bail (-1) need_sort (Some first) old_offset st1
        | inr (st1, tmp, new_offset, old_offset) =>
            if fails E AtSyncFcloseTemp then
              sync_bail (-1) need_sort (Some first) old_offset
                (log (EvPerror (tempfile E)) (log (EvUnlink (tempfile E)) st1))
            else if fails E AtSyncStat then
              sync_bail (-1) need_sort (Some first) old_offset
                (log (EvUnlink (tempfile E)) (log (EvPerror (path E)) st1))
            else
              let statbuf := stat_disk st1 in
              if fails E AtSyncFopenTemp then
                Some (-1, log (EvPerror (tempfile E))
                            (mx_fastclose_mailbox (log EvSigUnblock st1)))
              else
                let '(i, st2) := sync_splice offset_ tmp st1 in
                unlocked ← mbox_unlock_mailbox st2;
                let st3 := set_fp None unlocked in
                if fails E AtSyncFcloseMbox || (i =? -1) then
                  Some (-1, log (EvError ("Write failed!  Saved partial mailbox to "
                                      +:+ mutt_pretty_mailbox savefile))
                         (mx_fastclose_mailbox
                           (log EvSigUnblock (log (EvRename (tempfile E) savefile) st3))))
                else
                  let st4 := mbox_reset_atime (Some statbuf) st3 in
                  if fails E AtSyncFopenFinal then
                    Some (-1, log (EvError "Fatal error!  Could not reopen mailbox!")
                           (mx_fastclose_mailbox
                             (log EvSigUnblock (log (EvUnlink (tempfile E)) st4))))
                  else
                    let st5 := set_fp (Some 0) st4 in
                    let st6 :=
                      set_hdrs (update_offsets n first first (Z.of_nat first) new_offset
                                  (hdrs st5)) st5 in
                    let st7 := log EvSigUnblock (log (EvUnlink (tempfile E)) st6) in
                    Some (0, if CheckMboxSize E then log EvUpdateMailbox st7 else st7)
        end
    end.

(** [mbox_mbox_sync] *)
Definition mbox_mbox_sync (fuel : nat) (st : State) : option (Z * State) :=
  let need_sort := negb (Sort st =? SORT_ORDER E) in
  let st1 :=
    if need_sort then set_hdrs (mutt_sort_headers (SORT_ORDER E) false (hdrs st)) st
    else st in
  if fails E AtSyncFreopen then
    Some (-1, log (EvError "Fatal error!  Could not reopen mailbox!")
                (mx_fastclose_mailbox (set_fp None st1)))
  else
    let st2 := log EvSigBlock (set_fp (Some 0) st1) in
    let '(r, st3) := mbox_lock_mailbox (mutt_file_lock AtSyncLock) true true st2 in
    if r =? -1 then
      sync_bail (-1) need_sort None []
        (log (EvError "Unable to lock mailbox") (log EvSigUnblock st3))
    else
      chk ← mbox_mbox_check fuel st3;
      let '(i, st4) := chk in
      if (i =? MUTT_NEW_MAIL) || (i =? MUTT_REOPENED) then
        sync_bail i need_sort None [] st4
      else if i <? 0 then Some (-1, st4)
      else sync_write need_sort st4.

End Engine.

End Mbox.

(** ** A small implementation of the collaborators

    Enough of a header parser to run the engine on concrete mailboxes: a
    [From ] line is any line that starts with these five characters; the
    header ends at the first empty line; [Content-Length:], [Lines:] and
    [Message-ID:] are understood, and [Status:] with the letters R and O. *)

Module Sample.
Import Mbox.

Definition bytes (s : string) : list ascii := list_ascii_of_string s.

(** A text with [|] standing for the newline and [^] for control-A. *)
Definition text (s : string) : list ascii :=
  map (fun c => if Ascii.eqb c "|"%char then nl
                else if Ascii.eqb c "^"%char then SOH else c) (bytes s).

Definition digit (c : ascii) : option Z :=
  let n := Z.of_nat (nat_of_ascii c) in
  if (48 <=? n) && (n <=? 57) then Some (n - 48) else None.

Fixpoint atol_from (acc : Z) (l : list ascii) : Z :=
  match l with
  | [] => acc
  | c :: rest =>
      match digit c with
      | Some d => atol_from (acc * 10 + d) rest
      | None => acc
      end
  end.

Definition has_prefix (p l : list ascii) : bool := bool_decide (take (length p) l = p).

Definition chomp (l : list ascii) : list ascii := filter (fun c => c <> nl) l.

(** One header line applied to the record. *)
Definition header_line (line : list ascii) (h : Header) : Header :=
  if has_prefix (bytes "Content-Length: ") line then
    set_c_length (atol_from 0 (drop 16 line)) h
  else if has_prefix (bytes "Lines: ") line then
    set_lines (atol_from 0 (drop 7 line)) h
  else if has_prefix (bytes "Message-ID: ") line then
    set_env (mkEnvelope (return_path (env h)) (from (env h))
               (string_of_list_ascii (chomp (drop 12 line)))) h
  else if has_prefix (bytes "Status: ") line then
    set_old (bool_decide ("O"%char ∈ drop 8 line))
      (set_read (bool_decide ("R"%char ∈ drop 8 line)) h)
  else h.

Fixpoint read_header_lines (fuel : nat) (data : list ascii) (pos : Z) (h : Header)
  : Header * Z :=
  match fuel with
  | O => (h, pos)
  | S fuel' =>
      match fgets LONG_STRING data pos with
      | None => (h, pos)
      | Some (line, pos') =>
          if bool_decide (line = [nl]) then (h, pos')
          else read_header_lines fuel' data pos' (header_line line h)
      end
  end.

Definition sample_read_header (data : list ascii) (pos : Z) (h : Header) : Header * Z :=
  let '(h1, pos') :=
    read_header_lines (length data) data pos
      (set_c_length (-1) (set_c_hdr_offset (offset h) h)) in
  (set_c_offset pos' h1, pos').

Definition sample_is_from (buf : list ascii) : option (string * Z) :=
  if starts_with_From buf then
    Some (string_of_list_ascii (chomp (drop 5 (cstr buf))), 0)
  else None.

Definition sample_cmp (a b : Header) : bool :=
  String.eqb (fingerprint (env a)) (fingerprint (env b)).

(** The copier writes the message as it stands in the file, from its
    [From ] line to the end of its body. *)
Definition sample_copy (data : list ascii) (h : Header) : Z * list ascii * Header :=
  (0, take (Z.to_nat (c_offset h + c_length h - offset h)) (drop (Z.to_nat (offset h)) data), h).

#[export] Instance sample_collab : Collab := {|
  is_from := sample_is_from;
  mutt_date_local_tz := fun _ => 0;
  mutt_rfc822_read_header := sample_read_header;
  mutt_addr_parse_list := Some;
  mutt_header_cmp_strict := sample_cmp;
  mutt_sort_headers := fun _ _ l => l;
  mutt_copy_message_ctx := sample_copy;
  mutt_pretty_mailbox := fun s => s;
|}.

(** An environment where nothing fails and no signal arrives. *)
Definition quiet_env : Env := {|
  fails := fun _ => false;
  sig_arrives := fun _ => false;
  copy_stream_stops := None;
  path := "/var/mail/u";
  tempfile := "/tmp/neomutt-tmp";
  Tmpdir := "/tmp";
  Username := "u";
  ShortHostname := "host";
  pid := 42;
  MailCheckRecent := true;
  CheckMboxSize := false;
  SORT_ORDER := 5;
|}.

Definition with_fails (f : Site -> bool) (e : Env) : Env :=
  mkEnv f (sig_arrives e) (copy_stream_stops e) (path e) (tempfile e) (Tmpdir e)
    (Username e) (ShortHostname e) (pid e) (MailCheckRecent e) (CheckMboxSize e)
    (SORT_ORDER e).


(** A closed mailbox of the given format over a file. *)
Definition fresh (m : MailboxType) (data : list ascii) : State := {|
  magic := m; size := 0; readonly := false; quiet := false; mchanged := false;
  hdrs := []; fp := None; locked := false;
  mtime := mkTimespec 0 0; atime := mkTimespec 0 0;
  index_hint := None; SigInt := 0; polls := 0; Sort := 5;
  disk := data; disk_atime := mkTimespec 100 0; disk_mtime := mkTimespec 100 0;
  trace := [];
|}.

(** The mailbox under another [$sort]. *)
Definition with_sort (v : Z) (s : State) : State :=
  mkState (magic s) (size s) (readonly s) (quiet s) (mchanged s) (hdrs s) (fp s) (locked s)
    (mtime s) (atime s) (index_hint s) (SigInt s) (polls s) v (disk s)
    (disk_atime s) (disk_mtime s) (trace s).


(** *** Collaborators that do more

    A sorter with two orders: the order of the file, by offset, for
    [SORT_ORDER], and the reverse of it for any other [$sort].  A copier
    that writes a [Status:] line at the end of the header, as the copier
    does under [CH_UPDATE], so that the body of the record it copied
    starts ten bytes later. *)
Fixpoint insert_by_offset (h : Header) (l : list Header) : list Header :=
  match l with
  | [] => [h]
  | x :: rest => if offset h <=? offset x then h :: l else x :: insert_by_offset h rest
  end.

Definition sort_by_offset (l : list Header) : list Header := foldr insert_by_offset [] l.

Definition sample_sort (sort : Z) (init : bool) (l : list Header) : list Header :=
  if sort =? 5 then sort_by_offset l else rev (sort_by_offset l).

Definition updating_copy (data : list ascii) (h : Header) : Z * list ascii * Header :=
  let head := take (Z.to_nat (c_offset h - offset h - 1)) (drop (Z.to_nat (offset h)) data) in
  let body := take (Z.to_nat (c_length h)) (drop (Z.to_nat (c_offset h)) data) in
  (0, head ++ text "Status: O||" ++ body, set_c_offset (c_offset h + 10) h).

Definition busy_collab : Collab := {|
  is_from := sample_is_from;
  mutt_date_local_tz := fun _ => 0;
  mutt_rfc822_read_header := sample_read_header;
  mutt_addr_parse_list := Some;
  mutt_header_cmp_strict := sample_cmp;
  mutt_sort_headers := sample_sort;
  mutt_copy_message_ctx := updating_copy;
  mutt_pretty_mailbox := fun s => s;
|}.

End Sample.

(** ** Notmuch: paths, tags and flags

    The functions of [notmuch/mutt_notmuch.c] that work on file names and on
    tag strings.  A C string is a list of bytes here (none of them NUL), and
    a [char *] that may be NULL is an [option]. *)

Module NotmuchMessages.

(** [query_type_to_string] *)
Definition query_type_to_string (query_type : Notmuch.NmQueryType) : string :=
  match query_type with
  | Notmuch.NM_QUERY_TYPE_THREADS => "threads"
  | _ => "messages"
  end.

(** *** C strings *)

(** [strrchr(s, c)] and [strchr(s, c)]: the offset of the last and of the
    first [c] in [s], [None] for NULL. *)
Fixpoint strrchr (s : list ascii) (c : ascii) : option nat :=
  match s with
  | [] => None
  | x :: rest =>
      match strrchr rest c with
      | Some i => Some (S i)
      | None => if Ascii.eqb x c then Some O else None
      end
  end.

Fixpoint strchr (s : list ascii) (c : ascii) : option nat :=
  match s with
  | [] => None
  | x :: rest => if Ascii.eqb x c then Some O else S <$> strchr rest c
  end.

(** [strncmp(s + i, lit, n) == 0] with [n] the length of the literal. *)
Definition strncmp_at (s : list ascii) (i : nat) (lit : string) : bool :=
  bool_decide (take (String.length lit) (drop i s) = list_ascii_of_string lit).

(** [strcmp(s, lit) == 0] *)
Definition strcmp_eq (s : list ascii) (lit : string) : bool :=
  bool_decide (s = list_ascii_of_string lit).

(** [isspace] in the C locale: the space and the characters 9 to 13. *)
Definition isspace (c : ascii) : bool :=
  let n := nat_of_ascii c in
  Nat.eqb n 32 || (Nat.leb 9 n && Nat.leb n 13).

(** Helpers of libmutt's [string.c], which is not among the sources:
    [mutt_str_strdup] gives NULL for NULL and for the empty string;
    [mutt_str_strfcpy(dest, src, dsize)] copies at most [dsize - 1] bytes;
    [mutt_str_substr_dup(begin, end)] copies the bytes from [begin] up to
    [end]. *)
Definition mutt_str_strdup (s : option (list ascii)) : option (list ascii) :=
  match s with
  | Some [] => None
  | other => other
  end.

Definition mutt_str_strfcpy (src : list ascii) (dsize : nat) : list ascii :=
  take (dsize - 1) src.

(** [snprintf(buf, buflen, ...)] on bytes: the text cut to [buflen - 1]. *)
Definition snprintf_bytes (buflen : nat) (s : list ascii) : list ascii :=
  take (buflen - 1) s.

(** *** The folder of a Maildir file *)

(** The [for] loop of [get_folder_from_path], which steps [p] back while
    the byte before it is a slash and [p] is not at the start. *)
Fixpoint skip_slashes_back (path : list ascii) (p : nat) : nat :=
  match p with
  | O => O
  | S p' =>
      if bool_decide (path !! p' = Some "/"%char) then skip_slashes_back path p' else p
  end.

(** [get_folder_from_path] *)
Definition get_folder_from_path (path : list ascii) : option (list ascii) :=
  match strrchr path "/" with
  | Some p =>
      if (3 <? p)%nat &&
         (strncmp_at path (p - 3) "cur" || strncmp_at path (p - 3) "new" ||
          strncmp_at path (p - 3) "tmp")
      then Some (take (skip_slashes_back path (p - 3)) path)
      else None
  | None => None
  end.

(** *** Renaming a Maildir file *)

Section Rename.

(** The message as this function sees it: its [read] and [old] flags, the
    flag suffix [maildir_gen_flags(suffix, sizeof(suffix), e)] writes (of
    [maildir/mh.c], not among the sources), and whether [rename(2)] fails. *)
Context {Email : Type}.
Variable e_read e_old : Email -> bool.
Variable maildir_gen_flags : nat -> Email -> list ascii.
Variable rename_fails : list ascii -> list ascii -> bool.

(** [rename_maildir_filename(old, buf, buflen, e)]: the return code and what
    is left in [buf]. *)
Definition rename_maildir_filename (old : list ascii) (buflen : nat) (e : Email)
  : Z * list ascii :=
  let folder0 := mutt_str_strfcpy old PATH_MAX in
  let '(folder1, p) :=
    match strrchr folder0 "/" with
    | Some i => (take i folder0, drop (S i) folder0)
    | None => (folder0, folder0)
    end in
  let filename0 := mutt_str_strfcpy p PATH_MAX in
  let folder2 :=
    match strrchr folder1 "/" with
    | Some i => take i folder1
    | None => folder1
    end in
  let filename1 :=
    match strchr filename0 ":" with
    | Some i => take i filename0
    | None => filename0
    end in
  let suffix := maildir_gen_flags PATH_MAX e in
  let buf :=
    snprintf_bytes buflen
      (folder2 ++ list_ascii_of_string "/" ++
       list_ascii_of_string (if e_read e || e_old e then "cur" else "new") ++
       list_ascii_of_string "/" ++ filename1 ++ suffix) in
  if bool_decide (old = buf) then (1, buf)
  else if rename_fails old buf then (-1, buf)
  else (0, buf).

End Rename.

(** *** Tag strings *)

(** What [update_tags] asks of a libnotmuch message. *)
Class NotmuchMessage (M : Type) := {
  notmuch_message_get_tags : M -> list (list ascii);
  notmuch_message_add_tag : list ascii -> M -> M;
  notmuch_message_remove_tag : list ascii -> M -> M;
  notmuch_message_freeze : M -> M;
  notmuch_message_thaw : M -> M;
}.

Section TagLoop.

Context {A : Type} (act : list ascii -> A -> A).

(** The [for (char *p = buf; p && *p; p++)] loop that [update_tags] and
    [update_email_flags] share word for word; [act] is what each does with
    a tag once [*end] is set to NUL.  [tag] holds the bytes from the pointer
    [tag] up to [p], and is [None] while the pointer is NULL. *)
Fixpoint tag_loop (p : list ascii) (tag : option (list ascii)) (a : A) : A :=
  match p with
  | [] => a
  | c :: rest =>
      match tag, isspace c with
      | None, true => tag_loop rest None a
      | _, _ =>
          let t := default [] tag in
          if Ascii.eqb c ","%char || Ascii.eqb c " "%char then
            if bool_decide (t = []) then a
            else tag_loop rest None (act t a)
          else
            match rest with
            | [] => act (t ++ [c]) a
            | _ => tag_loop rest (Some (t ++ [c])) a
            end
      end
  end.

End TagLoop.

Section Tags.

Context {M : Type} `{NotmuchMessage M}.

(** [nm_message_has_tag] *)
Definition nm_message_has_tag (msg : M) (tag : list ascii) : bool :=
  existsb (fun t => bool_decide (t = tag)) (notmuch_message_get_tags msg).

(** What [update_tags] does with one tag. *)
Definition apply_tag (tag : list ascii) (msg : M) : M :=
  match tag with
  | "-"%char :: t => notmuch_message_remove_tag t msg
  | "!"%char :: t =>
      if nm_message_has_tag msg t then notmuch_message_remove_tag t msg
      else notmuch_message_add_tag t msg
  | "+"%char :: t => notmuch_message_add_tag t msg
  | _ => notmuch_message_add_tag tag msg
  end.

(** [update_tags(msg, tags)] *)
Definition update_tags (msg : M) (tags : option (list ascii)) : Z * M :=
  match mutt_str_strdup tags with
  | None => (-1, msg)
  | Some buf =>
      (0, notmuch_message_thaw (tag_loop apply_tag buf None (notmuch_message_freeze msg)))
  end.

End Tags.

Section Flags.

(** [mutt_set_flag(ctx, e, flag, bf)] of [flags.c], which is not among the
    sources, as a function on the message. *)
Context {Email : Type}.
Variable mutt_set_flag : Mbox.FlagKind -> bool -> Email -> Email.

(** What [update_email_flags] does with one tag. *)
Definition apply_flag (tag : list ascii) (e : Email) : Email :=
  match tag with
  | "-"%char :: t =>
      if strcmp_eq t "unread" then mutt_set_flag Mbox.MUTT_READ true e
      else if strcmp_eq t "replied" then mutt_set_flag Mbox.MUTT_REPLIED false e
      else if strcmp_eq t "flagged" then mutt_set_flag Mbox.MUTT_FLAG false e
      else e
  | _ =>
      let t := match tag with "+"%char :: t' => t' | _ => tag end in
      if strcmp_eq t "unread" then mutt_set_flag Mbox.MUTT_READ false e
      else if strcmp_eq t "replied" then mutt_set_flag Mbox.MUTT_REPLIED true e
      else if strcmp_eq t "flagged" then mutt_set_flag Mbox.MUTT_FLAG true e
      else e
  end.

(** [update_email_flags(ctx, e, tags)] *)
Definition update_email_flags (e : Email) (tags : option (list ascii)) : Z * Email :=
  match mutt_str_strdup tags with
  | None => (-1, e)
  | Some buf => (0, tag_loop apply_flag buf None e)
  end.

End Flags.

End NotmuchMessages.

(** ** The mbox file type and the padding between messages *)

Module MboxFiles.
Import Mbox.

(** [mbox_msg_padding_size] and [mmdf_msg_padding_size] *)
Definition mbox_msg_padding_size : Z := 1.
Definition mmdf_msg_padding_size : Z := 10.

(** The [while ((ch = fgetc(fp)) != EOF)] loop of [mbox_path_probe]: the
    stream after the leading newlines and carriage returns, with the first
    other character pushed back. *)
Fixpoint skip_blank (data : list ascii) : list ascii :=
  match data with
  | [] => []
  | ch :: rest =>
      if negb (Ascii.eqb ch nl) && negb (Ascii.eqb ch "013"%char) then data
      else skip_blank rest
  end.

(** The call with which [mbox_path_probe] puts the times of the file
    back: [utime(path, &times)] or [utimensat(0, path, ts, 0)]. *)
Inductive TimesCall : Type :=
  | Utime (actime modtime : Z)
  | Utimensat (ts0 ts1 : Timespec).

(** [mbox_path_probe(path, st)]: [regular] is [S_ISREG(st->st_mode)], [file]
    the content of the file, [None] when [fopen] fails.  The answer comes
    with the call that puts the times back.

    [HAVE_UTIMENSAT] is the build flag of the [#ifdef].  Without it the
    call is [utime] with [st->st_atime] and [st->st_mtime].  With it the
    call is [utimensat] with the two times [mutt_get_stat_timespec] fills
    in; the pointer it is handed is [&st], the address of the parameter
    and not the [stat] record, so what it reads is not taken from [st]:
    the two times it comes back with are the parameter [at_st]. *)
Definition mbox_path_probe (HAVE_UTIMENSAT : bool) (at_st : Timespec * Timespec)
  (CheckMboxSize : bool) (path : option string)
  (st : option (bool * Stat)) (file : option (list ascii)) : MailboxType * list TimesCall :=
  match path with
  | None => (MUTT_UNKNOWN, [])
  | Some _ =>
      match st with
      | None => (MUTT_UNKNOWN, [])
      | Some (regular, sb) =>
          if negb regular then (MUTT_UNKNOWN, [])
          else
            match file with
            | None => (MUTT_UNKNOWN, [])
            | Some data =>
                let magic :=
                  match fgets STRING (skip_blank data) 0 with
                  | Some (tmp, _) =>
                      if starts_with_From tmp then MUTT_MBOX
                      else if str_equal MMDF_SEP tmp then MUTT_MMDF
                      else MUTT_UNKNOWN
                  | None => MUTT_UNKNOWN
                  end in
                (magic,
                 if negb CheckMboxSize
                 then
                   if HAVE_UTIMENSAT
                   then [Utimensat (fst at_st) (snd at_st)]
                   else [Utime (tv_sec (st_atime sb)) (tv_sec (st_mtime sb))]
                 else [])
            end
      end
  end.

End MboxFiles.

(** ** Sample messages and a sample mailbox URL for Notmuch *)

Module NotmuchSample.
Import Notmuch NotmuchMessages.

(** A message to run the tag functions on: its tags in order, and how often
    it was frozen and thawed. *)
Record SampleMessage := mkSampleMessage {
  sm_tags : list (list ascii);
  sm_freezes : nat;
  sm_thaws : nat;
}.

#[export] Instance sample_message : NotmuchMessage SampleMessage := {
  notmuch_message_get_tags := sm_tags;
  notmuch_message_add_tag t m :=
    mkSampleMessage
      (if existsb (fun u => bool_decide (u = t)) (sm_tags m) then sm_tags m
       else sm_tags m ++ [t])
      (sm_freezes m) (sm_thaws m);
  notmuch_message_remove_tag t m :=
    mkSampleMessage (filter (fun u => u <> t) (sm_tags m)) (sm_freezes m) (sm_thaws m);
  notmuch_message_freeze m := mkSampleMessage (sm_tags m) (S (sm_freezes m)) (sm_thaws m);
  notmuch_message_thaw m := mkSampleMessage (sm_tags m) (sm_freezes m) (S (sm_thaws m));
}.

Definition bytes (s : string) : list ascii := list_ascii_of_string s.

Definition sample_msg : SampleMessage :=
  mkSampleMessage [bytes "inbox"; bytes "unread"] 0 0.

(** A message with its three flags, and [mutt_set_flag] on it. *)
Record SampleEmail := mkSampleEmail {
  se_read : bool;
  se_old : bool;
  se_replied : bool;
  se_flagged : bool;
}.

Definition sample_set_flag (f : Mbox.FlagKind) (bf : bool) (e : SampleEmail) : SampleEmail :=
  match f with
  | Mbox.MUTT_READ => mkSampleEmail bf (se_old e) (se_replied e) (se_flagged e)
  | Mbox.MUTT_REPLIED => mkSampleEmail (se_read e) (se_old e) bf (se_flagged e)
  | Mbox.MUTT_FLAG => mkSampleEmail (se_read e) (se_old e) (se_replied e) bf
  | _ => e
  end.

(** The flag suffix of a Maildir name for such a message. *)
Definition sample_gen_flags (n : nat) (e : SampleEmail) : list ascii :=
  take (n - 1)
    (bytes ":2," ++ (if se_flagged e then bytes "F" else []) ++
     (if se_replied e then bytes "R" else []) ++ (if se_read e then bytes "S" else [])).

Definition sample_email : SampleEmail := mkSampleEmail true false false true.

(** A mailbox URL to run [get_query_string] on. *)

(** [mutt_str_atoi] for the run: decimal digits give their number, anything
    else is an error and leaves the destination alone. *)
Definition sample_atoi (s : string) (dst : Z) : Z * Z :=
  match NilEmpty.uint_of_string s with
  | Some d => (0, Z.of_nat (Nat.of_uint d))
  | None => (-1, dst)
  end.

Definition sample_url : NmMboxData :=
  mkMboxData None 0 NM_QUERY_TYPE_MESGS
    [(Some "limit", Some "50"); (Some "query", Some "tag:inbox"); (Some "type", Some "threads")]%string.

End NotmuchSample.

(** * Properties of the Notmuch query window *)

Module NotmuchProps.
Import Notmuch.

Lemma int_of_Some (z r : Z) : int_of z = Some r -> r = z /\ INT_MIN <= z <= INT_MAX.
Proof.
  unfold int_of, in_int. destruct (INT_MIN <=? z) eqn:E1; destruct (z <=? INT_MAX) eqn:E2;
    simpl; intros H; inversion H; subst. lia.
Qed.

Lemma int_of_in_range (z : Z) : INT_MIN <= z <= INT_MAX -> int_of z = Some z.
Proof.
  intros [H1 H2]. unfold int_of, in_int.
  apply Z.leb_le in H1. apply Z.leb_le in H2. now rewrite H1, H2.
Qed.

(** The window a registered search gets: with the query equal to the
    registered search, a positive duration and a valid timebase, the buffer
    holds the [date:] clause of the current position, open-ended at
    position 0, and the position is left alone. *)
Lemma windowed_query_registered_search (g : Globals) (q tb : string) (buflen : nat) :
  0 < NmQueryWindowDuration g ->
  0 <= NmQueryWindowCurrentPosition g ->
  NmQueryWindowDuration g * (NmQueryWindowCurrentPosition g + 1) <= INT_MAX ->
  NmQueryWindowTimebase g = Some tb ->
  query_window_check_timebase tb = true ->
  NmQueryWindowCurrentSearch g = Some q ->
  windowed_query_from_query g q buflen =
    Some (g, Some (snprintf buflen
      (if NmQueryWindowCurrentPosition g =? 0 then
         "date:" +:+ fmt_d (NmQueryWindowDuration g * (NmQueryWindowCurrentPosition g + 1))
         +:+ tb +:+ ".. and " +:+ q
       else
         "date:" +:+ fmt_d (NmQueryWindowDuration g * (NmQueryWindowCurrentPosition g + 1))
         +:+ tb +:+ ".." +:+ fmt_d (NmQueryWindowDuration g * NmQueryWindowCurrentPosition g)
         +:+ tb +:+ " and " +:+ q))).
Proof.
  intros HD HP Hmax Htb Hok Hq. unfold windowed_query_from_query.
  set (D := NmQueryWindowDuration g) in *. set (P := NmQueryWindowCurrentPosition g) in *.
  assert (HP1 : int_add P 1 = Some (P + 1)).
  { apply int_of_in_range. unfold INT_MIN, INT_MAX in *. nia. }
  assert (Hbeg : int_mul D (P + 1) = Some (D * (P + 1))).
  { apply int_of_in_range. unfold INT_MIN, INT_MAX in *. nia. }
  assert (Hend : int_mul D P = Some (D * P)).
  { apply int_of_in_range. unfold INT_MIN, INT_MAX in *. nia. }
  rewrite HP1. simpl. rewrite Hbeg. simpl. rewrite Hend. simpl.
  destruct (D <=? 0) eqn:ED; [apply Z.leb_le in ED; lia|].
  rewrite Hq. rewrite String.eqb_refl. rewrite Htb. simpl. rewrite Hok. simpl.
  rewrite Hq. simpl.
  destruct (P =? 0) eqn:EP.
  - apply Z.eqb_eq in EP. rewrite EP, Z.mul_0_r. reflexivity.
  - apply Z.eqb_neq in EP. destruct (D * P =? 0) eqn:EDP; [|reflexivity].
    apply Z.eqb_eq in EDP. nia.
Qed.

(** A duration of zero or less disables the window (the function answers
    [false]) and resets the position. *)
Lemma windowed_query_disabled (g : Globals) (q : string) (buflen : nat) (r : Globals * option string) :
  NmQueryWindowDuration g <= 0 ->
  windowed_query_from_query g q buflen = Some r ->
  r = (query_window_reset g, None).
Proof.
  intros HD. unfold windowed_query_from_query.
  destruct (int_add _ 1); simpl; [|discriminate].
  destruct (int_mul _ z); simpl; [|discriminate].
  destruct (int_mul _ (NmQueryWindowCurrentPosition g)); simpl; [|discriminate].
  apply Z.leb_le in HD. rewrite HD. congruence.
Qed.

(** C9: the window of a search whose text differs from the registered one.
    [get_query_string] registers the new text before it asks for the
    window, so the comparison inside [windowed_query_from_query] finds no
    difference and the position stays 3: the window is [8week..6week].
    Called on its own with a query that differs from the registered search,
    [windowed_query_from_query] does reset the stored position, but after
    the two bounds were computed from the old position, and the buffer
    carries the registered search, not the query. *)
Theorem windowed_query_new_search_keeps_old_window :
  let g := mkGlobals 2 3 (Some "week"%string) (Some "tag:inbox"%string) in
  let mdata := mkMboxData None 0 NM_QUERY_TYPE_MESGS
                 [(Some "query"%string, Some "tag:archived"%string)] in
  (forall atoi cfg,
     get_query_string atoi cfg g mdata true =
       Some (mkGlobals 2 3 (Some "week"%string) (Some "tag:archived"%string),
             mkMboxData (Some "date:8week..6week and tag:archived"%string) 0
               (string_to_query_type cfg)
               [(Some "query"%string, Some "tag:archived"%string)],
             Some "date:8week..6week and tag:archived"%string)) /\
  windowed_query_from_query g "tag:archived" LONG_STRING =
    Some (mkGlobals 2 0 (Some "week"%string) (Some "tag:inbox"%string),
          Some "date:8week..6week and tag:inbox"%string).
Proof. split; [intros atoi cfg|]; vm_compute; reflexivity. Qed.

(** The position stays within [0, INT_MAX] along every run that starts
    there. *)
Lemma window_step_range (op : WindowOp) (g g' : Globals) :
  0 <= NmQueryWindowCurrentPosition g ->
  window_step op g = Some g' ->
  0 <= NmQueryWindowCurrentPosition g' <= NmQueryWindowCurrentPosition g + 1.
Proof.
  intros H0. destruct op; simpl.
  - unfold nm_query_window_forward.
    destruct (NmQueryWindowCurrentPosition g =? 0) eqn:E; simpl.
    + intros [= <-]. lia.
    + apply Z.eqb_neq in E. unfold int_sub.
      destruct (int_of _) eqn:Ei; simpl; [|discriminate].
      apply int_of_Some in Ei. intros [= <-]. simpl. lia.
  - unfold nm_query_window_backward, int_add.
    destruct (int_of _) eqn:Ei; simpl; [|discriminate].
    apply int_of_Some in Ei. intros [= <-]. simpl. lia.
  - intros [= <-]. simpl. lia.
Qed.

Lemma window_step_defined (op : WindowOp) (g : Globals) :
  0 <= NmQueryWindowCurrentPosition g < INT_MAX ->
  exists g', window_step op g = Some g'.
Proof.
  intros H0. destruct op; simpl.
  - unfold nm_query_window_forward.
    destruct (NmQueryWindowCurrentPosition g =? 0) eqn:E; simpl; [eauto|].
    unfold int_sub. rewrite int_of_in_range; simpl; [eauto|].
    unfold INT_MIN, INT_MAX in *. lia.
  - unfold nm_query_window_backward, int_add. rewrite int_of_in_range; simpl; [eauto|].
    unfold INT_MIN, INT_MAX in *. lia.
  - eauto.
Qed.

Lemma window_run_range (ops : list WindowOp) : forall (g g' : Globals),
  0 <= NmQueryWindowCurrentPosition g ->
  window_run ops g = Some g' ->
  0 <= NmQueryWindowCurrentPosition g'
    <= NmQueryWindowCurrentPosition g + Z.of_nat (length ops).
Proof.
  induction ops as [|op rest IH]; intros g g' H0; simpl.
  - intros [= <-]. lia.
  - destruct (window_step op g) as [g1|] eqn:E; simpl; [|discriminate].
    intros Hrun. apply window_step_range in E; [|exact H0].
    apply IH in Hrun; lia.
Qed.

Lemma window_run_defined (ops : list WindowOp) : forall (g : Globals),
  0 <= NmQueryWindowCurrentPosition g ->
  NmQueryWindowCurrentPosition g + Z.of_nat (length ops) <= INT_MAX ->
  exists g', window_run ops g = Some g'.
Proof.
  induction ops as [|op rest IH]; intros g H0 Hlen; simpl; [eauto|].
  simpl length in Hlen.
  destruct (window_step_defined op g) as [g1 E]; [lia|].
  rewrite E. simpl. apply window_step_range in E as Hr; [|exact H0].
  apply IH; lia.
Qed.

(** C10: starting from position 0, every sequence of forward, backward and
    reset commands that C gives a meaning to (no overflow of the [int]
    counter) ends at a non-negative position; every sequence of at most
    [INT_MAX] commands has a meaning.  Forward leaves 0 alone and otherwise
    takes 1 off, backward adds 1, reset stores 0. *)
Theorem window_position_never_negative (ops : list WindowOp) (g : Globals)
  (Hstart : NmQueryWindowCurrentPosition g = 0) :
  (forall g', window_run ops g = Some g' -> 0 <= NmQueryWindowCurrentPosition g') /\
  (Z.of_nat (length ops) <= INT_MAX ->
     exists g', window_run ops g = Some g' /\
       0 <= NmQueryWindowCurrentPosition g' <= Z.of_nat (length ops)) /\
  nm_query_window_forward g = Some g /\
  (forall h, NmQueryWindowCurrentPosition h <> 0 ->
     INT_MIN < NmQueryWindowCurrentPosition h <= INT_MAX ->
     nm_query_window_forward h = Some (set_position (NmQueryWindowCurrentPosition h - 1) h)) /\
  (forall h, INT_MIN <= NmQueryWindowCurrentPosition h < INT_MAX ->
     nm_query_window_backward h = Some (set_position (NmQueryWindowCurrentPosition h + 1) h)) /\
  (forall h, NmQueryWindowCurrentPosition (query_window_reset h) = 0).
Proof.
  split; [|split; [|split; [|split; [|split]]]].
  - intros g' Hrun. apply window_run_range in Hrun; lia.
  - intros Hlen. destruct (window_run_defined ops g) as [g' E]; [lia|lia|].
    exists g'. split; [exact E|]. apply window_run_range in E; lia.
  - unfold nm_query_window_forward. rewrite Hstart. reflexivity.
  - intros h Hne Hr. unfold nm_query_window_forward.
    apply Z.eqb_neq in Hne. rewrite Hne. simpl. unfold int_sub.
    rewrite int_of_in_range; [reflexivity|lia].
  - intros h Hr. unfold nm_query_window_backward, int_add.
    rewrite int_of_in_range; [reflexivity|lia].
  - reflexivity.
Qed.

Lemma window_position_never_negative_witness :
  let g := mkGlobals 2 0 (Some "week"%string) None in
  let ops := [Backward; Backward; Forward; Forward; Forward; Reset; Backward] in
  NmQueryWindowCurrentPosition g = 0 /\
  exists g', window_run ops g = Some g' /\
    0 <= NmQueryWindowCurrentPosition g' <= Z.of_nat (length ops).
Proof.
  intros g ops. split; [reflexivity|].
  apply (window_position_never_negative ops g eq_refl). vm_compute. discriminate.
Defined.

(** Runs of backward commands: the counter goes up by one a command as
    long as it fits an [int], on either reading of [++]. *)
Lemma window_run_app (a b : list WindowOp) : forall g : Globals,
  window_run (a ++ b) g = (g' ← window_run a g; window_run b g').
Proof.
  induction a as [|op a IH]; intros g; [reflexivity|].
  cbn [app window_run]. destruct (window_step op g) as [g1|]; [|reflexivity].
  cbn [mbind option_bind]. apply IH.
Qed.

Lemma backward_run (n : nat) : forall g : Globals,
  0 <= NmQueryWindowCurrentPosition g ->
  NmQueryWindowCurrentPosition g + Z.of_nat n <= INT_MAX ->
  exists g', window_run (replicate n Backward) g = Some g' /\
    NmQueryWindowCurrentPosition g' = NmQueryWindowCurrentPosition g + Z.of_nat n.
Proof.
  induction n as [|n IH]; intros g H0 Hn.
  - exists g. split; [reflexivity|]. lia.
  - cbn [replicate window_run window_step]. unfold nm_query_window_backward, int_add.
    rewrite int_of_in_range by (unfold INT_MIN; lia). cbn [mbind option_bind].
    destruct (IH (set_position (NmQueryWindowCurrentPosition g + 1) g)) as (g' & Hr & Hp).
    + cbn. lia.
    + cbn. lia.
    + exists g'. split; [exact Hr|]. rewrite Hp. cbn. lia.
Qed.

Lemma to_int_in_range (z : Z) : INT_MIN <= z <= INT_MAX -> to_int z = z.
Proof.
  unfold to_int, INT_MIN, INT_MAX. intros Hz. rewrite Z.mod_small by lia. lia.
Qed.

Lemma backward_run_wrapping (n : nat) : forall g : Globals,
  0 <= NmQueryWindowCurrentPosition g ->
  NmQueryWindowCurrentPosition g + Z.of_nat n <= INT_MAX ->
  NmQueryWindowCurrentPosition (window_run_wrapping (replicate n Backward) g) =
    NmQueryWindowCurrentPosition g + Z.of_nat n.
Proof.
  unfold window_run_wrapping.
  induction n as [|n IH]; intros g H0 Hn; [cbn; lia|].
  cbn [replicate foldl window_step_wrapping]. rewrite IH.
  - unfold nm_query_window_backward_wrapping. cbn.
    rewrite to_int_in_range by (unfold INT_MIN; lia). lia.
  - unfold nm_query_window_backward_wrapping. cbn.
    rewrite to_int_in_range by (unfold INT_MIN; lia). lia.
  - unfold nm_query_window_backward_wrapping. cbn.
    rewrite to_int_in_range by (unfold INT_MIN; lia). lia.
Qed.

(** One backward command more than the counter can take. *)
Lemma backward_overflows (n : nat) (g : Globals) :
  NmQueryWindowCurrentPosition g = 0 ->
  Z.of_nat n = INT_MAX ->
  (exists g1, window_run (replicate n Backward) g = Some g1 /\
     NmQueryWindowCurrentPosition g1 = INT_MAX /\
     nm_query_window_backward g1 = None) /\
  window_run (replicate n Backward ++ [Backward]) g = None /\
  ~ (exists g', window_run (replicate n Backward ++ [Backward]) g = Some g' /\
       0 <= NmQueryWindowCurrentPosition g') /\
  NmQueryWindowCurrentPosition (window_run_wrapping (replicate n Backward ++ [Backward]) g)
    = INT_MIN /\
  NmQueryWindowCurrentPosition (window_run_wrapping (replicate n Backward ++ [Backward]) g)
    < 0.
Proof.
  intros H0 Hn.
  destruct (backward_run n g) as (g1 & Hr & Hp); [lia|lia|].
  rewrite H0, Hn, Z.add_0_l in Hp.
  assert (Hb : nm_query_window_backward g1 = None).
  { unfold nm_query_window_backward. rewrite Hp. reflexivity. }
  assert (Hrun : window_run (replicate n Backward ++ [Backward]) g = None).
  { rewrite window_run_app, Hr. cbn [mbind option_bind window_run window_step].
    rewrite Hb. reflexivity. }
  assert (Hw : NmQueryWindowCurrentPosition
                 (window_run_wrapping (replicate n Backward ++ [Backward]) g) = INT_MIN).
  { unfold window_run_wrapping. rewrite foldl_app. cbn [foldl window_step_wrapping].
    unfold nm_query_window_backward_wrapping. cbn [NmQueryWindowCurrentPosition set_position].
    pose proof (backward_run_wrapping n g) as Hq.
    unfold window_run_wrapping in Hq. rewrite Hq by lia.
    rewrite H0, Hn. reflexivity. }
  split; [exists g1; split; [exact Hr|split; [exact Hp|exact Hb]]|].
  split; [exact Hrun|].
  split; [intros (g' & Hg' & _); rewrite Hrun in Hg'; discriminate|].
  split; [exact Hw|]. rewrite Hw. reflexivity.
Qed.

(** C10 as it is worded fails on the sequence of [INT_MAX] + 1 backward
    commands from position 0.  The first [INT_MAX] of them take the
    counter to [INT_MAX]; the increment of the last overflows the [int]:
    C gives it no result, so the sequence does not end at a position that
    is not negative, and a build on which [int] wraps around ends it at
    [INT_MIN]. *)
Lemma window_position_overflows :
  exists (g : Globals) (ops : list WindowOp),
    NmQueryWindowCurrentPosition g = 0 /\
    ops = replicate (Z.to_nat INT_MAX) Backward ++ [Backward] /\
    (exists g1, window_run (replicate (Z.to_nat INT_MAX) Backward) g = Some g1 /\
       NmQueryWindowCurrentPosition g1 = INT_MAX /\
       nm_query_window_backward g1 = None) /\
    window_run ops g = None /\
    ~ (exists g', window_run ops g = Some g' /\ 0 <= NmQueryWindowCurrentPosition g') /\
    NmQueryWindowCurrentPosition (window_run_wrapping ops g) = INT_MIN /\
    NmQueryWindowCurrentPosition (window_run_wrapping ops g) < 0.
Proof.
  exists (mkGlobals 2 0 (Some "week"%string) None),
         (replicate (Z.to_nat INT_MAX) Backward ++ [Backward]).
  split; [reflexivity|]. split; [reflexivity|].
  apply backward_overflows; [reflexivity|].
  apply Z2Nat.id. discriminate.
Defined.

End NotmuchProps.

(** * Properties of the mbox engine *)

Module MboxProps.
Import Mbox Sample.

Section Properties.

Context {C : Collab} (E : Env).

(** *** Locking and the integrity check *)

(** The mailbox after [mbox_unlock_mailbox], where the call is defined. *)
Definition unlocked (st : State) : State :=
  if locked st then set_locked false (log EvFileUnlock st) else st.

Lemma unlock_defined (st : State) :
  locked st = false \/ is_Some (fp st) -> mbox_unlock_mailbox st = Some (unlocked st).
Proof.
  unfold mbox_unlock_mailbox, unlocked. intros [Hl|[p Hp]].
  - rewrite Hl. reflexivity.
  - rewrite Hp. destruct (locked st); reflexivity.
Qed.

Lemma unlock_Some (st s : State) :
  mbox_unlock_mailbox st = Some s ->
  s = unlocked st /\ (locked st = false \/ is_Some (fp st)).
Proof.
  unfold mbox_unlock_mailbox, unlocked. destruct (locked st).
  - destruct (fp st) as [p|]; [|discriminate]. intros [= <-]. split; [reflexivity|].
    right. exists p. reflexivity.
  - intros [= <-]. split; [reflexivity|]. left. reflexivity.
Qed.

Lemma unlock_None (st : State) :
  mbox_unlock_mailbox st = None <-> locked st = true /\ fp st = None.
Proof.
  unfold mbox_unlock_mailbox. destruct (locked st), (fp st); split;
    try discriminate; try (intros [? ?]; discriminate); auto.
Qed.

Lemma check_same_size (fuel : nat) (s : State) :
  fails E AtCheckStat = false ->
  Z.of_nat (length (disk s)) = size s ->
  mbox_mbox_check E fuel s =
    Some (0, if timespec_equal (disk_mtime s) (mtime s) then s
             else set_mtime (disk_mtime s) s).
Proof.
  intros Hstat Hs. unfold mbox_mbox_check. rewrite Hstat.
  unfold stat_disk. cbn [st_size st_mtime].
  apply Z.eqb_eq in Hs. rewrite Hs, andb_true_r.
  destruct (timespec_equal _ _); reflexivity.
Qed.


(** C8, as the code has it: a lock that cannot be taken is fatal only for a
    retrying exclusive acquisition.  [mbox_lock_mailbox] turns the failure of
    a retrying shared acquisition into a read-only mailbox and answers 0, so
    [mbox_mbox_open] parses the mailbox all the same; the retrying exclusive
    acquisitions of [mbox_mbox_open_append] and [mbox_mbox_sync] make these
    answer -1; the failure without retry in [mbox_mbox_check] is answered
    with [MUTT_LOCKED]. *)
Theorem lock_failure_fatal_only_when_exclusive (fuel : nat) (st : State)
  (r : Z) (Hr : r <> 0) :
  mbox_lock_mailbox r false true st = (0, set_readonly true st) /\
  mbox_lock_mailbox r true true st = (r, st) /\
  (forall excl, mbox_lock_mailbox r excl false st = (r, st)) /\
  (fails E AtOpenFopen = false -> fails E AtOpenLock = true ->
     mbox_mbox_open E fuel st =
       (res ← parse_by_magic E fuel (set_readonly true (log EvSigBlock (set_fp (Some 0) st)));
        st' ← mbox_unlock_mailbox (log EvTouchAtime (snd res));
        Some (fst res, log EvSigUnblock st'))) /\
  (fails E AtAppendFopen = false -> fails E AtAppendLock = true ->
     forall newfolder, fst (mbox_mbox_open_append E newfolder st) = -1) /\
  (fails E AtSyncFreopen = false -> fails E AtSyncLock = true ->
     exists st', mbox_mbox_sync E fuel st = Some (-1, st')) /\
  (fails E AtCheckStat = false -> size st < Z.of_nat (length (disk st)) ->
     locked st = false -> fails E AtCheckLock = true ->
     mbox_mbox_check E fuel st = Some (MUTT_LOCKED, log EvSigUnblock (log EvSigBlock st))).
Proof.
  assert (Hz : (r =? 0) = false) by (apply Z.eqb_neq; exact Hr).
  split; [|split; [|split; [|split; [|split; [|split]]]]].
  - unfold mbox_lock_mailbox. rewrite Hz. reflexivity.
  - unfold mbox_lock_mailbox. rewrite Hz. reflexivity.
  - intros excl. unfold mbox_lock_mailbox. rewrite Hz. destruct excl; reflexivity.
  - intros Hf Hl. unfold mbox_mbox_open, mutt_file_lock, mbox_lock_mailbox.
    rewrite Hf, Hl. simpl.
    destruct (parse_by_magic E fuel _) as [[rc st3]|]; reflexivity.
  - intros Hf Hl newfolder. unfold mbox_mbox_open_append, mutt_file_lock, mbox_lock_mailbox.
    rewrite Hf, Hl. simpl. reflexivity.
  - intros Hf Hl. unfold mbox_mbox_sync, mutt_file_lock, mbox_lock_mailbox.
    rewrite Hf, Hl. simpl. unfold sync_bail.
    rewrite unlock_defined by (right; destruct (negb _); eexists; reflexivity).
    cbn [mbind option_bind].
    destruct (fails E AtBailFreopen); eexists; reflexivity.
  - intros Hs Hsize Hlk Hl. unfold mbox_mbox_check. rewrite Hs.
    unfold stat_disk. cbn [st_size st_mtime].
    assert (E1 : (Z.of_nat (length (disk st)) =? size st) = false) by (apply Z.eqb_neq; lia).
    assert (E2 : (size st <? Z.of_nat (length (disk st))) = true) by (apply Z.ltb_lt; lia).
    rewrite E1, E2, andb_false_r, Hlk. simpl.
    unfold mutt_file_lock, mbox_lock_mailbox. rewrite Hl. simpl. reflexivity.
Qed.

(** C3: with the size of the file equal to the size recorded, the check
    answers 0: the context is left as it is when the modification time
    matches too, and only gets the new modification time otherwise.  A
    second check of the same file answers 0 again and changes nothing.  No
    fuel is needed: the parsers are not run. *)
Theorem check_unchanged_twice (fuel : nat) (st : State)
  (Hstat : fails E AtCheckStat = false)
  (Hsize : Z.of_nat (length (disk st)) = size st) :
  let st1 :=
    if timespec_equal (disk_mtime st) (mtime st) then st
    else set_mtime (disk_mtime st) st in
  mbox_mbox_check E fuel st = Some (0, st1) /\
  mbox_mbox_check E fuel st1 = Some (0, st1) /\
  mbox_mbox_check E 0 st = Some (0, st1).
Proof.
  assert (Hone : forall f s, Z.of_nat (length (disk s)) = size s ->
            mbox_mbox_check E f s =
              Some (0, if timespec_equal (disk_mtime s) (mtime s) then s
                       else set_mtime (disk_mtime s) s))
    by (intros f s Hs; apply check_same_size; assumption).
  intros st1. split; [apply Hone; exact Hsize|]. split; [|apply Hone; exact Hsize].
  subst st1. destruct (timespec_equal (disk_mtime st) (mtime st)) eqn:Et.
  - rewrite Hone by exact Hsize. rewrite Et. reflexivity.
  - rewrite Hone by (destruct st; exact Hsize).
    assert (Hrefl : timespec_equal (disk_mtime (set_mtime (disk_mtime st) st))
                      (mtime (set_mtime (disk_mtime st) st)) = true).
    { destruct st; simpl. unfold timespec_equal. rewrite !Z.eqb_refl. reflexivity. }
    rewrite Hrefl. reflexivity.
Qed.

(** *** The sync *)

(** Whether [$sort] is another order than that of the file: the local
    [need_sort] of the sync. *)
Definition need_sort (st : State) : bool := negb (Sort st =? SORT_ORDER E).

(** The mailbox as the sync works on it: under another [$sort] the records
    are first put in the order of the file by [mutt_sort_headers]. *)
Definition sync_sorted (st : State) : State :=
  if need_sort st then set_hdrs (mutt_sort_headers (SORT_ORDER E) false (hdrs st)) st
  else st.

(** What [bail] does to the records [l] before it returns: under another
    [$sort] they are sorted again, in that order. *)
Definition resorted (st : State) (l : list Header) : list Header :=
  if need_sort st then mutt_sort_headers (Sort st) (1 =? MUTT_REOPENED) l else l.

(** The state in which a sync that found the mailbox unchanged starts to
    write; [st] has its records in file order. *)
Definition sync_checked (st : State) : State :=
  let st3 := set_locked true (log EvSigBlock (set_fp (Some 0) st)) in
  if timespec_equal (disk_mtime st) (mtime st) then st3
  else set_mtime (disk_mtime st) st3.

(** A sync that gets to its writing: the mailbox is open (the stream
    handed to [freopen] is not NULL), the [freopen] and the lock succeed,
    and the check finds the file at the size recorded. *)
Definition sync_starts (st : State) : Prop :=
  is_Some (fp st) /\
  fails E AtSyncFreopen = false /\ fails E AtSyncLock = false /\
  fails E AtCheckStat = false /\ Z.of_nat (length (disk st)) = size st.

Lemma sync_sorted_fields (st : State) :
  disk (sync_sorted st) = disk st /\ size (sync_sorted st) = size st /\
  trace (sync_sorted st) = trace st /\ magic (sync_sorted st) = magic st /\
  Sort (sync_sorted st) = Sort st /\ locked (sync_sorted st) = locked st /\
  (need_sort st = false -> sync_sorted st = st).
Proof.
  unfold sync_sorted. destruct (need_sort st); repeat split; discriminate.
Qed.

Lemma sync_reaches_write (fuel : nat) (st : State) :
  sync_starts st ->
  mbox_mbox_sync E fuel st = sync_write E (need_sort st) (sync_checked (sync_sorted st)).
Proof.
  intros (_ & Hf & Hl & Hs & Hsize). unfold mbox_mbox_sync. fold (need_sort st).
  fold (sync_sorted st). rewrite Hf.
  destruct (sync_sorted_fields st) as (Hd & Hz & _).
  unfold mutt_file_lock, mbox_lock_mailbox. rewrite Hl. cbn [Z.eqb].
  rewrite check_same_size by (cbn; congruence). cbn.
  unfold sync_checked. destruct (timespec_equal _ _); reflexivity.
Qed.


Lemma set_hdrs_eta (st : State) : st = set_hdrs (hdrs st) st.
Proof. destruct st; reflexivity. Qed.

(** The copy loop touches nothing but the header store, and logs only when
    it gives up. *)
Lemma sync_copy_loop_frame (n : nat) : forall (i first : nat) (off : Z) (st : State)
    (tmp : list ascii) (new_offset old_offset : list MUpdate),
  match sync_copy_loop E n i first off st tmp new_offset old_offset with
  | inl (st1, _) =>
      exists l, st1 = log (EvUnlink (tempfile E)) (log (EvPerror (tempfile E)) (set_hdrs l st))
  | inr (st1, _, _, _) => exists l, st1 = set_hdrs l st
  end.
Proof.
  induction n as [|n IH]; intros i first off st tmp new_offset old_offset; simpl.
  - exists (hdrs st). apply set_hdrs_eta.
  - destruct (hdrs st !! i) as [h|]; [|exists (hdrs st); apply set_hdrs_eta].
    destruct (deleted h); simpl.
    + apply IH.
    + destruct (is_mmdf (magic st) && fails E (AtSyncFputsLead i)).
      { exists (hdrs st). rewrite <- set_hdrs_eta. reflexivity. }
      destruct (mutt_copy_message_ctx (disk st) h) as [[rc bytes] h'].
      destruct (rc =? 0); simpl; [|eexists; reflexivity].
      destruct (fails E (AtSyncFputsTrail i)); [eexists; reflexivity|].
      match goal with |- context [sync_copy_loop E n ?a ?b ?c ?d ?e ?f ?g] =>
        specialize (IH a b c d e f g);
        destruct (sync_copy_loop E n a b c d e f g) as [[s1 o1]|[[[s1 t1] n1] o1]] end.
      * destruct IH as [l ->]. eexists; reflexivity.
      * destruct IH as [l ->]. eexists; reflexivity.
Qed.

(** Whether the line at the splice offset is a message boundary of the
    mailbox's format: the sanity check before the write-back. *)
Definition boundary_ok (off : Z) (s : State) : bool :=
  match fseeko off s with
  | None => false
  | Some s0 =>
      match fgets_fp 32 s0 with
      | None => false
      | Some (buf, s1) =>
          negb ((is_mbox (magic s1) && negb (starts_with_From buf)) ||
                (is_mmdf (magic s1) && negb (str_equal MMDF_SEP buf)))
      end
  end.

(** The steps of the write-back that can fail. *)
Definition write_back_fails (off : Z) (s : State) : Prop :=
  boundary_ok off s = false \/ copy_stream_stops E <> None \/
  fails E AtSyncFerror = true \/ fails E AtSyncFtello = true \/
  fails E AtSyncFtruncate = true.

Lemma sync_splice_fails (off : Z) (tmp : list ascii) (s : State) :
  write_back_fails off s -> fst (sync_splice E off tmp s) = -1.
Proof.
  unfold write_back_fails, boundary_ok, sync_splice.
  destruct (fseeko off s) as [s0|]; [|reflexivity].
  destruct (fgets_fp 32 s0) as [[buf s1]|]; [|reflexivity].
  destruct ((is_mbox (magic s1) && negb (starts_with_From buf)) ||
            (is_mmdf (magic s1) && negb (str_equal MMDF_SEP buf))); [reflexivity|].
  destruct (fseeko off s1) as [s2|]; [|reflexivity].
  intros [H|[H|[H|[H|H]]]].
  - discriminate.
  - destruct (copy_stream_stops E); [|congruence].
    destruct (fails E AtSyncFerror); reflexivity.
  - rewrite H. reflexivity.
  - destruct (fails E AtSyncFerror); [reflexivity|].
    destruct (copy_stream_stops E); [reflexivity|].
    cbn [Z.eqb]. rewrite H. reflexivity.
  - destruct (fails E AtSyncFerror); [reflexivity|].
    destruct (copy_stream_stops E); [reflexivity|].
    cbn [Z.eqb]. rewrite H, orb_true_r. reflexivity.
Qed.

Lemma fseeko_trace (off : Z) (s s' : State) : fseeko off s = Some s' -> trace s' = trace s.
Proof.
  unfold fseeko. destruct (fp s); [|discriminate].
  destruct (off <? 0); [discriminate|]. intros [= <-]. reflexivity.
Qed.

Lemma fgets_fp_trace (n : nat) (s s' : State) (buf : list ascii) :
  fgets_fp n s = Some (buf, s') -> trace s' = trace s.
Proof.
  unfold fgets_fp. destruct (fp s); [|discriminate]. simpl.
  destruct (fgets n (disk s) z); [|discriminate]. simpl. intros [= _ <-]. reflexivity.
Qed.

(** The write-back logs at most its progress message. *)
Lemma sync_splice_trace (off : Z) (tmp : list ascii) (s : State) :
  exists evs, trace (snd (sync_splice E off tmp s)) = trace s ++ evs /\
    (evs = [] \/ evs = [EvMessage "Committing changes..."]).
Proof.
  unfold sync_splice.
  destruct (fseeko off s) as [s0|] eqn:E0; [|exists []; rewrite app_nil_r; auto].
  apply fseeko_trace in E0.
  destruct (fgets_fp 32 s0) as [[buf s1]|] eqn:E1;
    [|exists []; rewrite app_nil_r; simpl; auto].
  apply fgets_fp_trace in E1.
  destruct ((is_mbox (magic s1) && negb (starts_with_From buf)) ||
            (is_mmdf (magic s1) && negb (str_equal MMDF_SEP buf)));
    [exists []; rewrite app_nil_r; simpl; split; [congruence|auto]|].
  destruct (fseeko off s1) as [s2|] eqn:E2;
    [|exists []; rewrite app_nil_r; simpl; split; [congruence|auto]].
  apply fseeko_trace in E2.
  assert (Ht : trace s2 = trace s) by congruence.
  destruct (quiet s2);
    [exists [] | exists [EvMessage "Committing changes..."]];
    (split; [|auto]);
    destruct (fails E AtSyncFerror); destruct (copy_stream_stops E); cbn [Z.eqb];
    try (destruct (_ || _)); cbn; rewrite ?Ht, ?app_nil_r; reflexivity.
Qed.


Lemma sync_checked_frame (st : State) :
  hdrs (sync_checked st) = hdrs st /\ magic (sync_checked st) = magic st /\
  trace (sync_checked st) = trace st ++ [EvSigBlock] /\
  locked (sync_checked st) = true /\ disk (sync_checked st) = disk st /\
  fp (sync_checked st) = Some 0.
Proof. unfold sync_checked. destruct (timespec_equal _ _); repeat split. Qed.

Lemma unlock_trace (s : State) :
  exists evs, trace (unlocked s) = trace s ++ evs /\
    (evs = [] \/ evs = [EvFileUnlock]).
Proof.
  unfold unlocked. destruct (locked s).
  - exists [EvFileUnlock]. auto.
  - exists []. rewrite app_nil_r. auto.
Qed.

(** The write-back leaves the stream open. *)
Lemma sync_splice_open (off : Z) (tmp : list ascii) (s : State) :
  is_Some (fp s) -> is_Some (fp (snd (sync_splice E off tmp s))).
Proof.
  intros Hs. unfold sync_splice.
  destruct (fseeko off s) as [s0|] eqn:E0; [|exact Hs].
  assert (H0 : is_Some (fp s0)).
  { unfold fseeko in E0. destruct (fp s); [|discriminate].
    destruct (off <? 0); [discriminate|]. injection E0 as <-. eexists; reflexivity. }
  destruct (fgets_fp 32 s0) as [[buf s1]|] eqn:E1; [|exact H0].
  assert (H1 : is_Some (fp s1)).
  { unfold fgets_fp in E1. destruct (fp s0); [|discriminate]. cbn in E1.
    destruct (fgets 32 (disk s0) z); [|discriminate]. injection E1 as _ <-.
    eexists; reflexivity. }
  destruct (_ || _); [exact H1|].
  destruct (fseeko off s1) as [s2|] eqn:E2; [|exact H1].
  destruct (fails E AtSyncFerror); destruct (copy_stream_stops E); cbn [Z.eqb];
    try (destruct (_ || _)); cbn; eexists; reflexivity.
Qed.

(** The bytes offset at which the rewritten region starts. *)
Definition splice_offset (first : nat) (st : State) : Z :=
  default 0 (offset <$> hdrs st !! first) - (if is_mmdf (magic st) then 5 else 0).

(** The run of the copy loop of a sync that found the mailbox unchanged. *)
Definition sync_copied (first : nat) (st : State) :=
  let n := (length (hdrs st) - first)%nat in
  sync_copy_loop E n first first (splice_offset first st) (sync_checked st) []
    (replicate n MUpdate_zero) (replicate n MUpdate_zero).

(** The temporary file was created: [open] and [fdopen] succeeded. *)
Definition temp_created : Prop :=
  fails E AtSyncOpenTemp = false /\ fails E AtSyncFdopen = false.

(** C1, as the code has it: once the temporary file has been written,
    closed, checked with [stat] and opened again for reading, a failure of
    the write-back (the check of the separator at the splice offset, the
    stream copy, [ferror], [ftello], [ftruncate]) or of the close of the
    mailbox makes [mbox_mbox_sync] answer -1 after it renamed the temporary
    file to [savefile], the name under [Tmpdir] made of the user, the host
    and the process id, and reported that name; the temporary file is not
    unlinked on the way.  This holds under every [$sort]: when [$sort] is
    not the order of the file the sync first has [mutt_sort_headers] put
    the records in that order, and the first changed record and the copy
    are those of the records so sorted. *)
Theorem write_back_failure_saves_temp (fuel : nat) (st st1 : State) (first : nat)
  (tmp : list ascii) (new_offset old_offset : list MUpdate)
  (Hstart : sync_starts st)
  (Htemp : temp_created)
  (Hfirst : find_first 0 (hdrs (sync_sorted st)) = Some first)
  (Hcopy : sync_copied first (sync_sorted st) = inr (st1, tmp, new_offset, old_offset))
  (Hclose : fails E AtSyncFcloseTemp = false)
  (Hstat : fails E AtSyncStat = false)
  (Hopen : fails E AtSyncFopenTemp = false)
  (Hfail : write_back_fails (splice_offset first (sync_sorted st)) st1 \/
           fails E AtSyncFcloseMbox = true) :
  exists st' evs,
    mbox_mbox_sync E fuel st = Some (-1, st') /\
    trace st' = trace st ++ evs ++
      [EvRename (tempfile E) (savefile E); EvSigUnblock; EvFastclose;
       EvError ("Write failed!  Saved partial mailbox to " +:+ mutt_pretty_mailbox (savefile E))] /\
    (EvUnlink (tempfile E) ∉ evs) /\
    (forall tmp' s, write_back_fails (splice_offset first (sync_sorted st)) s ->
       fst (sync_splice E (splice_offset first (sync_sorted st)) tmp' s) = -1).
Proof.
  destruct Htemp as [Ht1 Ht2].
  rewrite (sync_reaches_write fuel st Hstart).
  destruct (sync_sorted_fields st) as (_ & _ & Htr0 & _).
  rewrite <- Htr0. set (b := need_sort st). set (s0 := sync_sorted st) in *.
  clearbody s0 b. clear st Hstart Htr0. rename s0 into st.
  destruct (sync_checked_frame st) as (Hh & Hm & Htr & Hlk & Hd & Hfp).
  unfold sync_write.
  rewrite Ht1, Ht2, Hh, Hfirst, Hm.
  unfold sync_copied, splice_offset in *. rewrite Hcopy, Hclose, Hstat, Hopen.
  pose proof (sync_copy_loop_frame (length (hdrs st) - first) first first
    (default 0 (offset <$> hdrs st !! first) - (if is_mmdf (magic st) then 5 else 0))
    (sync_checked st) [] (replicate (length (hdrs st) - first) MUpdate_zero)
    (replicate (length (hdrs st) - first) MUpdate_zero)) as Hframe.
  rewrite Hcopy in Hframe. destruct Hframe as [l Hst1].
  set (off := default 0 (offset <$> hdrs st !! first) - (if is_mmdf (magic st) then 5 else 0)) in *.
  destruct (sync_splice_trace off tmp st1) as (evs1 & Htr1 & Hevs1).
  pose proof (sync_splice_fails off tmp st1) as Hsf.
  assert (Hopen1 : is_Some (fp st1)) by (rewrite Hst1; cbn; rewrite Hfp; eexists; reflexivity).
  pose proof (sync_splice_open off tmp st1 Hopen1) as Hopen2.
  destruct (sync_splice E off tmp st1) as [i st2] eqn:Esp. cbn [fst snd] in *.
  rewrite (unlock_defined st2) by (right; exact Hopen2). cbn [mbind option_bind].
  destruct (unlock_trace st2) as (evs2 & Htr2 & Hevs2).
  assert (Hcond : fails E AtSyncFcloseMbox || (i =? -1) = true).
  { destruct Hfail as [Hw|Hc]; [|rewrite Hc; reflexivity].
    rewrite (Hsf Hw). apply orb_true_r. }
  rewrite Hcond.
  eexists. exists ([EvSigBlock] ++ evs1 ++ evs2). split; [reflexivity|].
  split; [|split].
  - cbn. rewrite Htr2, Htr1, Hst1. cbn. rewrite Htr. rewrite <- !app_assoc. reflexivity.
  - rewrite !elem_of_app. intros [H|[H|H]].
    + apply list_elem_of_singleton in H. discriminate.
    + destruct Hevs1 as [-> | ->]; [inversion H|].
      apply list_elem_of_singleton in H. discriminate.
    + destruct Hevs2 as [-> | ->]; [inversion H|].
      apply list_elem_of_singleton in H. discriminate.
  - intros tmp' s. apply sync_splice_fails.
Qed.


(** *** Rollback *)

Definition same_flags (a b : Header) : Prop :=
  deleted a = deleted b /\ changed a = changed b /\ old a = old b /\
  read a = read b /\ flagged a = flagged b /\ replied a = replied b /\
  purge a = purge b /\ tagged a = tagged b /\ attach_del a = attach_del b.

Definition same_geometry (a b : Header) : Prop :=
  offset a = offset b /\ c_offset a = c_offset b /\ lines a = lines b /\
  c_length a = c_length b.

(** What is assumed of the message copier: it may rewrite the lengths and
    offsets of the record it copies, not its flags. *)
Definition copier_keeps_flags : Prop :=
  forall data h, same_flags h (snd (mutt_copy_message_ctx data h)).

Definition ledger_entry (h : Header) : MUpdate :=
  mkMUpdate true (offset h) (c_offset h) (lines h) (c_length h).

(** The sync itself never writes a flag: the flags of a record are what
    the copier made of them, so they are as they were when the copier
    leaves flags alone. *)
Definition flags_kept (a b : Header) : Prop := copier_keeps_flags -> same_flags a b.

(** The store [l] has the offsets, lengths and line counts of [l0], and its
    flags as far as the copier left them. *)
Definition restored (l0 l : list Header) : Prop :=
  length l = length l0 /\
  forall k h0, l0 !! k = Some h0 ->
    exists h, l !! k = Some h /\ same_geometry h0 h /\ flags_kept h0 h.

(** The ledger while the copy loop runs: the records from [first] up to [m]
    have their entry, which holds their values before the sync; the others
    have none and are as they were. *)
Definition Ledger (l0 : list Header) (first m : nat) (cur : list Header)
  (old_offset : list MUpdate) : Prop :=
  length cur = length l0 /\ (first <= m <= length l0)%nat /\
  forall k h0, l0 !! k = Some h0 ->
    exists hc, cur !! k = Some hc /\ flags_kept h0 hc /\
      ((k < first \/ m <= k)%nat -> hc = h0) /\
      ((first <= k < m)%nat -> old_offset !! (k - first)%nat = Some (ledger_entry h0)) /\
      ((m <= k)%nat -> old_offset !! (k - first)%nat = Some MUpdate_zero).

Lemma same_flags_refl (h : Header) : same_flags h h.
Proof. repeat split. Qed.

Lemma same_flags_trans (a b c : Header) : same_flags a b -> same_flags b c -> same_flags a c.
Proof. unfold same_flags. intuition congruence. Qed.

Lemma flags_kept_refl (h : Header) : flags_kept h h.
Proof. intros _. apply same_flags_refl. Qed.

Lemma flags_kept_trans (a b c : Header) : flags_kept a b -> flags_kept b c -> flags_kept a c.
Proof. intros Hab Hbc Hk. apply same_flags_trans with b; auto. Qed.

Lemma ledger_start (l0 : list Header) (first : nat) :
  (first <= length l0)%nat ->
  Ledger l0 first first l0 (replicate (length l0 - first) MUpdate_zero).
Proof.
  intros Hf. split; [reflexivity|]. split; [lia|].
  intros k h0 Hk. exists h0. split; [exact Hk|]. split; [apply flags_kept_refl|].
  split; [reflexivity|]. split; [lia|].
  intros Hm. apply lookup_replicate_2. apply lookup_lt_Some in Hk. lia.
Qed.

Lemma ledger_advance (l0 : list Header) (first i : nat) (cur : list Header)
  (old_offset : list MUpdate) (h : Header) :
  Ledger l0 first i cur old_offset -> cur !! i = Some h ->
  Ledger l0 first (S i) cur (<[(i - first)%nat := ledger_entry h]> old_offset).
Proof.
  intros (Hlen & Hr & Hall) Hi.
  assert (Hlt : (i < length l0)%nat) by (apply lookup_lt_Some in Hi; lia).
  split; [exact Hlen|]. split; [lia|].
  intros k h0 Hk. destruct (Hall k h0 Hk) as (hc & Hc & Hfl & Hsame & Hin & Hout).
  exists hc. split; [exact Hc|]. split; [exact Hfl|]. split; [intros; apply Hsame; lia|].
  split.
  - intros Hk2. destruct (decide (k = i)) as [->|Hne].
    + assert (hc = h0) by (apply Hsame; lia). subst hc.
      assert (h = h0) by congruence. subst h.
      apply list_lookup_insert_eq.
      assert (is_Some (old_offset !! (i - first)%nat)) as Hs by (rewrite Hout by lia; eauto).
      apply lookup_lt_is_Some in Hs. exact Hs.
    + rewrite list_lookup_insert_ne by lia. apply Hin. lia.
  - intros Hk2. rewrite list_lookup_insert_ne by lia. apply Hout. lia.
Qed.

Lemma ledger_update (l0 : list Header) (first i : nat) (cur : list Header)
  (old_offset : list MUpdate) (h h' : Header) :
  Ledger l0 first (S i) cur old_offset -> (first <= i)%nat ->
  cur !! i = Some h -> flags_kept h h' ->
  Ledger l0 first (S i) (<[i := h']> cur) old_offset.
Proof.
  intros (Hlen & Hr & Hall) Hfi Hi Hfl'.
  split; [rewrite length_insert; exact Hlen|]. split; [lia|].
  intros k h0 Hk. destruct (Hall k h0 Hk) as (hc & Hc & Hfl & Hsame & Hin & Hout).
  destruct (decide (k = i)) as [->|Hne].
  - exists h'. split; [apply list_lookup_insert_eq; apply lookup_lt_Some in Hi; exact Hi|].
    split; [apply flags_kept_trans with hc; [exact Hfl|];
            replace hc with h by congruence; exact Hfl'|].
    split; [intros; lia|]. split; [exact Hin|exact Hout].
  - exists hc. rewrite list_lookup_insert_ne by lia.
    split; [exact Hc|]. split; [exact Hfl|]. split; [exact Hsame|]. split; assumption.
Qed.

Lemma sync_copy_loop_ledger (l0 : list Header) (first : nat) (off : Z) (n : nat) :
  forall (i : nat) (st : State) (tmp : list ascii) (new_offset old_offset : list MUpdate),
  Ledger l0 first i (hdrs st) old_offset -> n = (length l0 - i)%nat ->
  match sync_copy_loop E n i first off st tmp new_offset old_offset with
  | inl (st1, old1) => exists m, Ledger l0 first m (hdrs st1) old1
  | inr (st1, _, _, old1) => Ledger l0 first (length l0) (hdrs st1) old1
  end.
Proof.
  induction n as [|n IH]; intros i st tmp new_offset old_offset HL Hn; simpl.
  - destruct HL as (Hlen & Hr & Hall). assert (i = length l0) by lia. subst i.
    split; [exact Hlen|]. split; [lia|exact Hall].
  - assert (Hlt : (i < length l0)%nat) by lia.
    assert (Hfi : (first <= i)%nat) by (destruct HL as (_ & ? & _); lia).
    destruct (hdrs st !! i) as [h|] eqn:Hi.
    2:{ apply lookup_ge_None in Hi. destruct HL as (Hlen & _). lia. }
    pose proof (ledger_advance _ _ _ _ _ _ HL Hi) as HL1.
    destruct (deleted h); simpl.
    + apply IH; [exact HL1|lia].
    + destruct (is_mmdf (magic st) && fails E (AtSyncFputsLead i)).
      { exists (S i). exact HL1. }
      assert (Hfl : flags_kept h (snd (mutt_copy_message_ctx (disk st) h)))
        by (intros Hkeep; apply Hkeep).
      destruct (mutt_copy_message_ctx (disk st) h) as [[rc bytes] h']. cbn [snd] in Hfl.
      pose proof (ledger_update _ _ _ _ _ _ _ HL1 Hfi Hi Hfl) as HL2.
      destruct (rc =? 0); simpl; [|exists (S i); exact HL2].
      destruct (fails E (AtSyncFputsTrail i)); [exists (S i); exact HL2|].
      apply IH; [exact HL2|lia].
Qed.

Lemma restore_header_geometry (h0 hc : Header) :
  same_geometry h0 (restore_header (ledger_entry h0) hc) /\
  same_flags hc (restore_header (ledger_entry h0) hc).
Proof. repeat split. Qed.

Lemma restore_offsets_ledger (l0 : list Header) (first m : nat) (old_offset : list MUpdate)
  (cur0 : list Header) (HL : Ledger l0 first m cur0 old_offset) (n : nat) :
  forall (i : nat) (cur : list Header),
  n = (length l0 - i)%nat -> (first <= i <= m)%nat -> length cur = length l0 ->
  (forall k h0, l0 !! k = Some h0 ->
     exists hc, cur !! k = Some hc /\ flags_kept h0 hc /\
       ((k < first \/ m <= k)%nat -> hc = h0) /\
       ((first <= k < i)%nat -> same_geometry h0 hc)) ->
  restored l0 (restore_offsets n i first old_offset cur).
Proof.
  destruct HL as (Hlen0 & Hr & Hall0).
  assert (Hdone : forall i cur, (first <= i <= m)%nat -> length cur = length l0 ->
    (i = m \/ i = length l0) ->
    (forall k h0, l0 !! k = Some h0 ->
       exists hc, cur !! k = Some hc /\ flags_kept h0 hc /\
         ((k < first \/ m <= k)%nat -> hc = h0) /\
         ((first <= k < i)%nat -> same_geometry h0 hc)) -> restored l0 cur).
  { intros i cur Hi Hlen Hend Hcur. split; [exact Hlen|].
    intros k h0 Hk. destruct (Hcur k h0 Hk) as (hc & Hc & Hfl & Hsame & Hgeo).
    exists hc. split; [exact Hc|]. split; [|exact Hfl].
    apply lookup_lt_Some in Hk as Hklt.
    destruct (decide (k < first \/ m <= k)%nat) as [Ho|Hi2].
    - rewrite (Hsame Ho). repeat split.
    - apply Hgeo. lia. }
  induction n as [|n IH]; intros i cur Hn Hi Hlen Hcur; simpl.
  - apply (Hdone i cur Hi Hlen); [lia|exact Hcur].
  - assert (Hlt : (i < length l0)%nat) by lia.
    destruct (lookup_lt_is_Some_2 l0 i Hlt) as [h0i Hh0i].
    destruct (Hall0 i h0i Hh0i) as (_ & _ & _ & _ & Hin & Hout).
    destruct (decide (i < m)%nat) as [Him|Him].
    + rewrite Hin by lia. cbn [valid ledger_entry].
      apply IH; [lia|lia|rewrite length_alter; exact Hlen|].
      intros k h0 Hk. destruct (Hcur k h0 Hk) as (hc & Hc & Hfl & Hsame & Hgeo).
      destruct (decide (k = i)) as [->|Hne].
      * assert (h0 = h0i) by congruence. subst h0i.
        exists (restore_header (ledger_entry h0) hc).
        rewrite list_lookup_alter_eq, Hc. split; [reflexivity|].
        destruct (restore_header_geometry h0 hc) as [Hg Hf].
        split; [apply flags_kept_trans with hc; [assumption|intros _; exact Hf]|].
        split; [intros; lia|]. intros _. exact Hg.
      * exists hc. rewrite list_lookup_alter_ne by lia.
        split; [exact Hc|]. split; [exact Hfl|]. split; [exact Hsame|].
        intros Hk2. apply Hgeo. lia.
    + rewrite Hout by lia. cbn [valid MUpdate_zero].
      apply (Hdone i cur Hi Hlen); [lia|exact Hcur].
Qed.

Lemma ledger_restored (l0 : list Header) (first m : nat) (cur : list Header)
  (old_offset : list MUpdate) :
  Ledger l0 first m cur old_offset ->
  restored l0 (restore_offsets (length cur - first) first first old_offset cur).
Proof.
  intros HL. pose proof HL as (Hlen & Hr & Hall).
  rewrite Hlen. apply (restore_offsets_ledger l0 first m old_offset cur HL);
    [reflexivity|lia|exact Hlen|].
  intros k h0 Hk. destruct (Hall k h0 Hk) as (hc & Hc & Hfl & Hsame & _).
  exists hc. split; [exact Hc|]. split; [exact Hfl|]. split; [exact Hsame|]. intros; lia.
Qed.


Lemma find_first_bounds (l : list Header) : forall (i f : nat),
  find_first i l = Some f -> (i <= f < i + length l)%nat.
Proof.
  induction l as [|h l IH]; intros i f; simpl; [discriminate|].
  destruct (negb (deleted h) && negb (changed h) && negb (attach_del h)).
  - intros H. apply IH in H. lia.
  - intros [= <-]. lia.
Qed.

Lemma unlock_frame (s : State) :
  locked (unlocked s) = false /\ hdrs (unlocked s) = hdrs s /\
  disk (unlocked s) = disk s.
Proof. unfold unlocked. destruct (locked s) eqn:El; repeat split; assumption. Qed.

Lemma unlock_fields (s : State) :
  fp (unlocked s) = fp s /\ Sort (unlocked s) = Sort s /\ magic (unlocked s) = magic s /\
  size (unlocked s) = size s /\ readonly (unlocked s) = readonly s.
Proof. unfold unlocked. destruct (locked s); repeat split. Qed.

(** What [sync_bail] leaves of a store under the ledger: the lock is
    released and the file is as it was; when the mailbox can be reopened it
    is open at its start and the records are restored, and sorted again
    when [need_sort] is set; when it cannot, the mailbox is force-closed. *)
Lemma sync_bail_restores (l0 : list Header) (first m : nat) (old_offset : list MUpdate)
  (rc : Z) (b : bool) (s : State) :
  Ledger l0 first m (hdrs s) old_offset -> is_Some (fp s) ->
  exists s',
    sync_bail E rc b (Some first) old_offset s =
      Some (if fails E AtBailFreopen then -1 else rc, s') /\
    locked s' = false /\ disk s' = disk s /\
    (fails E AtBailFreopen = false ->
     fp s' = Some 0 /\
     exists l, restored l0 l /\
       hdrs s' = if b then mutt_sort_headers (Sort s) (1 =? MUTT_REOPENED) l else l) /\
    (fails E AtBailFreopen = true ->
     fp s' = None /\ hdrs s' = [] /\ last (trace s') = Some EvFastclose).
Proof.
  intros HL Hopen. unfold sync_bail.
  set (s1 := set_hdrs (restore_offsets (length (hdrs s) - first) first first old_offset
                         (hdrs s)) s).
  rewrite (unlock_defined s1) by (right; exact Hopen). cbn [mbind option_bind].
  destruct (unlock_frame s1) as (Hl & Hh & Hd).
  destruct (unlock_fields s1) as (_ & Hso & _).
  destruct (fails E AtBailFreopen).
  - eexists. split; [reflexivity|]. cbn. rewrite Hl, Hd.
    split; [reflexivity|]. split; [reflexivity|]. split; [discriminate|]. intros _.
    split; [reflexivity|]. split; [reflexivity|]. apply last_snoc.
  - eexists. split; [reflexivity|].
    split; [destruct b; cbn; exact Hl|]. split; [destruct b; cbn; exact Hd|].
    split; [|discriminate]. intros _. split; [destruct b; reflexivity|].
    exists (restore_offsets (length (hdrs s) - first) first first old_offset (hdrs s)).
    split; [apply (ledger_restored l0 first m); exact HL|].
    destruct b; cbn; rewrite ?Hh, ?Hso; reflexivity.
Qed.

(** C2, as the code has it: a sync that fails while it copies the messages
    to the temporary file, or at the close or the [stat] of that file, goes
    to [bail] and answers -1, with the lock released and the file as it
    was.  When the [freopen] of [bail] succeeds, the file is open again at
    its start and every record has the offset, body offset, line count and
    length it had when the copy started; the sync writes no flag, so the
    flags are what the copier left, unchanged when the copier leaves flags
    alone; under another [$sort] than the order of the file the records
    were put in file order before the copy and are sorted again at the
    end.  When that [freopen] fails, the mailbox is force-closed: the
    records are released and the stream is closed. *)
Theorem rollback_restores_offsets (fuel : nat) (st : State) (first : nat)
  (Hstart : sync_starts st)
  (Htemp : temp_created)
  (Hfirst : find_first 0 (hdrs (sync_sorted st)) = Some first)
  (Hfail : match sync_copied first (sync_sorted st) with
           | inl _ => True
           | inr _ => fails E AtSyncFcloseTemp = true \/ fails E AtSyncStat = true
           end) :
  exists st',
    mbox_mbox_sync E fuel st = Some (-1, st') /\
    locked st' = false /\ disk st' = disk st /\
    (fails E AtBailFreopen = false ->
     fp st' = Some 0 /\
     exists l, restored (hdrs (sync_sorted st)) l /\ hdrs st' = resorted st l) /\
    (fails E AtBailFreopen = true ->
     fp st' = None /\ hdrs st' = [] /\ last (trace st') = Some EvFastclose).
Proof.
  destruct Htemp as [Ht1 Ht2].
  rewrite (sync_reaches_write fuel st Hstart).
  destruct (sync_sorted_fields st) as (Hd0 & _ & _ & _ & Hso0 & _).
  unfold resorted. rewrite <- Hd0, <- Hso0.
  set (b := need_sort st). set (s0 := sync_sorted st) in *.
  clearbody s0 b. clear st Hstart Hd0 Hso0. rename s0 into st.
  destruct (sync_checked_frame st) as (Hh & Hm & Htr & Hlk & Hd & Hfp).
  assert (Hso : Sort (sync_checked st) = Sort st)
    by (unfold sync_checked; destruct (timespec_equal _ _); reflexivity).
  unfold sync_write.
  rewrite Ht1, Ht2, Hh, Hfirst, Hm.
  apply find_first_bounds in Hfirst as Hb.
  unfold sync_copied, splice_offset in Hfail.
  set (off := default 0 (offset <$> hdrs st !! first) - (if is_mmdf (magic st) then 5 else 0)) in *.
  set (n := (length (hdrs st) - first)%nat) in *.
  assert (HL0 : Ledger (hdrs st) first first (hdrs (sync_checked st)) (replicate n MUpdate_zero)).
  { rewrite Hh. apply ledger_start. lia. }
  pose proof (sync_copy_loop_ledger (hdrs st) first off n first (sync_checked st) []
    (replicate n MUpdate_zero) (replicate n MUpdate_zero) HL0 eq_refl) as HL.
  pose proof (sync_copy_loop_frame n first first off (sync_checked st) []
    (replicate n MUpdate_zero) (replicate n MUpdate_zero)) as Hfr.
  assert (Hbail : forall s m old1 l,
    Ledger (hdrs st) first m l old1 ->
    hdrs s = l -> disk s = disk st -> Sort s = Sort st -> fp s = Some 0 ->
    exists st',
      sync_bail E (-1) b (Some first) old1 s = Some (-1, st') /\
      locked st' = false /\ disk st' = disk st /\
      (fails E AtBailFreopen = false ->
       fp st' = Some 0 /\
       exists l', restored (hdrs st) l' /\
         hdrs st' = if b then mutt_sort_headers (Sort st) (1 =? MUTT_REOPENED) l' else l') /\
      (fails E AtBailFreopen = true ->
       fp st' = None /\ hdrs st' = [] /\ last (trace st') = Some EvFastclose)).
  { intros s m old1 l HLl Hhs Hds Hss Hfs.
    destruct (sync_bail_restores (hdrs st) first m old1 (-1) b s)
      as (s' & Hs' & Hl' & Hd' & Hok & Hko);
      [rewrite Hhs; exact HLl|rewrite Hfs; eexists; reflexivity|].
    exists s'. split; [rewrite Hs'; destruct (fails E AtBailFreopen); reflexivity|].
    split; [exact Hl'|]. split; [congruence|]. rewrite <- Hss. split; assumption. }
  destruct (sync_copy_loop E n first first off (sync_checked st) []
    (replicate n MUpdate_zero) (replicate n MUpdate_zero))
    as [[st1 old1]|[[[st1 tmp] new1] old1]].
  - destruct HL as [m HL]. destruct Hfr as [l Hst1].
    apply (Hbail st1 m old1 (hdrs st1) HL eq_refl); rewrite Hst1; cbn; assumption.
  - destruct Hfr as [l Hst1].
    destruct (fails E AtSyncFcloseTemp) eqn:Ec.
    + apply (Hbail (log (EvPerror (tempfile E)) (log (EvUnlink (tempfile E)) st1))
               (length (hdrs st)) old1 (hdrs st1) HL);
        [reflexivity|rewrite Hst1; cbn; assumption..].
    + destruct Hfail as [Hc|Hs]; [discriminate|]. rewrite Hs.
      apply (Hbail (log (EvUnlink (tempfile E)) (log (EvPerror (path E)) st1))
               (length (hdrs st)) old1 (hdrs st1) HL);
        [reflexivity|rewrite Hst1; cbn; assumption..].
Qed.

(** *** Parsing *)

(** [st] with another header store, stream offset and trace: what the loops
    of the parsers may change. *)
Definition reframed (l : list Header) (p : option Z) (t : list Event) (st : State) : State :=
  mkState (magic st) (size st) (readonly st) (quiet st) (mchanged st) l p (locked st)
    (mtime st) (atime st) (index_hint st) (SigInt st) (polls st) (Sort st) (disk st)
    (disk_atime st) (disk_mtime st) t.

Definition frame (st st' : State) : Prop :=
  st' = reframed (hdrs st') (fp st') (trace st') st.

Lemma frame_refl (st : State) : frame st st.
Proof. destruct st; reflexivity. Qed.

Lemma frame_trans (a b c : State) : frame a b -> frame b c -> frame a c.
Proof. unfold frame. intros Hab Hbc. rewrite Hbc, Hab. reflexivity. Qed.

Lemma frame_set_fp (p : option Z) (st : State) : frame st (set_fp p st).
Proof. destruct st; reflexivity. Qed.

Lemma frame_set_hdrs (l : list Header) (st : State) : frame st (set_hdrs l st).
Proof. destruct st; reflexivity. Qed.

Lemma frame_log (e : Event) (st : State) : frame st (log e st).
Proof. destruct st; reflexivity. Qed.

(** Only the stream has moved. *)
Definition moved (st st' : State) : Prop := st' = set_fp (fp st') st.

Lemma moved_refl (st : State) : moved st st.
Proof. destruct st; reflexivity. Qed.

Lemma moved_trans (a b c : State) : moved a b -> moved b c -> moved a c.
Proof. unfold moved. intros Hab Hbc. rewrite Hbc, Hab. reflexivity. Qed.

Lemma moved_set_fp (p : option Z) (st : State) : moved st (set_fp p st).
Proof. reflexivity. Qed.

Lemma moved_frame (st st' : State) : moved st st' -> frame st st'.
Proof. unfold moved, frame. intros H. rewrite H. destruct st; reflexivity. Qed.

Lemma moved_fseeko (off : Z) (st st' : State) : fseeko off st = Some st' -> moved st st'.
Proof.
  unfold fseeko. destruct (fp st); [|discriminate]. destruct (off <? 0); [discriminate|].
  intros [= <-]. apply moved_set_fp.
Qed.

Lemma moved_fseeko_or_stay (off : Z) (st : State) : moved st (fseeko_or_stay off st).
Proof.
  unfold fseeko_or_stay. destruct (fseeko off st) eqn:Ef; simpl.
  - eapply moved_fseeko; eauto.
  - apply moved_refl.
Qed.

Lemma moved_fgets_fp (n : nat) (st st' : State) (buf : list ascii) :
  fgets_fp n st = Some (buf, st') -> moved st st'.
Proof.
  unfold fgets_fp. destruct (fp st); [|discriminate]. simpl.
  destruct (fgets n (disk st) z); [|discriminate]. simpl. intros [= _ <-]. apply moved_set_fp.
Qed.

Lemma moved_fgetc_n (cl : Z) (st : State) : moved st (fgetc_n cl st).
Proof.
  unfold fgetc_n. destruct (fp st); [|apply moved_refl].
  destruct (_ && _); [apply moved_set_fp|apply moved_refl].
Qed.

Ltac moved_tac :=
  repeat first
    [ assumption
    | apply moved_refl
    | (eapply moved_trans; [|apply moved_fseeko_or_stay])
    | (eapply moved_trans; [|apply moved_fgetc_n]) ].

(** What a frame keeps. *)
Lemma frame_fields (st st' : State) :
  frame st st' ->
  magic st' = magic st /\ size st' = size st /\ readonly st' = readonly st /\
  mchanged st' = mchanged st /\ SigInt st' = SigInt st /\ polls st' = polls st /\
  disk st' = disk st /\ locked st' = locked st /\ quiet st' = quiet st.
Proof. intros H. rewrite H. repeat split. Qed.

Lemma moved_hdrs (st st' : State) : moved st st' -> hdrs st' = hdrs st.
Proof. intros H. rewrite H. reflexivity. Qed.

Lemma moved_verify_content_length (st : State) (h : Header) (loc tmploc : Z) :
  moved st (fst (verify_content_length st h loc tmploc)).
Proof.
  unfold verify_content_length.
  destruct ((0 <? tmploc) && (tmploc <? size st)).
  - destruct (fseeko tmploc st) as [st_s|] eqn:Es.
    + apply moved_fseeko in Es.
      destruct (fgets_fp HUGE_STRING st_s) as [[buf st_r]|] eqn:Eg.
      * apply moved_fgets_fp in Eg.
        assert (Hr : moved st st_r) by (eapply moved_trans; eauto).
        destruct (starts_with_From buf); cbn [fst]; [exact Hr|].
        destruct (loc <? 0); moved_tac.
      * cbn [fst]. destruct (loc <? 0); moved_tac.
    + cbn [fst]. destruct (loc <? 0); moved_tac.
  - destruct (negb (tmploc =? size st)); apply moved_refl.
Qed.

Lemma moved_skip_body (st1 : State) (h1 : Header) (loc tmploc : Z) :
  moved st1 (fst (skip_body st1 h1 loc tmploc)).
Proof.
  unfold skip_body. destruct (negb (c_length h1 =? -1)); [|apply moved_refl].
  destruct (lines h1 =? 0); cbn [fst]; [destruct (loc <? 0)|]; moved_tac.
Qed.

Lemma moved_check_content_length (st : State) (h : Header) :
  moved st (fst (check_content_length st h)).
Proof.
  unfold check_content_length. destruct (0 <? c_length h); [|apply moved_refl].
  pose proof (moved_verify_content_length st h (ftello st)
    (if c_length h <? size st then ftello st + c_length h + 1 else -1)) as Hv.
  destruct (verify_content_length st h _ _) as [st1 h1]. cbn [fst] in Hv.
  eapply moved_trans; [exact Hv|apply moved_skip_body].
Qed.

(** A new message closes the record before it, when this run appended one,
    and appends its own. *)
Lemma mbox_new_message_spec (st : State) (rp : string) (t count lines_seen loc : Z) :
  exists h,
    frame st (mbox_new_message st rp t count lines_seen loc) /\
    hdrs (mbox_new_message st rp t count lines_seen loc) =
      (if 0 <? count
       then alter (finish_header loc lines_seen) (length (hdrs st) - 1)%nat (hdrs st)
       else hdrs st) ++ [h].
Proof.
  unfold mbox_new_message.
  set (st1 := if 0 <? count then finish_previous loc lines_seen st else st).
  assert (H1 : frame st st1 /\
    hdrs st1 = if 0 <? count
               then alter (finish_header loc lines_seen) (length (hdrs st) - 1)%nat (hdrs st)
               else hdrs st).
  { subst st1. destruct (0 <? count); [|split; [apply frame_refl|reflexivity]].
    unfold finish_previous. split; [apply frame_set_hdrs|reflexivity]. }
  destruct H1 as [Hf1 Hh1].
  destruct (mutt_rfc822_read_header (disk st1) (ftello st1) _) as [curhdr1 pos].
  pose proof (moved_check_content_length (set_fp (Some pos) st1) curhdr1) as Hm.
  destruct (check_content_length (set_fp (Some pos) st1) curhdr1) as [st3 curhdr2].
  cbn [fst] in Hm. exists (backfill rp curhdr2). split.
  - eapply frame_trans; [exact Hf1|]. eapply frame_trans; [apply (frame_set_fp (Some pos))|].
    eapply frame_trans; [apply moved_frame; exact Hm|]. apply frame_set_hdrs.
  - cbn. rewrite (moved_hdrs _ _ Hm). cbn. rewrite Hh1. reflexivity.
Qed.

(** How the header store grows while the mbox loop runs, with the count of
    the records appended so far. *)
Inductive Grows : list Header -> Z -> list Header -> Z -> Prop :=
  | Grows_refl (l : list Header) (c : Z) : Grows l c l c
  | Grows_step (l : list Header) (c loc lines_seen : Z) (h : Header)
      (l' : list Header) (c' : Z) :
      Grows ((if 0 <? c then alter (finish_header loc lines_seen) (length l - 1)%nat l
              else l) ++ [h]) (c + 1) l' c' ->
      Grows l c l' c'.

(** The signal was found set by the polls between two states. *)
Definition observed (st st' : State) : Prop :=
  SigInt st = 1 \/
  exists n, (polls st <= n < polls st')%nat /\ sig_arrives E n = true.

(** The polls may have changed [SigInt] besides. *)
Definition pframe (st st' : State) : Prop :=
  frame (set_polls (polls st') (set_SigInt (SigInt st') st)) st'.

Lemma pframe_fields (st st' : State) :
  pframe st st' ->
  magic st' = magic st /\ size st' = size st /\ readonly st' = readonly st /\
  mchanged st' = mchanged st /\ disk st' = disk st /\ locked st' = locked st /\
  quiet st' = quiet st.
Proof. intros H. rewrite H. repeat split. Qed.

Lemma frame_pframe (st st' : State) : frame st st' -> pframe st st'.
Proof. unfold pframe, frame. intros H. rewrite H. reflexivity. Qed.

Lemma pframe_trans (a b c : State) : pframe a b -> pframe b c -> pframe a c.
Proof. unfold pframe, frame. intros Hab Hbc. rewrite Hbc, Hab. reflexivity. Qed.

Lemma pframe_poll (st : State) : pframe st (poll_sigint E st).
Proof.
  unfold pframe, frame, poll_sigint. destruct (sig_arrives E (polls st)); destruct st; reflexivity.
Qed.

Lemma poll_sigint_spec (st : State) :
  polls (poll_sigint E st) = S (polls st) /\ hdrs (poll_sigint E st) = hdrs st /\
  fp (poll_sigint E st) = fp st /\
  (SigInt (poll_sigint E st) = 1 <-> SigInt st = 1 \/ sig_arrives E (polls st) = true).
Proof.
  unfold poll_sigint. destruct (sig_arrives E (polls st)); cbn; repeat split; auto.
  - intros [H|H]; [exact H|discriminate].
Qed.

Lemma mbox_parse_loop_spec (fuel : nat) : forall (st : State) (count lines_seen loc : Z)
    (st' : State) (count' lines' : Z),
  mbox_parse_loop E fuel st count lines_seen loc = Some (st', count', lines') ->
  pframe st st' /\ (polls st <= polls st')%nat /\
  (SigInt st' = 1 <-> observed st st') /\
  Grows (hdrs st) count (hdrs st') count'.
Proof.
  induction fuel as [|fuel IH]; intros st count lines_seen loc st' count' lines';
    cbn [mbox_parse_loop]; [discriminate|].
  destruct (fgets_fp HUGE_STRING st) as [[buf st1]|] eqn:Eg.
  2:{ intros Hret; inversion Hret; subst; clear Hret. split; [apply frame_pframe, frame_refl|]. split; [lia|].
      split; [|constructor]. unfold observed. split; [auto|]. intros [H|(n & Hn & _)]; [exact H|lia]. }
  apply moved_fgets_fp in Eg. apply moved_frame in Eg as Hf1.
  destruct (frame_fields _ _ Hf1) as (_ & _ & _ & _ & Hs1 & Hp1 & _).
  destruct (poll_sigint_spec st1) as (Hp2 & Hh2 & _ & Hs2).
  assert (Hpf2 : pframe st (poll_sigint E st1)).
  { eapply pframe_trans; [apply frame_pframe; exact Hf1|apply pframe_poll]. }
  destruct (SigInt (poll_sigint E st1) =? 1) eqn:Esig.
  - intros Hret; inversion Hret; subst; clear Hret. split; [exact Hpf2|]. split; [lia|]. split; [|
      rewrite Hh2, (moved_hdrs _ _ Eg); constructor].
    apply Z.eqb_eq in Esig. split; [|intros _; exact Esig].
    intros _. apply Hs2 in Esig. unfold observed. rewrite Hs1, Hp1 in Esig.
    destruct Esig as [H|H]; [left; exact H|right]. exists (polls st). split; [lia|exact H].
  - apply Z.eqb_neq in Esig.
    assert (Hno : SigInt st <> 1 /\ sig_arrives E (polls st) <> true).
    { rewrite <- Hs1, <- Hp1. split; intros H; apply Esig, Hs2; auto. }
    assert (Hcont : forall st3 c3 l3 loc3,
      frame (poll_sigint E st1) st3 ->
      Grows (hdrs st) count (hdrs st') count' \/ Grows (hdrs st3) c3 (hdrs st') count' ->
      (Grows (hdrs st3) c3 (hdrs st') count' -> Grows (hdrs st) count (hdrs st') count') ->
      mbox_parse_loop E fuel st3 c3 l3 loc3 = Some (st', count', lines') ->
      pframe st st' /\ (polls st <= polls st')%nat /\
      (SigInt st' = 1 <-> observed st st') /\ Grows (hdrs st) count (hdrs st') count').
    { intros st3 c3 l3 loc3 Hf3 _ Hg Hrun.
      destruct (frame_fields _ _ Hf3) as (_ & _ & _ & _ & Hs3 & Hp3 & _).
      destruct (IH _ _ _ _ _ _ _ Hrun) as (Hpf & Hpl & Hsig & Hgr).
      split; [eapply pframe_trans; [exact Hpf2|];
              eapply pframe_trans; [apply frame_pframe; exact Hf3|exact Hpf]|].
      split; [lia|]. split; [|apply Hg; exact Hgr].
      rewrite Hsig. unfold observed. rewrite Hs3, Hp3, Hp2, Hp1. split.
      - intros [H|(n & Hn & Ha)]; [contradiction|]. right. exists n. split; [lia|exact Ha].
      - intros [H|(n & Hn & Ha)]; [destruct Hno; contradiction|].
        right. exists n. split; [|exact Ha].
        destruct (decide (n = polls st)) as [->|Hne]; [destruct Hno; contradiction|lia]. }
    destruct (is_from buf) as [[rp t]|].
    + intros Hrun.
      destruct (mbox_new_message_spec (poll_sigint E st1) rp t count lines_seen loc)
        as (h & Hf3 & Hh3).
      eapply Hcont; [exact Hf3|right| |exact Hrun].
      * destruct (IH _ _ _ _ _ _ _ Hrun) as (_ & _ & _ & Hgr). exact Hgr.
      * intros Hgr. rewrite Hh3, Hh2, (moved_hdrs _ _ Eg) in Hgr.
        eapply Grows_step. exact Hgr.
    + intros Hrun. eapply Hcont; [apply frame_refl|right| |exact Hrun].
      * destruct (IH _ _ _ _ _ _ _ Hrun) as (_ & _ & _ & Hgr). exact Hgr.
      * rewrite Hh2, (moved_hdrs _ _ Eg). auto.
Qed.


Lemma finish_header_nonneg (loc n : Z) (h : Header) : 0 <= c_length (finish_header loc n h).
Proof.
  unfold finish_header.
  assert (H : 0 <= c_length (if c_length h <? 0
                 then set_c_length (if loc - c_offset h - 1 <? 0 then 0
                                    else loc - c_offset h - 1) h else h)).
  { destruct (c_length h <? 0) eqn:El.
    - cbn. destruct (loc - c_offset h - 1 <? 0) eqn:E2; [lia|]. apply Z.ltb_ge in E2. lia.
    - apply Z.ltb_ge in El. exact El. }
  destruct (lines _ =? 0); [cbn|]; exact H.
Qed.

(** A record after the parser closed it: the length and the line count are
    the only fields that may differ. *)
Definition closes (a b : Header) : Prop :=
  b = a \/ exists loc n, b = finish_header loc n a.

Lemma Grows_facts (l : list Header) (c : Z) (l' : list Header) (c' : Z) :
  Grows l c l' c' -> 0 <= c ->
  c <= c' /\ Z.of_nat (length l') = Z.of_nat (length l) + (c' - c) /\
  (forall k, (k + 1 < length l)%nat \/ (c = 0 /\ (k < length l)%nat) -> l' !! k = l !! k) /\
  (forall k h, l' !! k = Some h ->
     (length l <= k + (if (0 <? c)%Z then 1 else 0))%nat -> (k + 1 < length l')%nat ->
     0 <= c_length h) /\
  (forall a, l !! (length l - 1)%nat = Some a ->
     exists b, l' !! (length l - 1)%nat = Some b /\ closes a b).
Proof.
  induction 1 as [l c|l c loc n h l' c' Hg IH]; intros Hc.
  - split; [lia|]. split; [lia|]. split; [auto|]. split.
    + intros k h Hk H1 H2. destruct (0 <? c); lia.
    + intros a Ha. exists a. split; [exact Ha|left; reflexivity].
  - destruct IH as (Hcc & Hlen & Hsame & Hnn & Hlast); [lia|].
    set (l1 := if 0 <? c then alter (finish_header loc n) (length l - 1)%nat l else l) in *.
    assert (Hl1 : length l1 = length l).
    { subst l1. destruct (0 <? c); [apply length_alter|reflexivity]. }
    rewrite length_app, Hl1 in *. cbn [length] in *.
    assert (Hc1 : (0 <? c + 1) = true) by (apply Z.ltb_lt; lia). rewrite Hc1 in Hnn.
    assert (Hpre : forall k, (k < length l)%nat -> l' !! k = l1 !! k).
    { intros k Hk. rewrite Hsame by (left; lia). apply lookup_app_l. lia. }
    split; [lia|]. split; [lia|]. split; [|split].
    + intros k Hk. rewrite Hpre by lia. subst l1.
      destruct (0 <? c) eqn:E0; [|reflexivity].
      apply list_lookup_alter_ne. apply Z.ltb_lt in E0. lia.
    + intros k h0 Hk H1 H2.
      destruct (decide (length l <= k)%nat) as [Hge|Hlt]; [apply (Hnn k h0 Hk); lia|].
      destruct (0 <? c) eqn:E0; [|lia].
      assert (k = (length l - 1)%nat) by lia. subst k.
      rewrite Hpre in Hk by lia. subst l1. rewrite list_lookup_alter_eq in Hk.
      destruct (l !! (length l - 1)%nat) as [a|]; [|discriminate].
      cbn in Hk. injection Hk as <-. apply finish_header_nonneg.
    + intros a Ha. apply lookup_lt_Some in Ha as Hlt.
      rewrite Hpre by lia. subst l1. destruct (0 <? c).
      * rewrite list_lookup_alter_eq, Ha. cbn. eexists. split; [reflexivity|].
        right. eauto.
      * exists a. split; [exact Ha|left; reflexivity].
Qed.

(** What [mbox_parse_mailbox] answers and leaves when its [stat] succeeds. *)
Lemma mbox_parse_mailbox_spec (fuel : nat) (st : State) (rc : Z) (st' : State) :
  fails E AtParseStat = false ->
  mbox_parse_mailbox E fuel st = Some (rc, st') ->
  (rc = -2 \/ rc = 0) /\ (rc = -2 <-> observed st st') /\ (rc = -2 -> SigInt st' = 0) /\
  take (length (hdrs st)) (hdrs st') = hdrs st /\
  (forall k h, (length (hdrs st) <= k)%nat -> hdrs st' !! k = Some h -> 0 <= c_length h) /\
  mchanged st' = mchanged st /\ disk st' = disk st /\ magic st' = magic st /\
  (readonly st = true -> readonly st' = true).
Proof.
  intros Hstat. unfold mbox_parse_mailbox. rewrite Hstat.
  set (st1 := set_atime _ (set_mtime _ (set_size _ st))).
  set (st2 := if negb (readonly st1) then set_readonly (fails E AtAccess) st1 else st1).
  assert (H2 : hdrs st2 = hdrs st /\ SigInt st2 = SigInt st /\ polls st2 = polls st /\
               mchanged st2 = mchanged st /\ disk st2 = disk st /\ magic st2 = magic st /\
               (readonly st = true -> readonly st2 = true)).
  { subst st2 st1. cbn. destruct (readonly st) eqn:Er; cbn;
      (split; [|split; [|split; [|split; [|split; [|split]]]]]);
      first [reflexivity | exact Er | intros; congruence]. }
  destruct H2 as (Hh2 & Hs2 & Hp2 & Hm2 & Hd2 & Hg2 & Hr2).
  destruct (mbox_parse_loop E fuel st2 0 0 (ftello st2)) as [[[st3 count] lines_seen]|] eqn:El;
    [|discriminate]. cbn [mbind option_bind].
  destruct (mbox_parse_loop_spec _ _ _ _ _ _ _ _ El) as (Hpf & Hpl & Hsig & Hgr).
  destruct (pframe_fields _ _ Hpf) as (Hg3 & _ & Hr3 & Hm3 & Hd3 & _).
  destruct (Grows_facts _ _ _ _ Hgr) as (Hcc & Hlen & Hsame & Hnn & _); [lia|].
  set (st4 := if 0 <? count then finish_previous (ftello st3) lines_seen st3 else st3).
  assert (H4 : pframe st3 st4 /\ SigInt st4 = SigInt st3 /\ polls st4 = polls st3 /\
    hdrs st4 = if 0 <? count
               then alter (finish_header (ftello st3) lines_seen) (length (hdrs st3) - 1)%nat (hdrs st3)
               else hdrs st3).
  { subst st4. destruct (0 <? count); [|split; [apply frame_pframe, frame_refl|auto]].
    unfold finish_previous. split; [apply frame_pframe, frame_set_hdrs|auto]. }
  destruct H4 as (Hpf4 & Hs4 & Hp4 & Hh4).
  destruct (pframe_fields _ _ Hpf4) as (Hg4 & _ & Hr4 & Hm4 & Hd4 & _).
  destruct (poll_sigint_spec st4) as (Hp5 & Hh5 & _ & Hs5).
  pose proof (pframe_poll st4) as Hpf5.
  destruct (pframe_fields _ _ Hpf5) as (Hg5 & _ & Hr5 & Hm5 & Hd5 & _).
  assert (Hobs : SigInt (poll_sigint E st4) = 1 <-> observed st (poll_sigint E st4)).
  { rewrite Hs5, Hs4, Hp4, Hsig. unfold observed. rewrite Hs2, Hp2, Hp5, Hp4. split.
    - intros [[H|(n & Hn & Ha)]|Ha]; [left; exact H|right; exists n; split; [lia|exact Ha]|].
      right. exists (polls st3). split; [lia|exact Ha].
    - intros [H|(n & Hn & Ha)]; [left; left; exact H|].
      destruct (decide (n = polls st3)) as [->|Hne]; [right; exact Ha|].
      left. right. exists n. split; [lia|exact Ha]. }
  assert (Hstore : take (length (hdrs st)) (hdrs (poll_sigint E st4)) = hdrs st /\
    forall k h, (length (hdrs st) <= k)%nat -> hdrs (poll_sigint E st4) !! k = Some h ->
      0 <= c_length h).
  { rewrite Hh5, Hh4. rewrite Hh2 in *. split.
    - apply list_eq. intros k. destruct (decide (k < length (hdrs st))%nat) as [Hk|Hk].
      + rewrite lookup_take_lt by lia. destruct (0 <? count) eqn:E0.
        * rewrite list_lookup_alter_ne; [apply Hsame; right; split; [reflexivity|lia]|].
          apply Z.ltb_lt in E0. lia.
        * apply Hsame. right. split; [reflexivity|lia].
      + rewrite lookup_take_ge by lia. symmetry. apply lookup_ge_None. lia.
    - intros k h Hk Hl. destruct (0 <? count) eqn:E0.
      + destruct (decide (k = (length (hdrs st3) - 1)%nat)) as [->|Hne].
        * rewrite list_lookup_alter_eq in Hl.
          destruct (hdrs st3 !! (length (hdrs st3) - 1)%nat); [|discriminate].
          cbn in Hl. injection Hl as <-. apply finish_header_nonneg.
        * rewrite list_lookup_alter_ne in Hl by congruence.
          apply lookup_lt_Some in Hl as Hlt. apply (Hnn k h Hl); cbn; lia.
      + apply Z.ltb_ge in E0. apply lookup_lt_Some in Hl. lia. }
  destruct Hstore as [Htake Hnonneg].
  assert (Hrest : mchanged (poll_sigint E st4) = mchanged st /\
                  disk (poll_sigint E st4) = disk st /\ magic (poll_sigint E st4) = magic st /\
                  (readonly st = true -> readonly (poll_sigint E st4) = true)).
  { rewrite Hm5, Hm4, Hm3, Hd5, Hd4, Hd3, Hg5, Hg4, Hg3, Hr5, Hr4, Hr3. auto. }
  destruct (SigInt (poll_sigint E st4) =? 1) eqn:Esig; intros Hret; inversion Hret; subst; clear Hret.
  - apply Z.eqb_eq in Esig. split; [left; reflexivity|].
    split; [split; [intros _; apply Hobs in Esig; exact Esig|reflexivity]|].
    split; [reflexivity|]. split; [exact Htake|]. split; [exact Hnonneg|exact Hrest].
  - apply Z.eqb_neq in Esig. split; [right; reflexivity|].
    split; [split; [discriminate|intros Ho; apply Hobs in Ho; contradiction]|].
    split; [discriminate|]. split; [exact Htake|]. split; [exact Hnonneg|exact Hrest].
Qed.


(** *** Termination *)

(** What is assumed of the header parser for the loops to end: it leaves the
    stream at or after the offset where it started. *)
Definition reader_advances : Prop :=
  forall data pos h, pos <= snd (mutt_rfc822_read_header data pos h).

(** The stream is open at or after [loc]. *)
Definition at_or_after (loc : Z) (st : State) : Prop :=
  exists q, fp st = Some q /\ loc <= q.

Lemma read_line_length (k : nat) (l : list ascii) :
  (length (read_line k l) <= length l)%nat /\
  ((0 < k)%nat -> l <> [] -> (0 < length (read_line k l))%nat).
Proof.
  revert l. induction k as [|k IH]; intros l; simpl.
  - split; [lia|intros; lia].
  - destruct l as [|c rest]; [split; [simpl; lia|congruence]|].
    destruct (Ascii.eqb c nl); simpl; [split; [lia|intros; lia]|].
    destruct (IH rest) as [H1 _]. split; [lia|intros; lia].
Qed.

Lemma fgets_advances (n : nat) (data : list ascii) (pos pos' : Z) (buf : list ascii) :
  (2 <= n)%nat -> fgets n data pos = Some (buf, pos') ->
  pos < pos' <= Z.of_nat (length data).
Proof.
  intros Hn. unfold fgets.
  destruct ((pos <? 0) || (Z.of_nat (length data) <=? pos)) eqn:Ec; [discriminate|].
  apply orb_false_elim in Ec as [E1 E2]. apply Z.ltb_ge in E1. apply Z.leb_gt in E2.
  intros [= <- <-].
  destruct (read_line_length (n - 1) (drop (Z.to_nat pos) data)) as [H1 H2].
  rewrite length_drop in H1.
  assert (Hne : drop (Z.to_nat pos) data <> []).
  { intros Hd. apply (f_equal length) in Hd. rewrite length_drop in Hd. simpl in Hd. lia. }
  specialize (H2 ltac:(lia) Hne). lia.
Qed.

Lemma fgets_none (n : nat) (data : list ascii) (pos : Z) :
  fgets n data pos = None -> pos < 0 \/ Z.of_nat (length data) <= pos.
Proof.
  unfold fgets. destruct ((pos <? 0) || (Z.of_nat (length data) <=? pos)) eqn:Ec; [|discriminate].
  intros _. apply orb_true_iff in Ec as [Ec|Ec]; [left; apply Z.ltb_lt in Ec|right; apply Z.leb_le in Ec]; lia.
Qed.

Lemma HUGE_STRING_large : (3 <= HUGE_STRING)%nat.
Proof. unfold HUGE_STRING. lia. Qed.

Lemma fgets_fp_advances (n : nat) (st st' : State) (buf : list ascii) (p : Z) :
  (2 <= n)%nat -> fp st = Some p -> fgets_fp n st = Some (buf, st') ->
  exists q, fp st' = Some q /\ p < q <= Z.of_nat (length (disk st)).
Proof.
  intros Hn Hp. unfold fgets_fp. rewrite Hp. simpl.
  destruct (fgets n (disk st) p) as [[b q]|] eqn:Eg; [|discriminate].
  simpl. intros [= <- <-]. exists q. split; [reflexivity|].
  eapply fgets_advances; eauto.
Qed.

Lemma at_or_after_fseeko_or_stay (loc off : Z) (st : State) :
  at_or_after loc st -> loc <= off -> at_or_after loc (fseeko_or_stay off st).
Proof.
  intros (q & Hq & Hle) Hoff. unfold fseeko_or_stay, fseeko. rewrite Hq.
  destruct (off <? 0); simpl; [exists q; auto|]. exists off. auto.
Qed.

Lemma at_or_after_fgetc_n (loc cl : Z) (st : State) :
  at_or_after loc st -> at_or_after loc (fgetc_n cl st).
Proof.
  intros (q & Hq & Hle). unfold fgetc_n. rewrite Hq.
  destruct ((0 <? cl) && (0 <=? q) && (q <? Z.of_nat (length (disk st)))) eqn:Ec;
    [|exists q; auto].
  apply andb_true_iff in Ec as [Ec E3]. apply andb_true_iff in Ec as [E1 E2].
  apply Z.ltb_lt in E1, E3. eexists. split; [reflexivity|]. lia.
Qed.

Lemma at_or_after_weaken (a b : Z) (st : State) : a <= b -> at_or_after b st -> at_or_after a st.
Proof. intros Hab (q & Hq & Hle). exists q. split; [exact Hq|lia]. Qed.

Lemma ftello_fp (st : State) (p : Z) : fp st = Some p -> ftello st = p.
Proof. unfold ftello. intros ->. reflexivity. Qed.

Lemma verify_content_length_forward (st : State) (h : Header) (loc tmploc : Z) :
  fp st = Some loc -> 0 <= loc -> tmploc < 0 \/ loc <= tmploc ->
  at_or_after loc (fst (verify_content_length st h loc tmploc)).
Proof.
  intros Hfp Hloc Htmp.
  assert (H0 : at_or_after loc st) by (exists loc; split; [exact Hfp|lia]).
  assert (Hbad : forall s, fp s <> None ->
            at_or_after loc (if loc <? 0 then s else fseeko_or_stay loc s)).
  { intros s Hs. destruct (loc <? 0) eqn:El; [apply Z.ltb_lt in El; lia|].
    unfold fseeko_or_stay, fseeko. destruct (fp s); [|congruence]. rewrite El. simpl.
    exists loc. split; [reflexivity|lia]. }
  unfold verify_content_length.
  destruct ((0 <? tmploc) && (tmploc <? size st)) eqn:Ec.
  - apply andb_true_iff in Ec as [E1 E2]. apply Z.ltb_lt in E1.
    assert (Hge : loc <= tmploc) by lia.
    unfold fseeko at 1. rewrite Hfp.
    destruct (tmploc <? 0) eqn:En; [apply Z.ltb_lt in En; lia|].
    destruct (fgets_fp HUGE_STRING (set_fp (Some tmploc) st)) as [[buf st_r]|] eqn:Eg.
    + pose proof HUGE_STRING_large as HH.
      destruct (fgets_fp_advances HUGE_STRING (set_fp (Some tmploc) st) st_r buf tmploc
                  ltac:(lia) eq_refl Eg) as (q & Hq & Hlt).
      destruct (starts_with_From buf); cbn [fst].
      * exists q. split; [exact Hq|lia].
      * apply Hbad. congruence.
    + cbn [fst]. apply Hbad. cbn. congruence.
  - destruct (negb (tmploc =? size st)); exact H0.
Qed.

Lemma skip_body_forward (st1 : State) (h1 : Header) (loc tmploc : Z) :
  0 <= loc -> tmploc < 0 \/ loc <= tmploc ->
  at_or_after loc st1 -> at_or_after loc (fst (skip_body st1 h1 loc tmploc)).
Proof.
  intros Hloc Htmp Hs1. unfold skip_body.
  destruct (negb (c_length h1 =? -1)); [|exact Hs1].
  assert (Hend : forall s, at_or_after loc s -> at_or_after loc (fseeko_or_stay tmploc s)).
  { intros s Hs. destruct Htmp as [Hneg|Hge]; [|apply at_or_after_fseeko_or_stay; assumption].
    destruct Hs as (q & Hq & Hle). unfold fseeko_or_stay, fseeko. rewrite Hq.
    apply Z.ltb_lt in Hneg. rewrite Hneg. simpl. exists q. auto. }
  destruct (lines h1 =? 0); cbn [fst]; apply Hend; [|exact Hs1].
  apply at_or_after_fgetc_n.
  destruct (loc <? 0); [exact Hs1|]. apply at_or_after_fseeko_or_stay; [exact Hs1|lia].
Qed.

Lemma check_content_length_forward (st : State) (h : Header) (loc : Z) :
  fp st = Some loc -> 0 <= loc -> at_or_after loc (fst (check_content_length st h)).
Proof.
  intros Hfp Hloc.
  unfold check_content_length.
  destruct (0 <? c_length h) eqn:Elen; [|exists loc; split; [exact Hfp|lia]].
  apply Z.ltb_lt in Elen. rewrite (ftello_fp _ _ Hfp).
  set (tmploc := if c_length h <? size st then loc + c_length h + 1 else -1).
  assert (Htmp : tmploc < 0 \/ loc <= tmploc).
  { subst tmploc. destruct (c_length h <? size st); lia. }
  pose proof (verify_content_length_forward st h loc tmploc Hfp Hloc Htmp) as Hv.
  destruct (verify_content_length st h loc tmploc) as [st1 h1]. cbn [fst] in Hv.
  apply skip_body_forward; assumption.
Qed.

Lemma mbox_new_message_forward (Hadv : reader_advances) (st : State) (rp : string)
  (t count lines_seen loc p : Z) :
  fp st = Some p -> 0 <= p ->
  at_or_after p (mbox_new_message st rp t count lines_seen loc).
Proof.
  intros Hfp Hp. unfold mbox_new_message.
  set (st1 := if 0 <? count then finish_previous loc lines_seen st else st).
  assert (Hfp1 : fp st1 = Some p /\ disk st1 = disk st).
  { subst st1. destruct (0 <? count); [split; [exact Hfp|reflexivity]|auto]. }
  destruct Hfp1 as [Hfp1 Hd1]. rewrite (ftello_fp _ _ Hfp1).
  pose proof (Hadv (disk st1) p
    (set_index (Z.of_nat (length (hdrs st1)))
       (set_offset loc (set_received (t - mutt_date_local_tz t) mutt_header_new)))) as Hpos.
  destruct (mutt_rfc822_read_header (disk st1) p _) as [curhdr1 pos]. cbn [snd] in Hpos.
  pose proof (check_content_length_forward (set_fp (Some pos) st1) curhdr1 pos eq_refl
    ltac:(lia)) as Hfw.
  destruct (check_content_length (set_fp (Some pos) st1) curhdr1) as [st3 curhdr2].
  cbn [fst] in Hfw. destruct Hfw as (q & Hq & Hle). exists q. split; [exact Hq|lia].
Qed.

(** With a header parser that does not go backwards, the mbox loop ends
    within as many rounds as bytes are left in the file, plus one. *)
Lemma mbox_parse_loop_terminates (Hadv : reader_advances) (fuel : nat) :
  forall (st : State) (count lines_seen loc p : Z),
  fp st = Some p -> 0 <= p ->
  (Z.to_nat (Z.of_nat (length (disk st)) - p) < fuel)%nat ->
  exists r, mbox_parse_loop E fuel st count lines_seen loc = Some r.
Proof.
  induction fuel as [|fuel IH]; intros st count lines_seen loc p Hfp Hp Hfuel; [lia|].
  cbn [mbox_parse_loop].
  destruct (fgets_fp HUGE_STRING st) as [[buf st1]|] eqn:Eg; [|eauto].
  pose proof HUGE_STRING_large as HH.
  destruct (fgets_fp_advances HUGE_STRING _ _ buf p ltac:(lia) Hfp Eg) as (q & Hq & Hlt).
  apply moved_fgets_fp in Eg. apply moved_frame in Eg.
  destruct (frame_fields _ _ Eg) as (_ & _ & _ & _ & _ & _ & Hd1 & _).
  destruct (poll_sigint_spec st1) as (_ & _ & Hfp2 & _).
  destruct (pframe_fields _ _ (pframe_poll st1)) as (_ & _ & _ & _ & Hd2 & _).
  destruct (SigInt (poll_sigint E st1) =? 1); [eauto|].
  destruct (is_from buf) as [[rp t]|].
  - destruct (mbox_new_message_forward Hadv (poll_sigint E st1) rp t count lines_seen loc q)
      as (q' & Hq' & Hle); [congruence|lia|].
    destruct (mbox_new_message_spec (poll_sigint E st1) rp t count lines_seen loc)
      as (h & Hf3 & _).
    destruct (frame_fields _ _ Hf3) as (_ & _ & _ & _ & _ & _ & Hd3 & _).
    eapply IH; [exact Hq'|lia|]. rewrite Hd3, Hd2, Hd1. lia.
  - eapply IH; [rewrite Hfp2; exact Hq|lia|]. rewrite Hd2, Hd1. lia.
Qed.

Lemma mbox_parse_mailbox_terminates (Hadv : reader_advances) (st : State) (p : Z) :
  fp st = Some p -> 0 <= p ->
  exists r, mbox_parse_mailbox E (S (length (disk st))) st = Some r.
Proof.
  intros Hfp Hp. unfold mbox_parse_mailbox.
  destruct (fails E AtParseStat); [eauto|].
  set (st1 := set_atime _ (set_mtime _ (set_size _ st))).
  set (st2 := if negb (readonly st1) then set_readonly (fails E AtAccess) st1 else st1).
  assert (H2 : fp st2 = Some p /\ disk st2 = disk st).
  { subst st2 st1. destruct (negb _); split; assumption || reflexivity. }
  destruct H2 as [Hfp2 Hd2].
  destruct (mbox_parse_loop_terminates Hadv (S (length (disk st))) st2 0 0 (ftello st2) p Hfp2 Hp)
    as [[[st3 count] lines_seen] Hr]; [rewrite Hd2; lia|].
  rewrite Hr. cbn [mbind option_bind].
  destruct (SigInt _ =? 1); eauto.
Qed.


(** *** The MMDF parser *)

Lemma mmdf_scan_spec (fuel : nat) : forall (st : State) (n : Z) (st' : State) (n' loc : Z),
  mmdf_scan fuel st n = Some (Some (st', n', loc)) -> moved st st'.
Proof.
  induction fuel as [|fuel IH]; intros st n st' n' loc; cbn [mmdf_scan]; [discriminate|].
  destruct (ftello st <? 0); [discriminate|].
  destruct (fgets_fp (HUGE_STRING - 1) st) as [[buf st1]|] eqn:Eg.
  - apply moved_fgets_fp in Eg. destruct (str_equal buf MMDF_SEP).
    + intros Hret; inversion Hret; subst; clear Hret. exact Eg.
    + intros Hrun. eapply moved_trans; [exact Eg|]. eapply IH; eauto.
  - intros Hret; inversion Hret; subst; clear Hret. apply moved_refl.
Qed.

Lemma moved_mmdf_check_content_length (st : State) (h : Header) (loc : Z) :
  moved st (fst (mmdf_check_content_length st h loc)).
Proof.
  unfold mmdf_check_content_length.
  destruct ((0 <? c_length h) && (0 <? lines h)); [|apply moved_refl].
  destruct ((0 <? loc + c_length h) && (loc + c_length h <? size st)); [|apply moved_refl].
  destruct (fseeko (loc + c_length h) st) as [st_s|] eqn:Es; [|cbn [fst]; moved_tac].
  apply moved_fseeko in Es.
  destruct (fgets_fp (HUGE_STRING - 1) st_s) as [[buf st_r]|] eqn:Eg; [|cbn [fst]; moved_tac].
  apply moved_fgets_fp in Eg.
  assert (Hr : moved st st_r) by (eapply moved_trans; eauto).
  destruct (str_equal MMDF_SEP buf); cbn [fst]; moved_tac.
Qed.

(** What one message does to the store: nothing, when the loop ends with
    it; one record more, when it goes on. *)
Lemma mmdf_message_spec (fuel : nat) (st : State) (r : LoopEnd + State) :
  mmdf_message fuel st = Some r ->
  match r with
  | inl (Returned rc s) => rc = -1 /\ frame st s /\ hdrs s = hdrs st
  | inl (Broke s) => s = st
  | inr s => frame st s /\ exists h, hdrs s = hdrs st ++ [h]
  end.
Proof.
  unfold mmdf_message.
  destruct (ftello st <? 0).
  { intros [= <-]. split; [reflexivity|]. split; [apply frame_refl|reflexivity]. }
  destruct (fgets_fp (HUGE_STRING - 1) st) as [[buf st1]|] eqn:Eg; [|intros [= <-]; reflexivity].
  apply moved_fgets_fp in Eg.
  set (hdr := set_index _ (set_offset (ftello st) mutt_header_new)).
  set (positioned := match is_from buf with
                     | Some (rp, t) => _
                     | None => _ end).
  assert (Hpos : match positioned with
                 | Some (st2, _, _) => moved st st2
                 | None => True end).
  { subst positioned. destruct (is_from buf) as [[rp t]|]; [exact Eg|].
    destruct (fseeko (ftello st) st1) as [s|] eqn:Es; cbn; [|exact I].
    eapply moved_trans; [exact Eg|]. eapply moved_fseeko; eauto. }
  destruct positioned as [[[st2 hdr1] rp]|].
  2:{ intros [= <-]. split; [reflexivity|].
      split; [eapply frame_trans; [apply moved_frame; exact Eg|apply frame_log]|].
      cbn. apply (moved_hdrs _ _ Eg). }
  destruct (mutt_rfc822_read_header (disk st2) (ftello st2) hdr1) as [hdr2 pos].
  set (st3 := set_fp (Some pos) st2).
  assert (H3 : moved st st3) by (eapply moved_trans; [exact Hpos|apply moved_set_fp]).
  destruct (ftello st3 <? 0).
  { intros [= <-]. split; [reflexivity|]. split; [apply moved_frame; exact H3|].
    apply (moved_hdrs _ _ H3). }
  pose proof (moved_mmdf_check_content_length st3 hdr2 (ftello st3)) as Hc.
  destruct (mmdf_check_content_length st3 hdr2 (ftello st3)) as [st4 hdr3]. cbn [fst] in Hc.
  assert (H4 : moved st st4) by (eapply moved_trans; eauto).
  destruct (c_length hdr3 <? 0).
  - destruct (mmdf_scan fuel st4 (-1)) as [[[[st5 lines_seen] loc3]|]|] eqn:Escan;
      cbn [mbind option_bind]; [| |discriminate].
    + apply mmdf_scan_spec in Escan.
      assert (H5 : moved st st5) by (eapply moved_trans; eauto).
      intros [= <-]. split.
      * eapply frame_trans; [apply moved_frame; exact H5|apply frame_set_hdrs].
      * eexists. cbn. rewrite (moved_hdrs _ _ H5). reflexivity.
    + intros [= <-]. split; [reflexivity|]. split; [apply moved_frame; exact H4|].
      apply (moved_hdrs _ _ H4).
  - intros [= <-]. split.
    + eapply frame_trans; [apply moved_frame; exact H4|apply frame_set_hdrs].
    + eexists. cbn. rewrite (moved_hdrs _ _ H4). reflexivity.
Qed.

Definition end_state (e : LoopEnd) : State :=
  match e with Returned _ s => s | Broke s => s end.

Lemma mmdf_parse_loop_spec (fuel : nat) : forall (st : State) (e : LoopEnd),
  mmdf_parse_loop E fuel st = Some e ->
  pframe st (end_state e) /\ (polls st <= polls (end_state e))%nat /\
  (SigInt (end_state e) = 1 <-> observed st (end_state e)) /\
  (exists suffix, hdrs (end_state e) = hdrs st ++ suffix) /\
  match e with Returned rc s => rc = -1 /\ SigInt s <> 1 | Broke _ => True end.
Proof.
  induction fuel as [|fuel IH]; intros st e; cbn [mmdf_parse_loop]; [discriminate|].
  assert (Hstay : forall s, frame st s -> hdrs s = hdrs st ->
    pframe st s /\ (polls st <= polls s)%nat /\ (SigInt s = 1 <-> observed st s) /\
    (exists suffix, hdrs s = hdrs st ++ suffix)).
  { intros s Hf Hh. destruct (frame_fields _ _ Hf) as (_ & _ & _ & _ & Hs & Hp & _).
    split; [apply frame_pframe; exact Hf|]. split; [lia|]. split.
    - unfold observed. rewrite Hs, Hp. split; [auto|]. intros [H|(n & Hn & _)]; [exact H|lia].
    - exists []. rewrite app_nil_r. exact Hh. }
  destruct (fgets_fp (HUGE_STRING - 1) st) as [[buf st1]|] eqn:Eg.
  2:{ intros [= <-]. cbn [end_state].
      destruct (Hstay st (frame_refl st) eq_refl) as (H1 & H2 & H3 & H4). auto. }
  apply moved_fgets_fp in Eg. apply moved_frame in Eg as Hf1.
  destruct (frame_fields _ _ Hf1) as (_ & _ & _ & _ & Hs1 & Hp1 & _).
  destruct (poll_sigint_spec st1) as (Hp2 & Hh2 & _ & Hs2).
  assert (Hpf2 : pframe st (poll_sigint E st1)).
  { eapply pframe_trans; [apply frame_pframe; exact Hf1|apply pframe_poll]. }
  assert (Hh12 : hdrs (poll_sigint E st1) = hdrs st) by (rewrite Hh2; apply (moved_hdrs _ _ Eg)).
  destruct (SigInt (poll_sigint E st1) =? 1) eqn:Esig.
  - intros [= <-]. cbn [end_state]. split; [exact Hpf2|]. split; [lia|].
    split; [|split; [exists []; rewrite app_nil_r; exact Hh12|exact I]].
    apply Z.eqb_eq in Esig. split; [|intros _; exact Esig].
    intros _. apply Hs2 in Esig. unfold observed. rewrite Hs1, Hp1 in Esig.
    destruct Esig as [H|H]; [left; exact H|right]. exists (polls st). split; [lia|exact H].
  - apply Z.eqb_neq in Esig.
    assert (Hno : SigInt st <> 1 /\ sig_arrives E (polls st) <> true).
    { rewrite <- Hs1, <- Hp1. split; intros H; apply Esig, Hs2; auto. }
    (* a state reached from the poll without further polls *)
    assert (Hafter : forall s, frame (poll_sigint E st1) s ->
      pframe st s /\ (polls st <= polls s)%nat /\ (SigInt s = 1 <-> observed st s) /\
      SigInt s <> 1).
    { intros s Hf. destruct (frame_fields _ _ Hf) as (_ & _ & _ & _ & Hs & Hp & _).
      split; [eapply pframe_trans; [exact Hpf2|apply frame_pframe; exact Hf]|].
      split; [lia|]. split; [|congruence].
      unfold observed. rewrite Hs, Hp, Hp2, Hp1. split; [congruence|].
      intros [H|(n & Hn & Ha)]; [destruct Hno; contradiction|].
      assert (n = polls st) by lia. subst n. destruct Hno; contradiction. }
    destruct (str_equal buf MMDF_SEP).
    2:{ intros [= <-]. cbn [end_state].
        destruct (Hafter _ (frame_log (EvError "Mailbox is corrupt") (poll_sigint E st1)))
          as (H1 & H2 & H3 & H4).
        split; [exact H1|]. split; [exact H2|]. split; [exact H3|].
        split; [exists []; rewrite app_nil_r; exact Hh12|auto]. }
    destruct (mmdf_message fuel (poll_sigint E st1)) as [r|] eqn:Em; [|discriminate].
    cbn [mbind option_bind]. apply mmdf_message_spec in Em.
    destruct r as [[rc s|s]|s].
    + destruct Em as (-> & Hf & Hh). intros [= <-]. cbn [end_state].
      destruct (Hafter s Hf) as (H1 & H2 & H3 & H4).
      split; [exact H1|]. split; [exact H2|]. split; [exact H3|].
      split; [exists []; rewrite app_nil_r; congruence|auto].
    + subst s. intros [= <-]. cbn [end_state].
      destruct (Hafter _ (frame_refl _)) as (H1 & H2 & H3 & H4).
      split; [exact H1|]. split; [exact H2|]. split; [exact H3|].
      split; [exists []; rewrite app_nil_r; exact Hh12|exact I].
    + destruct Em as (Hf & h & Hh). intros Hrun.
      destruct (Hafter s Hf) as (H1 & H2 & H3 & H4).
      destruct (IH _ _ Hrun) as (G1 & G2 & G3 & (suffix & G4) & G5).
      split; [eapply pframe_trans; eauto|]. split; [lia|]. split; [|split].
      * rewrite G3. unfold observed. split.
        -- intros [H|(n & Hn & Ha)]; [contradiction|]. right. exists n. split; [lia|exact Ha].
        -- intros [H|(n & Hn & Ha)]; [destruct Hno; contradiction|].
           destruct (decide (n < polls s)%nat) as [Hlt|Hge].
           ++ exfalso. apply H4, H3. right. exists n. split; [lia|exact Ha].
           ++ right. exists n. split; [lia|exact Ha].
      * exists ([h] ++ suffix). rewrite G4, Hh, Hh12, <- app_assoc. reflexivity.
      * exact G5.
Qed.

Lemma mmdf_parse_mailbox_spec (fuel : nat) (st : State) (rc : Z) (st' : State) :
  fails E AtParseStat = false ->
  mmdf_parse_mailbox E fuel st = Some (rc, st') ->
  (rc = -2 \/ rc = 0 \/ rc = -1) /\ (rc = -2 <-> observed st st') /\
  (rc = -2 -> SigInt st' = 0) /\
  (exists suffix, hdrs st' = hdrs st ++ suffix) /\
  mchanged st' = mchanged st /\ disk st' = disk st /\ magic st' = magic st /\
  readonly st' = readonly st.
Proof.
  intros Hstat. unfold mmdf_parse_mailbox. rewrite Hstat.
  set (st1 := set_size _ (set_mtime _ (set_atime _ st))).
  destruct (mmdf_parse_loop E fuel st1) as [e|] eqn:El; [|discriminate].
  cbn [mbind option_bind].
  destruct (mmdf_parse_loop_spec _ _ _ El) as (Hpf & Hpl & Hsig & Hsuf & Hend).
  destruct (pframe_fields _ _ Hpf) as (Hg & _ & Hr & Hm & Hd & _).
  assert (Hobs1 : forall s, observed st1 s <-> observed st s) by (intros s; reflexivity).
  destruct e as [rc0 s|s]; cbn [end_state] in *.
  - destruct Hend as [-> Hne]. intros [= <- <-].
    split; [auto|]. split; [split; [discriminate|]|].
    { intros Ho. exfalso. apply Hne, Hsig, Hobs1, Ho. }
    split; [discriminate|]. split; [exact Hsuf|]. rewrite Hm, Hd, Hg, Hr. repeat split.
  - destruct (poll_sigint_spec s) as (Hp5 & Hh5 & _ & Hs5).
    destruct (pframe_fields _ _ (pframe_poll s)) as (Hg5 & _ & Hr5 & Hm5 & Hd5 & _).
    assert (Hobs : SigInt (poll_sigint E s) = 1 <-> observed st (poll_sigint E s)).
    { rewrite Hs5, Hsig. unfold observed. rewrite Hp5.
      change (SigInt st1) with (SigInt st). change (polls st1) with (polls st) in *. split.
      - intros [[H|(n & Hn & Ha)]|Ha]; [left; exact H|right; exists n; split; [lia|exact Ha]|].
        right. exists (polls s). split; [lia|exact Ha].
      - intros [H|(n & Hn & Ha)]; [left; left; exact H|].
        destruct (decide (n = polls s)) as [->|Hne]; [right; exact Ha|].
        left. right. exists n. split; [lia|exact Ha]. }
    assert (Hrest : (exists suffix, hdrs (poll_sigint E s) = hdrs st ++ suffix) /\
      mchanged (poll_sigint E s) = mchanged st /\ disk (poll_sigint E s) = disk st /\
      magic (poll_sigint E s) = magic st /\ readonly (poll_sigint E s) = readonly st).
    { rewrite Hh5, Hm5, Hd5, Hg5, Hr5, Hm, Hd, Hg, Hr. split; [exact Hsuf|repeat split]. }
    destruct (SigInt (poll_sigint E s) =? 1) eqn:Esig; intros [= <- <-].
    + apply Z.eqb_eq in Esig. split; [auto|].
      split; [split; [intros _; apply Hobs; exact Esig|reflexivity]|].
      split; [reflexivity|exact Hrest].
    + apply Z.eqb_neq in Esig. split; [auto|].
      split; [split; [discriminate|intros Ho; apply Hobs in Ho; contradiction]|].
      split; [discriminate|exact Hrest].
Qed.


Lemma HUGE_STRING_minus : (2 <= HUGE_STRING - 1)%nat.
Proof. unfold HUGE_STRING. lia. Qed.

Lemma mmdf_scan_terminates (fuel : nat) : forall (st : State) (n p : Z),
  fp st = Some p -> 0 <= p ->
  (Z.to_nat (Z.of_nat (length (disk st)) - p) < fuel)%nat ->
  exists r, mmdf_scan fuel st n = Some r /\
    match r with Some (s, _, _) => at_or_after p s | None => True end.
Proof.
  induction fuel as [|fuel IH]; intros st n p Hfp Hp Hfuel; [lia|].
  cbn [mmdf_scan]. rewrite (ftello_fp _ _ Hfp).
  destruct (p <? 0) eqn:En; [apply Z.ltb_lt in En; lia|].
  destruct (fgets_fp (HUGE_STRING - 1) st) as [[buf st1]|] eqn:Eg.
  - destruct (fgets_fp_advances _ _ _ buf p HUGE_STRING_minus Hfp Eg) as (q & Hq & Hlt).
    apply moved_fgets_fp in Eg.
    assert (Hd : disk st1 = disk st) by (rewrite Eg; reflexivity).
    destruct (str_equal buf MMDF_SEP).
    + eexists. split; [reflexivity|]. exists q. split; [exact Hq|lia].
    + destruct (IH st1 (n + 1) q Hq ltac:(lia) ltac:(rewrite Hd; lia)) as (r & Hr & Hfw).
      exists r. split; [exact Hr|]. destruct r as [[[s ?] ?]|]; [|exact I].
      eapply at_or_after_weaken; [|exact Hfw]. lia.
  - eexists. split; [reflexivity|]. exists p. split; [exact Hfp|lia].
Qed.

Lemma mmdf_check_content_length_forward (st : State) (h : Header) (loc : Z) :
  fp st = Some loc -> 0 <= loc ->
  at_or_after loc (fst (mmdf_check_content_length st h loc)).
Proof.
  intros Hfp Hloc.
  assert (H0 : at_or_after loc st) by (exists loc; split; [exact Hfp|lia]).
  assert (Hbad : forall s, fp s <> None -> at_or_after loc (fseeko_or_stay loc s)).
  { intros s Hs. unfold fseeko_or_stay, fseeko. destruct (fp s); [|congruence].
    destruct (loc <? 0) eqn:El; [apply Z.ltb_lt in El; lia|]. simpl.
    exists loc. split; [reflexivity|lia]. }
  unfold mmdf_check_content_length.
  destruct ((0 <? c_length h) && (0 <? lines h)) eqn:Ec; [|exact H0].
  apply andb_true_iff in Ec as [Ec _]. apply Z.ltb_lt in Ec.
  destruct ((0 <? loc + c_length h) && (loc + c_length h <? size st)); [|exact H0].
  unfold fseeko at 1. rewrite Hfp.
  destruct (loc + c_length h <? 0) eqn:En; [apply Z.ltb_lt in En; lia|].
  destruct (fgets_fp (HUGE_STRING - 1) (set_fp (Some (loc + c_length h)) st))
    as [[buf st_r]|] eqn:Eg.
  - destruct (fgets_fp_advances _ (set_fp (Some (loc + c_length h)) st) st_r buf
                (loc + c_length h) HUGE_STRING_minus eq_refl Eg) as (q & Hq & Hlt).
    destruct (str_equal MMDF_SEP buf); cbn [fst].
    + exists q. split; [exact Hq|lia].
    + apply Hbad. congruence.
  - cbn [fst]. apply Hbad. cbn. congruence.
Qed.

Lemma mmdf_message_terminates (Hadv : reader_advances) (fuel : nat) (st : State) (p : Z) :
  fp st = Some p -> 0 <= p -> p <= Z.of_nat (length (disk st)) ->
  (Z.to_nat (Z.of_nat (length (disk st)) - p) < fuel)%nat ->
  exists r, mmdf_message fuel st = Some r /\
    match r with inr s => at_or_after p s | inl _ => True end.
Proof.
  intros Hfp Hp Hlen Hfuel. unfold mmdf_message. rewrite (ftello_fp _ _ Hfp).
  destruct (p <? 0) eqn:En; [apply Z.ltb_lt in En; lia|].
  destruct (fgets_fp (HUGE_STRING - 1) st) as [[buf st1]|] eqn:Eg;
    [|eexists; split; [reflexivity|exact I]].
  destruct (fgets_fp_advances _ _ _ buf p HUGE_STRING_minus Hfp Eg) as (q & Hq & Hlt).
  apply moved_fgets_fp in Eg.
  set (hdr := set_index _ (set_offset p mutt_header_new)).
  set (positioned := match is_from buf with
                     | Some (rp, t) => _
                     | None => _ end).
  assert (Hpos : match positioned with
                 | Some (st2, _, _) => moved st st2 /\ at_or_after p st2
                 | None => True end).
  { subst positioned. destruct (is_from buf) as [[rp t]|].
    - split; [exact Eg|]. exists q. split; [exact Hq|lia].
    - unfold fseeko. rewrite Hq, En. cbn. split; [|exists p; split; [reflexivity|lia]].
      eapply moved_trans; [exact Eg|apply moved_set_fp]. }
  destruct positioned as [[[st2 hdr1] rp]|]; [|eexists; split; [reflexivity|exact I]].
  destruct Hpos as [Hm2 (q2 & Hq2 & Hle2)]. rewrite (ftello_fp _ _ Hq2).
  pose proof (Hadv (disk st2) q2 hdr1) as Hpos.
  destruct (mutt_rfc822_read_header (disk st2) q2 hdr1) as [hdr2 pos]. cbn [snd] in Hpos.
  rewrite (ftello_fp (set_fp (Some pos) st2) pos eq_refl).
  destruct (pos <? 0) eqn:En3; [apply Z.ltb_lt in En3; lia|].
  pose proof (mmdf_check_content_length_forward (set_fp (Some pos) st2) hdr2 pos eq_refl
    ltac:(lia)) as Hfw.
  pose proof (moved_mmdf_check_content_length (set_fp (Some pos) st2) hdr2 pos) as Hmc.
  destruct (mmdf_check_content_length (set_fp (Some pos) st2) hdr2 pos) as [st4 hdr3].
  cbn [fst] in Hfw, Hmc. destruct Hfw as (q4 & Hq4 & Hle4).
  assert (Hd4 : disk st4 = disk st).
  { rewrite Hmc. cbn. rewrite Hm2. reflexivity. }
  destruct (c_length hdr3 <? 0).
  - destruct (mmdf_scan_terminates fuel st4 (-1) q4 Hq4 ltac:(lia) ltac:(rewrite Hd4; lia))
      as (r & Hr & Hfw).
    rewrite Hr. cbn [mbind option_bind]. destruct r as [[[st5 lines_seen] loc3]|];
      [|eexists; split; [reflexivity|exact I]].
    eexists. split; [reflexivity|]. destruct Hfw as (q5 & Hq5 & Hle5).
    exists q5. split; [exact Hq5|lia].
  - eexists. split; [reflexivity|]. exists q4. split; [exact Hq4|lia].
Qed.

Lemma mmdf_parse_loop_terminates (Hadv : reader_advances) (fuel : nat) :
  forall (st : State) (p : Z),
  fp st = Some p -> 0 <= p ->
  (Z.to_nat (Z.of_nat (length (disk st)) - p) < fuel)%nat ->
  exists e, mmdf_parse_loop E fuel st = Some e.
Proof.
  induction fuel as [|fuel IH]; intros st p Hfp Hp Hfuel; [lia|].
  cbn [mmdf_parse_loop].
  destruct (fgets_fp (HUGE_STRING - 1) st) as [[buf st1]|] eqn:Eg; [|eauto].
  destruct (fgets_fp_advances _ _ _ buf p HUGE_STRING_minus Hfp Eg) as (q & Hq & Hlt).
  apply moved_fgets_fp in Eg.
  assert (Hd1 : disk st1 = disk st) by (rewrite Eg; reflexivity).
  destruct (poll_sigint_spec st1) as (_ & _ & Hfp2 & _).
  destruct (pframe_fields _ _ (pframe_poll st1)) as (_ & _ & _ & _ & Hd2 & _).
  destruct (SigInt (poll_sigint E st1) =? 1); [eauto|].
  destruct (str_equal buf MMDF_SEP); [|eauto].
  destruct (mmdf_message_terminates Hadv fuel (poll_sigint E st1) q) as (r & Hr & Hfw);
    [congruence|lia|rewrite Hd2, Hd1; lia|rewrite Hd2, Hd1; lia|].
  rewrite Hr. cbn [mbind option_bind]. destruct r as [e|s]; [eauto|].
  destruct Hfw as (q' & Hq' & Hle).
  apply mmdf_message_spec in Hr. destruct Hr as (Hf & _).
  destruct (frame_fields _ _ Hf) as (_ & _ & _ & _ & _ & _ & Hd3 & _).
  eapply IH; [exact Hq'|lia|]. rewrite Hd3, Hd2, Hd1. lia.
Qed.

Lemma mmdf_parse_mailbox_terminates (Hadv : reader_advances) (st : State) (p : Z) :
  fp st = Some p -> 0 <= p ->
  exists r, mmdf_parse_mailbox E (S (length (disk st))) st = Some r.
Proof.
  intros Hfp Hp. unfold mmdf_parse_mailbox.
  destruct (fails E AtParseStat); [eauto|].
  set (st1 := set_size _ (set_mtime _ (set_atime _ st))).
  destruct (mmdf_parse_loop_terminates Hadv (S (length (disk st))) st1 p Hfp Hp)
    as [e Hr]; [cbn; lia|].
  rewrite Hr. cbn [mbind option_bind]. destruct e; [eauto|].
  destruct (SigInt _ =? 1); eauto.
Qed.


(** *** The declared length of an mbox message *)



Lemma fseeko_open (off p : Z) (st : State) :
  fp st = Some p -> 0 <= off -> fseeko off st = Some (set_fp (Some off) st).
Proof.
  intros Hfp Hoff. unfold fseeko. rewrite Hfp.
  destruct (off <? 0) eqn:En; [apply Z.ltb_lt in En; lia|reflexivity].
Qed.

Lemma fseeko_or_stay_open (off p : Z) (st : State) :
  fp st = Some p -> 0 <= off -> fseeko_or_stay off st = set_fp (Some off) st.
Proof. intros Hfp Hoff. unfold fseeko_or_stay. rewrite (fseeko_open off p st Hfp Hoff). reflexivity. Qed.

Lemma fgets_fp_open (n : nat) (p : Z) (st : State) :
  fp st = Some p ->
  fgets_fp n st =
    match fgets n (disk st) p with
    | Some (buf, q) => Some (buf, set_fp (Some q) st)
    | None => None
    end.
Proof.
  intros Hfp. unfold fgets_fp. rewrite Hfp. cbn.
  destruct (fgets n (disk st) p) as [[buf q]|]; reflexivity.
Qed.




(** [k] lines that are not [From ] lines lie between the offsets [p] and
    [q] of the file. *)
Inductive body_lines (data : list ascii) : Z -> nat -> Z -> Prop :=
  | body_done (p : Z) : body_lines data p 0 p
  | body_line (p p1 q : Z) (k : nat) (buf : list ascii) :
      fgets HUGE_STRING data p = Some (buf, p1) -> is_from buf = None ->
      body_lines data p1 k q -> body_lines data p (S k) q.

(** No signal is pending, and none arrives before the next [k] polls. *)
Definition no_signal (st : State) (k : nat) : Prop :=
  SigInt st <> 1 /\
  forall n, (polls st <= n < polls st + k)%nat -> sig_arrives E n = false.

(** The state after [k] lines were read up to offset [q]. *)
Definition scanned (st : State) (k : nat) (q : Z) : State :=
  set_polls (polls st + k) (set_fp (Some q) st).

Lemma poll_sigint_quiet (st : State) :
  no_signal st 1 ->
  poll_sigint E st = set_polls (S (polls st)) st /\ (SigInt (poll_sigint E st) =? 1) = false.
Proof.
  intros [Hs Hn]. unfold poll_sigint. rewrite (Hn (polls st)) by lia.
  split; [reflexivity|]. cbn. apply Z.eqb_neq. exact Hs.
Qed.

(** The line-by-line scan: the loop reads the [k] lines and counts them. *)
Lemma mbox_scan_body (k : nat) : forall (st : State) (p q : Z),
  body_lines (disk st) p k q -> fp st = Some p -> no_signal st k ->
  forall (fuel : nat) (count lines_seen : Z),
  mbox_parse_loop E (k + fuel) st count lines_seen p =
  mbox_parse_loop E fuel (scanned st k q) count (lines_seen + Z.of_nat k) q.
Proof.
  induction k as [|k IH]; intros st p q Hbody Hfp Hsig fuel count lines_seen.
  - inversion Hbody; subst. cbn [Nat.add Z.of_nat]. rewrite Z.add_0_r.
    replace (scanned st 0 q) with st; [reflexivity|].
    unfold scanned. rewrite Nat.add_0_r, <- Hfp. destruct st; reflexivity.
  - inversion Hbody as [|p0 p1 q0 k0 buf Hg Hnot Hrest]; subst.
    cbn [Nat.add mbox_parse_loop].
    rewrite (fgets_fp_open HUGE_STRING p st Hfp), Hg.
    destruct Hsig as [Hs Hn].
    destruct (poll_sigint_quiet (set_fp (Some p1) st)) as [Hpoll Hq].
    { split; [exact Hs|]. intros n Hr. apply Hn. cbn in Hr. lia. }
    rewrite Hq, Hpoll, Hnot.
    set (st2 := set_polls (S (polls (set_fp (Some p1) st))) (set_fp (Some p1) st)).
    rewrite (ftello_fp st2 p1 eq_refl).
    rewrite (IH st2 p1 q Hrest eq_refl).
    + replace (scanned st2 k q) with (scanned st (S k) q).
      * replace (lines_seen + 1 + Z.of_nat k) with (lines_seen + Z.of_nat (S k)) by lia.
        reflexivity.
      * unfold scanned, st2, set_polls, set_fp. cbn. f_equal. lia.
    + split; [exact Hs|]. intros n Hr. apply Hn. cbn in Hr. lia.
Qed.



(** *** Reconciliation *)

(** The old record at [j] is still there and compares equal to [h]. *)
Definition matching (h : Header) (old_hdrs : list (option Header)) (j : nat) : Prop :=
  exists o, old_hdrs !! j = Some (Some o) /\ mutt_header_cmp_strict h o = true.

Lemma first_match_seq (h : Header) (old_hdrs : list (option Header)) (n : nat) :
  forall a : nat,
  match first_match h old_hdrs (seq a n) with
  | Some j => (a <= j < a + n)%nat /\ matching h old_hdrs j /\
              forall j', (a <= j' < j)%nat -> ~ matching h old_hdrs j'
  | None => forall j', (a <= j' < a + n)%nat -> ~ matching h old_hdrs j'
  end.
Proof.
  induction n as [|n IH]; intros a; simpl.
  - intros j' Hj'. lia.
  - assert (Hskip : ~ matching h old_hdrs a ->
      match first_match h old_hdrs (seq (S a) n) with
      | Some j => (a <= j < a + S n)%nat /\ matching h old_hdrs j /\
                  forall j', (a <= j' < j)%nat -> ~ matching h old_hdrs j'
      | None => forall j', (a <= j' < a + S n)%nat -> ~ matching h old_hdrs j'
      end).
    { intros Hno. specialize (IH (S a)).
      destruct (first_match h old_hdrs (seq (S a) n)) as [j|].
      - destruct IH as (Hr & Hm & Hmin). split; [lia|]. split; [exact Hm|].
        intros j' Hj'. destruct (decide (j' = a)) as [->|Hne]; [exact Hno|].
        apply Hmin. lia.
      - intros j' Hj'. destruct (decide (j' = a)) as [->|Hne]; [exact Hno|].
        apply IH. lia. }
    destruct (old_hdrs !! a) as [[o|]|] eqn:Ha.
    + destruct (mutt_header_cmp_strict h o) eqn:Hc.
      * split; [lia|]. split; [exists o; auto|]. intros j' Hj'. lia.
      * apply Hskip. intros (o' & Ho' & Hc'). congruence.
    + apply Hskip. intros (o' & Ho' & Hc'). congruence.
    + apply Hskip. intros (o' & Ho' & Hc'). congruence.
Qed.

(** Where [find_old] finds its record: at the first matching index from [i]
    on, or, when there is none, at the first matching index below [i]. *)
Definition found_at (i : nat) (h : Header) (old_hdrs : list (option Header)) (j : nat)
  : Prop :=
  matching h old_hdrs j /\
  ((i <= j)%nat /\ (forall j', (i <= j' < j)%nat -> ~ matching h old_hdrs j') \/
   (j < i)%nat /\ (forall j', (i <= j')%nat -> ~ matching h old_hdrs j') /\
     (forall j', (j' < j)%nat -> ~ matching h old_hdrs j')).

Lemma matching_in_range (h : Header) (old_hdrs : list (option Header)) (j : nat) :
  matching h old_hdrs j -> (j < length old_hdrs)%nat.
Proof. intros (o & Ho & _). apply lookup_lt_Some in Ho. exact Ho. Qed.

Lemma find_old_spec (i : nat) (h : Header) (old_hdrs : list (option Header)) :
  match find_old i h old_hdrs with
  | Some j => found_at i h old_hdrs j
  | None => forall j', ~ matching h old_hdrs j'
  end.
Proof.
  unfold find_old.
  pose proof (first_match_seq h old_hdrs (length old_hdrs - i) i) as H1.
  destruct (first_match h old_hdrs (seq i (length old_hdrs - i))) as [j|].
  - destruct H1 as (Hr & Hm & Hmin). split; [exact Hm|]. left. split; [lia|exact Hmin].
  - assert (Hhigh : forall j', (i <= j')%nat -> ~ matching h old_hdrs j').
    { intros j' Hj' Hm. apply matching_in_range in Hm as Hlt. apply (H1 j'); [lia|exact Hm]. }
    pose proof (first_match_seq h old_hdrs (Nat.min i (length old_hdrs)) 0) as H2.
    destruct (first_match h old_hdrs (seq 0 (Nat.min i (length old_hdrs)))) as [j|].
    + destruct H2 as (Hr & Hm & Hmin). split; [exact Hm|]. right.
      split; [lia|]. split; [exact Hhigh|]. intros j' Hj'. apply Hmin. lia.
    + intros j' Hm. destruct (decide (i <= j')%nat) as [Hge|Hlt]; [exact (Hhigh j' Hge Hm)|].
      apply matching_in_range in Hm as Hlt'. apply (H2 j'); [lia|exact Hm].
Qed.








Lemma find_old_skips_freed (i j : nat) (h : Header) (old_hdrs : list (option Header)) :
  old_hdrs !! j = Some None -> find_old i h old_hdrs <> Some j.
Proof.
  intros Hj Hf. pose proof (find_old_spec i h old_hdrs) as Hs. rewrite Hf in Hs.
  destruct Hs as ((o & Ho & _) & _). congruence.
Qed.

(** The old indices the loop finds, in the order of the new records. *)
Fixpoint reconcile_found (n i : nat) (st : State) (old_hdrs : list (option Header))
  : list nat :=
  match n with
  | O => []
  | S n' =>
      let '(st1, old1, found) := reconcile_step i st old_hdrs in
      match found with
      | Some j => j :: reconcile_found n' (S i) st1 old1
      | None => reconcile_found n' (S i) st1 old1
      end
  end.

Lemma reconcile_step_found (i : nat) (st : State) (old_hdrs : list (option Header)) :
  match reconcile_step i st old_hdrs with
  | (_, old1, Some j) =>
      (exists o, old_hdrs !! j = Some (Some o)) /\ old1 = <[j := None]> old_hdrs
  | (_, old1, None) => old1 = old_hdrs
  end.
Proof.
  unfold reconcile_step. destruct (hdrs st !! i) as [h|]; [|reflexivity].
  destruct (find_old i h old_hdrs) as [j|]; [|reflexivity].
  destruct (old_hdrs !! j) as [[o|]|] eqn:Hj; [|reflexivity|reflexivity].
  split; [eauto|reflexivity].
Qed.

Lemma reconcile_found_live (n : nat) : forall (i : nat) (st : State)
    (old_hdrs : list (option Header)) (j : nat),
  j ∈ reconcile_found n i st old_hdrs -> exists o, old_hdrs !! j = Some (Some o).
Proof.
  induction n as [|n IH]; intros i st old_hdrs j; simpl; [intros H; inversion H|].
  pose proof (reconcile_step_found i st old_hdrs) as Hs.
  destruct (reconcile_step i st old_hdrs) as [[st1 old1] [j0|]].
  - destruct Hs as [[o Ho] ->]. intros H. apply elem_of_cons in H as [->|H]; [eauto|].
    apply IH in H as [o' Ho'].
    destruct (decide (j = j0)) as [->|Hne].
    + rewrite list_lookup_insert_eq in Ho' by (apply lookup_lt_Some in Ho; exact Ho).
      discriminate.
    + rewrite list_lookup_insert_ne in Ho' by congruence. eauto.
  - subst old1. apply IH.
Qed.

(** One old record serves one new record at most. *)
Lemma reconcile_found_NoDup (n : nat) : forall (i : nat) (st : State)
    (old_hdrs : list (option Header)),
  NoDup (reconcile_found n i st old_hdrs).
Proof.
  induction n as [|n IH]; intros i st old_hdrs; simpl; [constructor|].
  pose proof (reconcile_step_found i st old_hdrs) as Hs.
  destruct (reconcile_step i st old_hdrs) as [[st1 old1] [j0|]] eqn:Es; [|apply IH].
  destruct Hs as [[o Ho] ->]. constructor; [|apply IH].
  intros Hin. apply reconcile_found_live in Hin as [o' Ho'].
  rewrite list_lookup_insert_eq in Ho' by (apply lookup_lt_Some in Ho; exact Ho).
  discriminate.
Qed.







(** *** What reconciliation reports *)

(** The state in which [reopen_mailbox] parses the file again, and the old
    records it keeps for the flags. *)
Definition reopen_sorted (st : State) : State :=
  if negb (Sort st =? SORT_ORDER E)
  then set_hdrs (mutt_sort_headers (SORT_ORDER E) true (hdrs (set_quiet true st)))
         (set_quiet true st)
  else set_quiet true st.

Definition reopen_start (st : State) : State :=
  set_fp (Some 0) (set_mchanged false (set_hdrs [] (reopen_sorted st))).

Definition reopen_old (st : State) : list (option Header) :=
  if readonly (reopen_sorted st) then [] else map Some (hdrs (reopen_sorted st)).

(** The loop over the new records changes the records, the changed mark and
    the index hint, and nothing else. *)
Definition cframe (st st' : State) : Prop :=
  st' = set_index_hint (index_hint st') (set_mchanged (mchanged st') (set_hdrs (hdrs st') st)).

Lemma cframe_refl (st : State) : cframe st st.
Proof. destruct st; reflexivity. Qed.

Lemma cframe_trans (a b c : State) : cframe a b -> cframe b c -> cframe a c.
Proof. unfold cframe. intros Hab Hbc. rewrite Hbc, Hab. reflexivity. Qed.

Lemma cframe_set_flag (i : nat) (k : FlagKind) (bf : bool) (st : State) :
  cframe st (mutt_set_flag i k bf st).
Proof.
  unfold mutt_set_flag. destruct (hdrs st !! i); [|apply cframe_refl].
  destruct (eqb _ _); [apply cframe_refl|destruct st; reflexivity].
Qed.

Lemma cframe_carry_flags (i j : nat) (o : Header) (st : State) :
  cframe st (carry_flags i j o st).
Proof.
  unfold carry_flags.
  set (st1 := match index_hint st with
              | Some v => if v =? Z.of_nat j then set_index_hint (Some (Z.of_nat i)) st else st
              | None => st end).
  assert (H1 : cframe st st1).
  { subst st1. destruct (index_hint st); [destruct (_ =? _)|];
      try apply cframe_refl. destruct st; reflexivity. }
  destruct (changed o);
    repeat (eapply cframe_trans; [|apply cframe_set_flag]); exact H1.
Qed.

Lemma cframe_reconcile (n : nat) : forall (i : nat) (st : State)
    (old_hdrs : list (option Header)),
  cframe st (fst (reconcile n i st old_hdrs)).
Proof.
  induction n as [|n IH]; intros i st old_hdrs; cbn [reconcile]; [apply cframe_refl|].
  unfold reconcile_step.
  destruct (hdrs st !! i) as [h|]; [|apply IH].
  destruct (find_old i h old_hdrs) as [j|]; [|apply IH].
  destruct (old_hdrs !! j) as [[o|]|]; try apply IH.
  eapply cframe_trans; [apply cframe_carry_flags|apply IH].
Qed.


(** What [reopen_mailbox] does with the result of the parse. *)
Definition reopen_finish (old_hdrs : list (option Header)) (res : Z * State)
  : option (Z * State) :=
  let '(rc, st4) := res in
  if rc =? -1 then Some (-1, set_quiet false st4)
  else
    let st5 := log EvTouchAtime st4 in
    let '(st6, msg_mod) :=
      if negb (readonly st5) then
        let '(st', old') := reconcile (length (hdrs st5)) 0 st5 old_hdrs in
        (st', existsb (fun o => bool_decide (is_Some o)) old')
      else (st5, false) in
    let st7 := set_quiet false st6 in
    Some (if mchanged st7 || msg_mod then MUTT_REOPENED else MUTT_NEW_MAIL, st7).

Lemma reopen_mailbox_eq (fuel : nat) (st : State) :
  reopen_mailbox E fuel st =
  (if is_mbox (magic (reopen_start st)) || is_mmdf (magic (reopen_start st)) then
     if fails E AtReopenFopen
     then Some (-1, set_fp None (reopen_start st))
     else parse_by_magic E fuel (reopen_start st)
   else Some (-1, set_fp (fp (reopen_sorted st)) (reopen_start st)))
  ≫= reopen_finish (reopen_old st).
Proof.
  unfold reopen_mailbox, reopen_start, reopen_old, reopen_sorted, reopen_finish.
  cbn [Sort set_quiet].
  destruct (negb (Sort st =? SORT_ORDER E)); reflexivity.
Qed.

(** [reopen_mailbox] when it succeeds: the parse it ran, and what it did
    with the old records. *)
Lemma reopen_mailbox_unfold (fuel : nat) (st : State) (rc : Z) (st' : State) :
  reopen_mailbox E fuel st = Some (rc, st') -> rc <> -1 ->
  exists rc0 st4,
    parse_by_magic E fuel (reopen_start st) = Some (rc0, st4) /\ rc0 <> -1 /\
    (st', rc) =
      (if negb (readonly st4) then
         let '(st6, old') :=
           reconcile (length (hdrs st4)) 0 (log EvTouchAtime st4) (reopen_old st) in
         (set_quiet false st6,
          if mchanged st6 || existsb (fun o => bool_decide (is_Some o)) old'
          then MUTT_REOPENED else MUTT_NEW_MAIL)
       else (set_quiet false (log EvTouchAtime st4),
             if mchanged st4 then MUTT_REOPENED else MUTT_NEW_MAIL)).
Proof.
  rewrite reopen_mailbox_eq. intros Hrun Hrc.
  destruct (is_mbox (magic (reopen_start st)) || is_mmdf (magic (reopen_start st))).
  2:{ cbn in Hrun. inversion Hrun; subst. contradiction. }
  destruct (fails E AtReopenFopen).
  { cbn in Hrun. inversion Hrun; subst. contradiction. }
  destruct (parse_by_magic E fuel (reopen_start st)) as [[rc0 st4]|] eqn:Ep; [|discriminate].
  cbn [mbind option_bind] in Hrun. unfold reopen_finish in Hrun.
  destruct (rc0 =? -1) eqn:E1; [inversion Hrun; subst; contradiction|].
  apply Z.eqb_neq in E1. exists rc0, st4. split; [reflexivity|]. split; [exact E1|].
  change (readonly (log EvTouchAtime st4)) with (readonly st4) in Hrun.
  change (hdrs (log EvTouchAtime st4)) with (hdrs st4) in Hrun.
  destruct (negb (readonly st4)).
  - destruct (reconcile (length (hdrs st4)) 0 (log EvTouchAtime st4) (reopen_old st))
      as [st6 old']. cbn in Hrun. inversion Hrun; subst. reflexivity.
  - cbn in Hrun. inversion Hrun; subst. cbn. rewrite orb_false_r. reflexivity.
Qed.












(** *** The parsers: interruption and the length of a body *)


Lemma parse_by_magic_terminates (Hadv : reader_advances) (st : State) (p : Z) :
  fp st = Some p -> 0 <= p ->
  exists r, parse_by_magic E (S (length (disk st))) st = Some r.
Proof.
  intros Hfp Hp. unfold parse_by_magic. destruct (magic st); eauto.
  - apply (mbox_parse_mailbox_terminates Hadv st p Hfp Hp).
  - apply (mmdf_parse_mailbox_terminates Hadv st p Hfp Hp).
Qed.



End Properties.

(** ** The engine on concrete mailboxes

    The theorems above at concrete inputs, with the collaborators of
    [Sample], and runs of the engine that show where the code parts from
    a stronger reading. *)

(** Three messages; the second one declares the length of its body. *)
Definition mb3 : list ascii := Eval vm_compute in
  text "From a|Message-ID: 1||hello|world||From b|Message-ID: 2|Content-Length: 4||abc||From c|Message-ID: 3||x|y|".

(** The same file once another program took the second message out. *)
Definition mb2 : list ascii := Eval vm_compute in
  text "From a|Message-ID: 1||hello|world||From c|Message-ID: 3||x|y|".


Definition after (r : option (Z * State)) : State :=
  match r with Some (_, s) => s | None => fresh MUTT_MBOX [] end.

(** [mb3] opened, and then with its second message marked deleted. *)
Definition opened : State := Eval vm_compute in
  after (mbox_mbox_open quiet_env 200 (fresh MUTT_MBOX mb3)).

Lemma opened_is_open : mbox_mbox_open quiet_env 200 (fresh MUTT_MBOX mb3) = Some (0, opened).
Proof. vm_compute. reflexivity. Qed.

Definition opened_del : State :=
  set_hdrs (alter (set_deleted true) 1%nat (hdrs opened)) opened.

(** [mb3] opened, and the file replaced by [mb2] behind the program's back. *)
Definition shrunk : State := set_disk mb2 opened.

Definition failing (s : Site) : Env := with_fails (fun x => bool_decide (x = s)) quiet_env.


Lemma sample_copy_keeps_flags : copier_keeps_flags (C := sample_collab).
Proof. intros data h. apply same_flags_refl. Qed.

Lemma read_header_lines_advances (fuel : nat) : forall (data : list ascii) (pos : Z)
    (h : Header),
  pos <= snd (read_header_lines fuel data pos h).
Proof.
  induction fuel as [|fuel IH]; intros data pos h; cbn [read_header_lines]; [cbn; lia|].
  destruct (fgets LONG_STRING data pos) as [[line pos']|] eqn:Eg; [|cbn; lia].
  apply fgets_advances in Eg; [|unfold LONG_STRING; lia].
  destruct (bool_decide (line = [nl])); [cbn; lia|].
  specialize (IH data pos' (header_line line h)). lia.
Qed.

Lemma sample_reader_advances : reader_advances (C := sample_collab).
Proof.
  intros data pos h. cbn [mutt_rfc822_read_header sample_collab]. unfold sample_read_header.
  pose proof (read_header_lines_advances (length data) data pos
                (set_c_length (-1) (set_c_hdr_offset (offset h) h))) as H.
  destruct (read_header_lines _ _ _ _) as [h1 pos']. exact H.
Qed.

(** C3 on [mb3]: the check of the mailbox just opened answers 0 and leaves
    the context as it is. *)
Lemma check_unchanged_twice_witness :
  mbox_mbox_check quiet_env 0 opened = Some (0, opened).
Proof.
  assert (Hstat : fails quiet_env AtCheckStat = false) by reflexivity.
  assert (Hsize : Z.of_nat (length (disk opened)) = size opened) by (vm_compute; reflexivity).
  destruct (check_unchanged_twice quiet_env 0 opened Hstat Hsize) as (H & _).
  rewrite H. vm_compute. reflexivity.
Defined.

(** C8 on [mb3]: the shared acquisition with retry that fails makes the
    mailbox read-only and answers 0. *)
Lemma lock_failure_fatal_only_when_exclusive_witness :
  mbox_lock_mailbox (-1) false true opened = (0, set_readonly true opened).
Proof.
  assert (Hr : -1 <> 0) by lia.
  exact (proj1 (lock_failure_fatal_only_when_exclusive (failing AtOpenLock) 0 opened (-1) Hr)).
Defined.

(** [mbox_mbox_open] with a lock that cannot be taken: the answer is 0, the
    three messages are there, and the mailbox is read-only. *)
Lemma open_succeeds_without_lock :
  exists st',
    mbox_mbox_open (failing AtOpenLock) 200 (fresh MUTT_MBOX mb3) = Some (0, st') /\
    readonly st' = true /\ length (hdrs st') = 3%nat.
Proof. eexists. split; [vm_compute; reflexivity|]. split; reflexivity. Defined.

(** [opened_del] under another [$sort], with its records in the reverse
    of the order of the file. *)
Definition by_date : State := Eval vm_compute in
  with_sort 9 (set_hdrs (rev (hdrs opened_del)) opened_del).

(** C1 on [by_date], with the sorter and the copier of [busy_collab] and a
    truncation that fails: the sync answers -1 and the temporary file was
    renamed to the fallback name. *)
Lemma write_back_failure_saves_temp_witness :
  exists st',
    mbox_mbox_sync (C := busy_collab) (failing AtSyncFtruncate) 10 by_date = Some (-1, st') /\
    EvRename "/tmp/neomutt-tmp" "/tmp/neomutt.u-host-42" ∈ trace st'.
Proof.
  pose (E1 := failing AtSyncFtruncate).
  assert (Hstart : sync_starts E1 by_date)
    by (split; [eexists; reflexivity|vm_compute; repeat split; reflexivity]).
  assert (Htemp : temp_created E1) by (split; reflexivity).
  assert (Hfirst : find_first 0 (hdrs (sync_sorted (C := busy_collab) E1 by_date)) = Some 1%nat)
    by (vm_compute; reflexivity).
  assert (Hcopy : exists r,
            sync_copied (C := busy_collab) E1 1 (sync_sorted (C := busy_collab) E1 by_date)
            = inr r)
    by (eexists; vm_compute; reflexivity).
  destruct Hcopy as [[[[st1 tmp] new_offset] old_offset] Hcopy].
  assert (Hfail : write_back_fails E1
                    (splice_offset 1 (sync_sorted (C := busy_collab) E1 by_date)) st1 \/
                  fails E1 AtSyncFcloseMbox = true).
  { left. right. right. right. right. reflexivity. }
  destruct (write_back_failure_saves_temp (C := busy_collab) E1 10 by_date st1 1 tmp
              new_offset old_offset Hstart Htemp Hfirst Hcopy eq_refl eq_refl eq_refl Hfail)
    as (st' & evs & Hrun & Htrace & _).
  exists st'. split; [exact Hrun|].
  rewrite Htrace. apply elem_of_app. right. apply elem_of_app. right.
  replace (savefile E1) with "/tmp/neomutt.u-host-42"%string by (vm_compute; reflexivity).
  apply elem_of_cons. left. reflexivity.
Defined.

(** The close of the temporary file fails: the file is unlinked, nothing is
    renamed, and the sync answers -1 with the records as they were. *)
Lemma temp_close_failure_unlinks_temp :
  exists st',
    mbox_mbox_sync (failing AtSyncFcloseTemp) 10 opened_del = Some (-1, st') /\
    trace st' = trace opened_del ++
      [EvSigBlock; EvUnlink "/tmp/neomutt-tmp"; EvPerror "/tmp/neomutt-tmp";
       EvFileUnlock; EvSigUnblock] /\
    hdrs st' = hdrs opened_del.
Proof. eexists. split; [vm_compute; reflexivity|]. split; vm_compute; reflexivity. Defined.

(** C2 on [by_date] with the close of the temporary file failing.  The
    copier has moved the body offset of the third message by ten bytes
    when the copy ends; after the rollback the records are those of
    [by_date] again, in the order they had. *)
Lemma rollback_restores_offsets_witness :
  exists st1 tmp new_offset old_offset st',
    sync_copied (C := busy_collab) (failing AtSyncFcloseTemp) 1
      (sync_sorted (C := busy_collab) (failing AtSyncFcloseTemp) by_date)
      = inr (st1, tmp, new_offset, old_offset) /\
    c_offset <$> hdrs st1 !! 2%nat = Some 112 /\
    c_offset <$> hdrs by_date !! 0%nat = Some 102 /\
    mbox_mbox_sync (C := busy_collab) (failing AtSyncFcloseTemp) 10 by_date
      = Some (-1, st') /\
    hdrs st' = hdrs by_date /\ locked st' = false /\ fp st' = Some 0.
Proof.
  pose (E2 := failing AtSyncFcloseTemp).
  assert (Hstart : sync_starts E2 by_date)
    by (split; [eexists; reflexivity|vm_compute; repeat split; reflexivity]).
  assert (Htemp : temp_created E2) by (split; reflexivity).
  assert (Hfirst : find_first 0 (hdrs (sync_sorted (C := busy_collab) E2 by_date)) = Some 1%nat)
    by (vm_compute; reflexivity).
  assert (Hcopy : exists r,
            sync_copied (C := busy_collab) E2 1 (sync_sorted (C := busy_collab) E2 by_date)
            = inr r /\ c_offset <$> hdrs (fst (fst (fst r))) !! 2%nat = Some 112).
  { eexists. split; [vm_compute; reflexivity|]. reflexivity. }
  destruct Hcopy as ([[[st1 tmp] new_offset] old_offset] & Hcopy & Hmoved).
  assert (Hfail : match sync_copied (C := busy_collab) E2 1
                          (sync_sorted (C := busy_collab) E2 by_date) with
                  | inl _ => True
                  | inr _ => fails E2 AtSyncFcloseTemp = true \/ fails E2 AtSyncStat = true
                  end).
  { rewrite Hcopy. left. reflexivity. }
  destruct (rollback_restores_offsets (C := busy_collab) E2 10 by_date 1 Hstart Htemp Hfirst
              Hfail) as (st' & Hrun & Hl & _ & Hok & _).
  destruct (Hok eq_refl) as (Hf & _).
  exists st1, tmp, new_offset, old_offset, st'.
  split; [exact Hcopy|]. split; [exact Hmoved|]. split; [reflexivity|].
  split; [exact Hrun|]. split; [|split; [exact Hl|exact Hf]].
  assert (Hval : exists s, mbox_mbox_sync (C := busy_collab) E2 10 by_date = Some (-1, s) /\
                           hdrs s = hdrs by_date)
    by (eexists; split; [vm_compute; reflexivity|reflexivity]).
  destruct Hval as (s & Hs & Hh). rewrite Hrun in Hs. injection Hs as ->. exact Hh.
Defined.

(** The truncation fails after the temporary file was written: the sync
    answers -1 with the mailbox closed and the header store empty; nothing
    is restored and the file is not reopened. *)
Lemma truncate_failure_closes_mailbox :
  exists st',
    mbox_mbox_sync (failing AtSyncFtruncate) 10 opened_del = Some (-1, st') /\
    hdrs st' = [] /\ fp st' = None /\ length (hdrs opened_del) = 3%nat /\
    drop 7 (trace st') =
      [EvRename "/tmp/neomutt-tmp" "/tmp/neomutt.u-host-42"; EvSigUnblock; EvFastclose;
       EvError "Write failed!  Saved partial mailbox to /tmp/neomutt.u-host-42"].
Proof.
  eexists. split; [vm_compute; reflexivity|].
  split; [reflexivity|]. split; [reflexivity|]. split; [reflexivity|].
  vm_compute. reflexivity.
Defined.











End MboxProps.

(** * Properties of the Notmuch paths, tags and flags *)

Module NotmuchMessagesProps.
Import Notmuch NotmuchMessages NotmuchSample.

(** *** C strings *)

Lemma strrchr_None (s : list ascii) (c : ascii) : strrchr s c = None <-> c ∉ s.
Proof.
  induction s as [|x s IH]; cbn.
  - split; [intros _ H; inversion H|reflexivity].
  - destruct (strrchr s c) as [i|].
    + split; [discriminate|]. intros Hn. exfalso.
      assert (Hs : c ∉ s) by (intros Hin; apply Hn; right; exact Hin).
      apply IH in Hs. discriminate.
    + destruct (Ascii.eqb x c) eqn:Ex.
      * apply Ascii.eqb_eq in Ex. subst x. split; [discriminate|].
        intros Hn. exfalso. apply Hn. left.
      * apply Ascii.eqb_neq in Ex. split; [|reflexivity]. intros _ Hin.
        apply elem_of_cons in Hin as [->|Hin]; [congruence|].
        apply (proj1 IH eq_refl). exact Hin.
Qed.

Lemma strrchr_app (a b : list ascii) (c : ascii) :
  c ∉ b -> strrchr (a ++ c :: b) c = Some (length a).
Proof.
  intros Hb. induction a as [|x a IH]; cbn.
  - apply strrchr_None in Hb. rewrite Hb, Ascii.eqb_refl. reflexivity.
  - rewrite IH. reflexivity.
Qed.

Lemma strrchr_Some (s : list ascii) (c : ascii) (i : nat) :
  strrchr s c = Some i -> s = take i s ++ c :: drop (S i) s /\ (c ∉ drop (S i) s).
Proof.
  revert i. induction s as [|x s IH]; intros i; cbn; [discriminate|].
  destruct (strrchr s c) as [j|] eqn:Ej.
  - intros [= <-]. destruct (IH j eq_refl) as [H1 H2]. cbn. split; [|exact H2].
    f_equal. exact H1.
  - destruct (Ascii.eqb x c) eqn:Ex; [|discriminate]. intros [= <-].
    apply Ascii.eqb_eq in Ex. subst x. cbn. rewrite drop_0. split; [reflexivity|].
    apply strrchr_None. exact Ej.
Qed.

Lemma strchr_app (a b : list ascii) (c : ascii) :
  c ∉ a -> strchr (a ++ c :: b) c = Some (length a).
Proof.
  induction a as [|x a IH]; cbn; intros Ha.
  - rewrite Ascii.eqb_refl. reflexivity.
  - destruct (Ascii.eqb x c) eqn:Ex.
    + apply Ascii.eqb_eq in Ex. subst x. exfalso. apply Ha. left.
    + rewrite IH; [reflexivity|]. intros Hin. apply Ha. right. exact Hin.
Qed.

Lemma strchr_None (s : list ascii) (c : ascii) : c ∉ s -> strchr s c = None.
Proof.
  induction s as [|x s IH]; cbn; intros Hs; [reflexivity|].
  destruct (Ascii.eqb x c) eqn:Ex.
  - apply Ascii.eqb_eq in Ex. subst x. exfalso. apply Hs. left.
  - rewrite IH; [reflexivity|]. intros Hin. apply Hs. right. exact Hin.
Qed.

(** *** The folder of a Maildir file *)

Lemma skip_slashes_back_le (path : list ascii) (p : nat) : (skip_slashes_back path p <= p)%nat.
Proof.
  induction p as [|p IH]; cbn; [lia|]. destruct (bool_decide _); lia.
Qed.

(** Where the loop stops: at the start, or after a byte that is no slash. *)
Lemma skip_slashes_back_stop (path : list ascii) (p : nat) :
  skip_slashes_back path p = O \/
  exists q, skip_slashes_back path p = S q /\ path !! q <> Some "/"%char.
Proof.
  induction p as [|p IH]; cbn; [left; reflexivity|].
  destruct (bool_decide (path !! p = Some "/"%char)) eqn:Ep; [exact IH|].
  apply bool_decide_eq_false in Ep. right. exists p. split; [reflexivity|exact Ep].
Qed.

Lemma skip_slashes_back_run (folder rest : list ascii) (k : nat) :
  last folder <> Some "/"%char ->
  skip_slashes_back (folder ++ replicate k "/"%char ++ rest) (length folder + k)
  = length folder.
Proof.
  intros Hlast. revert rest. induction k as [|k IH]; intros rest.
  - rewrite Nat.add_0_r. cbn [replicate app].
    destruct folder as [|x folder _] using rev_ind; [reflexivity|].
    rewrite length_app. cbn [length]. rewrite Nat.add_1_r. cbn [skip_slashes_back].
    rewrite <- app_assoc. cbn [app].
    rewrite (list_lookup_middle folder rest x (length folder) eq_refl).
    rewrite last_snoc in Hlast.
    rewrite bool_decide_eq_false_2 by exact Hlast.
    reflexivity.
  - replace (length folder + S k)%nat with (S (length folder + k)) by lia.
    cbn [skip_slashes_back].
    assert (Hl : (folder ++ replicate (S k) "/"%char ++ rest) !! (length folder + k)%nat
                 = Some "/"%char).
    { rewrite lookup_app_r by lia. rewrite lookup_app_l by (rewrite length_replicate; lia).
      apply lookup_replicate_2. lia. }
    rewrite Hl. rewrite bool_decide_eq_true_2 by reflexivity.
    replace (replicate (S k) "/"%char ++ rest)
      with (replicate k "/"%char ++ "/"%char :: rest).
    + apply IH.
    + clear. induction k as [|k IH]; [reflexivity|]. cbn. f_equal. exact IH.
Qed.

Definition maildir_subdir (sub : string) : Prop :=
  sub = "cur"%string \/ sub = "new"%string \/ sub = "tmp"%string.

(** X1: the folder of a Maildir file name.  For a file [name] in the
    subdirectory cur, new or tmp of [folder], [get_folder_from_path] answers
    [folder], whatever the number of slashes before the subdirectory.  The
    subdirectory is recognised by the three bytes before the last slash
    alone: with no slash before them the bytes in front of them are the
    answer all the same, as long as there is one. *)
Theorem get_folder_from_path_maildir (folder name : list ascii) (sub : string) (k : nat)
  (Hsub : maildir_subdir sub)
  (Hname : "/"%char ∉ name)
  (Hfolder : last folder <> Some "/"%char)
  (Hk : k = O -> folder <> []) :
  get_folder_from_path
    (folder ++ replicate k "/"%char ++ list_ascii_of_string sub ++ "/"%char :: name)
  = Some folder.
Proof.
  unfold get_folder_from_path.
  set (path := folder ++ replicate k "/"%char ++ list_ascii_of_string sub ++ "/"%char :: name).
  assert (Hlen : length (list_ascii_of_string sub) = 3%nat)
    by (destruct Hsub as [->|[->| ->]]; reflexivity).
  assert (Hp : strrchr path "/" = Some (length folder + k + 3)%nat).
  { subst path. rewrite !app_assoc. rewrite strrchr_app by exact Hname.
    rewrite !length_app, length_replicate, Hlen. reflexivity. }
  rewrite Hp.
  assert (Hgt : (3 <? length folder + k + 3)%nat = true).
  { apply Nat.ltb_lt. destruct k; [|lia].
    destruct folder; [exfalso; apply Hk; reflexivity|cbn; lia]. }
  rewrite Hgt. cbn [andb].
  replace (length folder + k + 3 - 3)%nat with (length folder + k)%nat by lia.
  assert (Hat : take 3 (drop (length folder + k) path) = list_ascii_of_string sub).
  { subst path. rewrite app_assoc. rewrite drop_app_length'
      by (rewrite length_app, length_replicate; reflexivity).
    rewrite take_app_length' by (symmetry; exact Hlen). reflexivity. }
  assert (Hcmp : strncmp_at path (length folder + k) "cur" ||
                 strncmp_at path (length folder + k) "new" ||
                 strncmp_at path (length folder + k) "tmp" = true).
  { unfold strncmp_at. cbn [String.length]. rewrite Hat.
    destruct Hsub as [->|[->| ->]]; reflexivity. }
  rewrite Hcmp. f_equal. subst path.
  rewrite skip_slashes_back_run by exact Hfolder.
  apply take_app_length.
Qed.

Lemma get_folder_from_path_maildir_witness :
  get_folder_from_path (list_ascii_of_string "/home/u/Mail/inbox//cur/1540:2,S")
  = Some (list_ascii_of_string "/home/u/Mail/inbox").
Proof.
  assert (Hsub : maildir_subdir "cur") by (left; reflexivity).
  assert (Hname : "/"%char ∉ list_ascii_of_string "1540:2,S").
  { intros Hin. cbn in Hin. repeat (apply elem_of_cons in Hin as [Hin|Hin]; [discriminate|]).
    inversion Hin. }
  assert (Hfolder : last (list_ascii_of_string "/home/u/Mail/inbox") <> Some "/"%char)
    by (cbn; discriminate).
  assert (Hk : 2%nat = O -> list_ascii_of_string "/home/u/Mail/inbox" <> []) by discriminate.
  exact (get_folder_from_path_maildir (list_ascii_of_string "/home/u/Mail/inbox")
           (list_ascii_of_string "1540:2,S") "cur" 2 Hsub Hname Hfolder Hk).
Defined.

(** X2: what [get_folder_from_path] never answers.  The folder it gives is
    a prefix of the path that does not end in a slash, and at least the
    three bytes of the subdirectory and the slash after them were cut off;
    a path without a slash has no folder. *)
Theorem get_folder_from_path_is_prefix (path f : list ascii)
  (Hf : get_folder_from_path path = Some f) :
  (exists rest, path = f ++ rest /\ (4 <= length rest)%nat) /\
  last f <> Some "/"%char /\
  "/"%char ∈ path.
Proof.
  unfold get_folder_from_path in Hf.
  destruct (strrchr path "/") as [p|] eqn:Ep; [|discriminate].
  apply strrchr_Some in Ep as [Hpath _].
  destruct ((3 <? p)%nat) eqn:Hgt; [|discriminate]. apply Nat.ltb_lt in Hgt.
  destruct (_ || _); [|discriminate]. cbn in Hf. injection Hf as <-.
  assert (Hlt : (p < length path)%nat).
  { apply (f_equal length) in Hpath.
    rewrite length_app, length_take in Hpath. cbn [length] in Hpath.
    rewrite length_drop in Hpath. lia. }
  pose proof (skip_slashes_back_le path (p - 3)) as Hle.
  split; [|split].
  - exists (drop (skip_slashes_back path (p - 3)) path). split.
    + symmetry. apply take_drop.
    + rewrite length_drop. lia.
  - destruct (skip_slashes_back_stop path (p - 3)) as [H0|(q & Hq & Hne)].
    + rewrite H0. cbn. discriminate.
    + rewrite Hq. destruct (path !! q) as [c|] eqn:El.
      * rewrite (take_S_r path q c El), last_snoc.
        intros [= ->]. apply Hne. reflexivity.
      * apply lookup_ge_None in El. lia.
  - rewrite Hpath. apply elem_of_app. right. left.
Qed.


(** *** Tag strings *)

Definition separator (c : ascii) : Prop := c = ","%char \/ c = " "%char.

Lemma separator_eqb (c : ascii) :
  (Ascii.eqb c ","%char || Ascii.eqb c " "%char) = true <-> separator c.
Proof.
  unfold separator. rewrite orb_true_iff, !Ascii.eqb_eq. reflexivity.
Qed.

Lemma not_separator_eqb (c : ascii) :
  ~ separator c -> (Ascii.eqb c ","%char || Ascii.eqb c " "%char) = false.
Proof.
  intros H. destruct (_ || _) eqn:E; [|reflexivity].
  apply separator_eqb in E. contradiction.
Qed.

(** A tag as the user writes it: not empty, free of commas and spaces, and
    not starting with white space. *)
Definition tag_ok (t : list ascii) : Prop :=
  (forall c, c ∈ t -> ~ separator c) /\
  exists c r, t = c :: r /\ isspace c = false.

(** The tags of [ts], each followed by the separator [sep]. *)
Definition terminated (sep : ascii) (ts : list (list ascii)) : list ascii :=
  concat (map (fun t => t ++ [sep]) ts).

(** The tags of [ts] with [sep] between them. *)
Fixpoint tag_string (sep : ascii) (ts : list (list ascii)) : list ascii :=
  match ts with
  | [] => []
  | [t] => t
  | t :: rest => t ++ sep :: tag_string sep rest
  end.

Section TagLoopProps.

Context {A : Type} (act : list ascii -> A -> A).

Lemma tag_loop_start (c : ascii) (rest : list ascii) (a : A) :
  isspace c = false ->
  tag_loop act (c :: rest) None a = tag_loop act (c :: rest) (Some []) a.
Proof. intros Hc. cbn. rewrite Hc. reflexivity. Qed.

Lemma tag_loop_inside (u : list ascii) : forall (acc : list ascii) (c : ascii)
    (rest : list ascii) (a : A),
  (forall x, x ∈ u -> ~ separator x) -> acc ++ u <> [] -> separator c ->
  tag_loop act (u ++ c :: rest) (Some acc) a = tag_loop act rest None (act (acc ++ u) a).
Proof.
  induction u as [|x u IH]; intros acc c rest a Hu Hne Hc.
  - rewrite app_nil_r in *. cbn [app tag_loop default].
    rewrite (proj2 (separator_eqb c) Hc).
    rewrite bool_decide_eq_false_2 by exact Hne. reflexivity.
  - cbn [app tag_loop default].
    rewrite not_separator_eqb by (apply Hu; left).
    assert (Hn : u ++ c :: rest <> []) by (destruct u; discriminate).
    destruct (u ++ c :: rest) as [|y r] eqn:Er; [contradiction|]. rewrite <- Er.
    rewrite IH.
    + rewrite <- app_assoc. reflexivity.
    + intros y' Hy'. apply Hu. right. exact Hy'.
    + destruct acc; discriminate.
    + exact Hc.
Qed.

Lemma tag_loop_to_end (u : list ascii) : forall (acc : list ascii) (a : A),
  (forall x, x ∈ u -> ~ separator x) -> u <> [] ->
  tag_loop act u (Some acc) a = act (acc ++ u) a.
Proof.
  induction u as [|x u IH]; intros acc a Hu Hne; [contradiction|].
  cbn [tag_loop default].
  rewrite not_separator_eqb by (apply Hu; left).
  destruct u as [|y u]; [reflexivity|].
  rewrite IH.
  - rewrite <- app_assoc. reflexivity.
  - intros y' Hy'. apply Hu. right. exact Hy'.
  - discriminate.
Qed.

Lemma tag_loop_tag (t : list ascii) (c : ascii) (rest : list ascii) (a : A) :
  tag_ok t -> separator c ->
  tag_loop act (t ++ c :: rest) None a = tag_loop act rest None (act t a).
Proof.
  intros [Hu (c0 & r & -> & Hc0)] Hc. cbn [app].
  rewrite tag_loop_start by exact Hc0.
  apply (tag_loop_inside (c0 :: r) [] c rest a Hu); [discriminate|exact Hc].
Qed.

Lemma tag_loop_last_tag (t : list ascii) (a : A) :
  tag_ok t -> tag_loop act t None a = act t a.
Proof.
  intros [Hu (c0 & r & -> & Hc0)].
  rewrite tag_loop_start by exact Hc0.
  apply (tag_loop_to_end (c0 :: r) [] a Hu). discriminate.
Qed.

Lemma tag_loop_terminated (sep : ascii) (ts : list (list ascii)) : forall (rest : list ascii)
    (a : A),
  Forall tag_ok ts -> separator sep ->
  tag_loop act (terminated sep ts ++ rest) None a =
  tag_loop act rest None (foldl (fun a t => act t a) a ts).
Proof.
  induction ts as [|t ts IH]; intros rest a Hts Hsep; [reflexivity|].
  inversion Hts as [|? ? Ht Hts']; subst.
  unfold terminated. cbn [map concat foldl]. rewrite <- !app_assoc. cbn [app].
  rewrite tag_loop_tag by assumption.
  apply IH; assumption.
Qed.

Lemma tag_string_terminated (sep : ascii) (ts : list (list ascii)) (t : list ascii) :
  tag_string sep (ts ++ [t]) = terminated sep ts ++ t.
Proof.
  induction ts as [|x ts IH]; [reflexivity|].
  change ((x :: ts) ++ [t]) with (x :: (ts ++ [t])).
  assert (Hcons : forall l, l <> [] -> tag_string sep (x :: l) = x ++ sep :: tag_string sep l).
  { intros [|y r] Hl; [contradiction|reflexivity]. }
  rewrite Hcons by (destruct ts; discriminate).
  rewrite IH. unfold terminated. cbn [map concat].
  rewrite <- !app_assoc. reflexivity.
Qed.

Lemma tag_loop_tag_string (sep : ascii) (ts : list (list ascii)) (a : A) :
  Forall tag_ok ts -> separator sep ->
  tag_loop act (tag_string sep ts) None a = foldl (fun a t => act t a) a ts.
Proof.
  intros Hts Hsep. destruct ts as [|t ts _] using rev_ind; [reflexivity|].
  apply Forall_app in Hts as [Hts Ht]. inversion Ht as [|? ? Ht' _]; subst.
  rewrite tag_string_terminated, tag_loop_terminated by assumption.
  rewrite foldl_app. cbn [foldl]. apply tag_loop_last_tag. exact Ht'.
Qed.

Lemma tag_loop_break (rest : list ascii) (a : A) :
  tag_loop act (","%char :: rest) None a = a.
Proof. reflexivity. Qed.

Lemma tag_loop_skip (ws rest : list ascii) (a : A) :
  Forall (fun c => isspace c = true) ws ->
  tag_loop act (ws ++ rest) None a = tag_loop act rest None a.
Proof.
  induction 1 as [|c ws Hc _ IH]; [reflexivity|].
  cbn [app tag_loop]. rewrite Hc. exact IH.
Qed.

End TagLoopProps.

Lemma tag_string_nonempty (sep : ascii) (ts : list (list ascii)) :
  Forall tag_ok ts -> ts <> [] -> tag_string sep ts <> [].
Proof.
  intros Hts Hne. destruct ts as [|t ts]; [contradiction|].
  inversion Hts as [|? ? [_ (c & r & -> & _)] _]; subst.
  cbn. destruct ts; discriminate.
Qed.

Section TagProps.

Context {M : Type} `{NotmuchMessage M}.

(** X3: [update_tags] on a string of tags separated by single spaces, or
    by single commas, applies the tags one after the other, from left to
    right, between one freeze and one thaw of the message, and answers 0:
    a tag behind [-] is removed, one behind [!] is removed when the message
    has it and added when not, any other is added, without its [+] when it
    has one. *)
Theorem update_tags_applies_in_order (msg : M) (sep : ascii) (ts : list (list ascii))
  (Hts : Forall tag_ok ts)
  (Hne : ts <> [])
  (Hsep : separator sep) :
  update_tags msg (Some (tag_string sep ts)) =
    (0, notmuch_message_thaw
          (foldl (fun m t => apply_tag t m) (notmuch_message_freeze msg) ts)) /\
  (forall t m, apply_tag ("-"%char :: t) m = notmuch_message_remove_tag t m) /\
  (forall t m, apply_tag ("+"%char :: t) m = notmuch_message_add_tag t m) /\
  (forall t m, apply_tag ("!"%char :: t) m =
     if nm_message_has_tag m t then notmuch_message_remove_tag t m
     else notmuch_message_add_tag t m) /\
  (forall c t m, c <> "-"%char -> c <> "+"%char -> c <> "!"%char ->
     apply_tag (c :: t) m = notmuch_message_add_tag (c :: t) m).
Proof.
  split; [|split; [|split; [|split]]]; try reflexivity.
  - unfold update_tags.
    pose proof (tag_string_nonempty sep ts Hts Hne) as Hs.
    destruct (tag_string sep ts) as [|c r] eqn:Es; [contradiction|].
    cbn [mutt_str_strdup]. rewrite <- Es.
    rewrite tag_loop_tag_string by assumption. reflexivity.
  - intros c t m H1 H2 H3. unfold apply_tag.
    destruct c as [[] [] [] [] [] [] [] []]; try reflexivity; congruence.
Qed.

(** X4: where [update_tags] gives up.  An empty tag, that is a comma where
    a tag should start, ends the run: the tags before it are applied and
    whatever follows it is left unread.  White space in front of that
    comma is skipped.  The empty string and NULL are answered with -1 and
    leave the message as it is, neither frozen nor thawed. *)
Theorem update_tags_stops_at_empty_tag (msg : M) (sep : ascii) (ts : list (list ascii))
    (ws rest : list ascii)
  (Hts : Forall tag_ok ts)
  (Hsep : separator sep)
  (Hws : Forall (fun c => isspace c = true) ws) :
  update_tags msg (Some (terminated sep ts ++ ws ++ ","%char :: rest)) =
    (0, notmuch_message_thaw
          (foldl (fun m t => apply_tag t m) (notmuch_message_freeze msg) ts)) /\
  update_tags msg (Some []) = (-1, msg) /\
  update_tags msg None = (-1, msg).
Proof.
  split; [|split; reflexivity].
  unfold update_tags.
  destruct (terminated sep ts ++ ws ++ ","%char :: rest) as [|c r] eqn:Es.
  { exfalso. destruct (terminated sep ts); [destruct ws|]; discriminate. }
  cbn [mutt_str_strdup]. rewrite <- Es.
  rewrite tag_loop_terminated by assumption.
  rewrite tag_loop_skip by exact Hws. reflexivity.
Qed.

End TagProps.

Section FlagProps.

Context {Email : Type} (mutt_set_flag : Mbox.FlagKind -> bool -> Email -> Email).

Lemma apply_flag_toggle (t : list ascii) (e : Email) :
  apply_flag mutt_set_flag ("!"%char :: t) e = e.
Proof. reflexivity. Qed.

(** X5: [update_email_flags] has no toggle.  A string of tags that all
    start with [!], separated by single spaces or by single commas, is
    answered with 0 and leaves the message as it is, whatever the tags
    are: [mutt_set_flag] is not called, for [!unread], [!replied] and
    [!flagged] no more than for any other. *)
Theorem update_email_flags_ignores_toggles (e : Email) (sep : ascii)
    (ts : list (list ascii))
  (Hts : Forall tag_ok ts)
  (Hne : ts <> [])
  (Hsep : separator sep)
  (Hbang : Forall (fun t => head t = Some "!"%char) ts) :
  update_email_flags mutt_set_flag e (Some (tag_string sep ts)) = (0, e).
Proof.
  unfold update_email_flags.
  pose proof (tag_string_nonempty sep ts Hts Hne) as Hs.
  destruct (tag_string sep ts) as [|c r] eqn:Es; [contradiction|].
  cbn [mutt_str_strdup]. rewrite <- Es.
  rewrite tag_loop_tag_string by assumption. f_equal.
  clear Hts Hne Hs Es. induction Hbang as [|t ts Ht _ IH]; [reflexivity|].
  cbn [foldl]. destruct t as [|c0 t]; [discriminate|]. injection Ht as ->.
  rewrite apply_flag_toggle. exact IH.
Qed.

End FlagProps.


(** *** Renaming a Maildir file *)

Section RenameProps.

Context {Email : Type} (e_read e_old : Email -> bool)
  (maildir_gen_flags : nat -> Email -> list ascii)
  (rename_fails : list ascii -> list ascii -> bool).

(** X6: the new name of a Maildir file.  For [old] of the form
    dir/sub/name or dir/sub/name:flags, short enough for the buffers, the
    name [rename_maildir_filename] builds keeps [dir] and [name], puts the
    file under cur when the message is read or old and under new when it is
    neither, and replaces the flags by those [maildir_gen_flags] writes.
    The answer is 1, and nothing is renamed, when this is the name the file
    has; else it is what [rename(2)] makes of it, 0 or -1. *)
Theorem rename_maildir_filename_target (dir sub name rest : list ascii) (buflen : nat)
    (e : Email)
  (Hsub : "/"%char ∉ sub)
  (Hname : ("/"%char ∉ name) /\ (":"%char ∉ name))
  (Hrest : ("/"%char ∉ rest) /\ (rest = [] \/ head rest = Some ":"%char))
  (Hold : (length (dir ++ "/"%char :: sub ++ "/"%char :: name ++ rest) < PATH_MAX)%nat)
  (Hbuf : (length (dir ++ "/"%char ::
             list_ascii_of_string (if e_read e || e_old e then "cur" else "new") ++
             "/"%char :: name ++ maildir_gen_flags PATH_MAX e) < buflen)%nat) :
  let old := dir ++ "/"%char :: sub ++ "/"%char :: name ++ rest in
  let new := dir ++ "/"%char ::
             list_ascii_of_string (if e_read e || e_old e then "cur" else "new") ++
             "/"%char :: name ++ maildir_gen_flags PATH_MAX e in
  rename_maildir_filename e_read e_old maildir_gen_flags rename_fails old buflen e =
    (if bool_decide (old = new) then 1 else if rename_fails old new then -1 else 0, new).
Proof.
  intros old new. unfold rename_maildir_filename.
  destruct Hname as [Hn1 Hn2]. destruct Hrest as [Hr1 Hr2].
  assert (Hcopy : mutt_str_strfcpy old PATH_MAX = old).
  { unfold mutt_str_strfcpy. apply take_ge. subst old. lia. }
  rewrite Hcopy.
  assert (Hlast : strrchr old "/" = Some (length (dir ++ "/"%char :: sub))).
  { subst old. replace (dir ++ "/"%char :: sub ++ "/"%char :: name ++ rest)
      with ((dir ++ "/"%char :: sub) ++ "/"%char :: (name ++ rest))
      by (rewrite <- app_assoc; reflexivity).
    apply strrchr_app. intros Hin. apply elem_of_app in Hin as [Hin|Hin]; contradiction. }
  rewrite Hlast.
  assert (Hfolder : take (length (dir ++ "/"%char :: sub)) old = dir ++ "/"%char :: sub).
  { subst old. replace (dir ++ "/"%char :: sub ++ "/"%char :: name ++ rest)
      with ((dir ++ "/"%char :: sub) ++ "/"%char :: (name ++ rest))
      by (rewrite <- app_assoc; reflexivity).
    apply take_app_length. }
  assert (Hfile : drop (S (length (dir ++ "/"%char :: sub))) old = name ++ rest).
  { subst old. replace (dir ++ "/"%char :: sub ++ "/"%char :: name ++ rest)
      with ((dir ++ ["/"%char] ++ sub ++ ["/"%char]) ++ (name ++ rest))
      by (rewrite <- !app_assoc; reflexivity).
    apply drop_app_length'. rewrite !length_app. cbn. lia. }
  rewrite Hfolder, Hfile.
  assert (Hcopy2 : mutt_str_strfcpy (name ++ rest) PATH_MAX = name ++ rest).
  { unfold mutt_str_strfcpy. apply take_ge.
    repeat (rewrite !length_app in Hold || (progress cbn [length] in Hold)).
    rewrite length_app. lia. }
  rewrite Hcopy2.
  rewrite (strrchr_app dir sub "/"%char Hsub), take_app_length.
  assert (Hcolon : match strchr (name ++ rest) ":" with
                   | Some i => take i (name ++ rest)
                   | None => name ++ rest
                   end = name).
  { destruct Hr2 as [->|Hh].
    - rewrite app_nil_r. rewrite strchr_None by exact Hn2. reflexivity.
    - destruct rest as [|c rest']; [discriminate|]. cbn in Hh. injection Hh as ->.
      rewrite strchr_app by exact Hn2. apply take_app_length. }
  rewrite Hcolon.
  assert (Hprint : snprintf_bytes buflen
            (dir ++ list_ascii_of_string "/" ++
             list_ascii_of_string (if e_read e || e_old e then "cur" else "new") ++
             list_ascii_of_string "/" ++ name ++ maildir_gen_flags PATH_MAX e) = new).
  { unfold snprintf_bytes. subst new.
    change (list_ascii_of_string "/" ++ ?x) with ("/"%char :: x).
    apply take_ge. lia. }
  rewrite Hprint.
  destruct (bool_decide (old = new)); [reflexivity|].
  destruct (rename_fails old new); reflexivity.
Qed.

End RenameProps.

(** *** The tag and file name functions on sample messages *)

Lemma get_folder_from_path_is_prefix_witness :
  (exists rest, bytes "/m/inbox/new/17.host" = bytes "/m/inbox" ++ rest /\
                (4 <= length rest)%nat) /\
  last (bytes "/m/inbox") <> Some "/"%char /\
  "/"%char ∈ bytes "/m/inbox/new/17.host".
Proof.
  assert (Hf : get_folder_from_path (bytes "/m/inbox/new/17.host") = Some (bytes "/m/inbox"))
    by (vm_compute; reflexivity).
  exact (get_folder_from_path_is_prefix (bytes "/m/inbox/new/17.host") (bytes "/m/inbox") Hf).
Defined.

(** [tag_ok] as a test. *)
Definition tag_okb (t : list ascii) : bool :=
  forallb (fun c => negb (Ascii.eqb c ","%char || Ascii.eqb c " "%char)) t &&
  match t with
  | c :: _ => negb (isspace c)
  | [] => false
  end.

Lemma tag_okb_ok (t : list ascii) : tag_okb t = true -> tag_ok t.
Proof.
  unfold tag_okb. intros [Hall Hhd]%andb_true_iff. split.
  - intros c Hin Hsep. rewrite forallb_forall in Hall.
    apply list_elem_of_In in Hin. specialize (Hall c Hin).
    apply separator_eqb in Hsep. rewrite Hsep in Hall. discriminate.
  - destruct t as [|c r]; [discriminate|]. exists c, r. split; [reflexivity|].
    apply negb_true_iff. exact Hhd.
Qed.

Lemma tags_okb_ok (ts : list (list ascii)) : forallb tag_okb ts = true -> Forall tag_ok ts.
Proof.
  intros Hall. apply Forall_forall. intros t Hin. apply tag_okb_ok.
  rewrite forallb_forall in Hall. apply Hall, list_elem_of_In, Hin.
Qed.

Lemma sample_tags_ok : Forall tag_ok [bytes "-unread"; bytes "!inbox"; bytes "+work"; bytes "todo"].
Proof.
  apply tags_okb_ok. vm_compute. reflexivity.
Qed.

Lemma update_tags_applies_in_order_witness :
  update_tags sample_msg (Some (bytes "-unread !inbox +work todo")) =
    (0, mkSampleMessage [bytes "work"; bytes "todo"] 1 1).
Proof.
  assert (Hne : [bytes "-unread"; bytes "!inbox"; bytes "+work"; bytes "todo"] <> [])
    by discriminate.
  assert (Hsep : separator " "%char) by (right; reflexivity).
  change (bytes "-unread !inbox +work todo")
    with (tag_string " "%char [bytes "-unread"; bytes "!inbox"; bytes "+work"; bytes "todo"]).
  rewrite (proj1 (update_tags_applies_in_order sample_msg " "%char
                    [bytes "-unread"; bytes "!inbox"; bytes "+work"; bytes "todo"]
                    sample_tags_ok Hne Hsep)).
  vm_compute. reflexivity.
Defined.
Lemma update_tags_stops_at_empty_tag_witness :
  update_tags sample_msg (Some (bytes "+work,-unread, ,todo")) =
    (0, mkSampleMessage [bytes "inbox"; bytes "work"] 1 1) /\
  update_tags sample_msg (Some []) = (-1, sample_msg) /\
  update_tags sample_msg None = (-1, sample_msg).
Proof.
  assert (Hts : Forall tag_ok [bytes "+work"; bytes "-unread"])
    by (apply tags_okb_ok; vm_compute; reflexivity).
  assert (Hsep : separator ","%char) by (left; reflexivity).
  assert (Hws : Forall (fun c => isspace c = true) [" "%char])
    by (constructor; [reflexivity|constructor]).
  destruct (update_tags_stops_at_empty_tag sample_msg ","%char
              [bytes "+work"; bytes "-unread"] [" "%char] (bytes "todo") Hts Hsep Hws)
    as (Hrun & Hempty & Hnull).
  split; [|split; [exact Hempty|exact Hnull]].
  change (bytes "+work,-unread, ,todo")
    with (terminated ","%char [bytes "+work"; bytes "-unread"] ++
          [" "%char] ++ ","%char :: bytes "todo").
  rewrite Hrun. vm_compute. reflexivity.
Defined.

Lemma update_email_flags_ignores_toggles_witness :
  update_email_flags sample_set_flag sample_email (Some (bytes "!unread !flagged")) =
    (0, sample_email).
Proof.
  assert (Hts : Forall tag_ok [bytes "!unread"; bytes "!flagged"])
    by (apply tags_okb_ok; vm_compute; reflexivity).
  assert (Hne : [bytes "!unread"; bytes "!flagged"] <> []) by discriminate.
  assert (Hsep : separator " "%char) by (right; reflexivity).
  assert (Hbang : Forall (fun t => head t = Some "!"%char) [bytes "!unread"; bytes "!flagged"])
    by (repeat constructor).
  exact (update_email_flags_ignores_toggles sample_set_flag sample_email " "%char
           [bytes "!unread"; bytes "!flagged"] Hts Hne Hsep Hbang).
Defined.

Lemma not_in_bytes (c : ascii) (l : list ascii) :
  forallb (fun x => negb (Ascii.eqb x c)) l = true -> c ∉ l.
Proof.
  intros Hall Hin. rewrite forallb_forall in Hall.
  apply list_elem_of_In in Hin. specialize (Hall c Hin).
  rewrite Ascii.eqb_refl in Hall. discriminate.
Qed.

Lemma rename_maildir_filename_target_witness :
  rename_maildir_filename se_read se_old sample_gen_flags (fun _ _ => false)
    (bytes "/m/inbox/new/17.host:2,F") 256 sample_email
  = (0, bytes "/m/inbox/cur/17.host:2,FS").
Proof.
  assert (Hsub : "/"%char ∉ bytes "new") by (apply not_in_bytes; reflexivity).
  assert (Hname : ("/"%char ∉ bytes "17.host") /\ (":"%char ∉ bytes "17.host"))
    by (split; apply not_in_bytes; reflexivity).
  assert (Hrest : ("/"%char ∉ bytes ":2,F") /\
                  (bytes ":2,F" = [] \/ head (bytes ":2,F") = Some ":"%char))
    by (split; [apply not_in_bytes; reflexivity|right; reflexivity]).
  assert (Hold : (length (bytes "/m/inbox" ++ "/"%char :: bytes "new" ++
                            "/"%char :: bytes "17.host" ++ bytes ":2,F") < PATH_MAX)%nat)
    by (vm_compute; lia).
  assert (Hbuf : (length (bytes "/m/inbox" ++ "/"%char ::
                    list_ascii_of_string
                      (if se_read sample_email || se_old sample_email then "cur" else "new") ++
                    "/"%char :: bytes "17.host" ++ sample_gen_flags PATH_MAX sample_email)
                  < 256)%nat)
    by (vm_compute; lia).
  exact (rename_maildir_filename_target se_read se_old sample_gen_flags (fun _ _ => false)
           (bytes "/m/inbox") (bytes "new") (bytes "17.host") (bytes ":2,F") 256
           sample_email Hsub Hname Hrest Hold Hbuf).
Defined.

End NotmuchMessagesProps.

(** * Properties of the Notmuch queries *)

Module NotmuchQueryProps.
Import Notmuch NotmuchSample.

(** X7: the two names of a query type.  [string_to_query_type] reads back
    what [query_type_to_string] writes; read and written again, a string
    comes back as it was exactly when it is one of the two names, and NULL
    and every other string are read as the type of messages. *)
Theorem query_type_round_trip (t : NmQueryType) (s : string) :
  string_to_query_type (Some (NotmuchMessages.query_type_to_string t)) = t /\
  (NotmuchMessages.query_type_to_string (string_to_query_type (Some s)) = s <->
   s = "threads"%string \/ s = "messages"%string) /\
  (s <> "threads"%string -> string_to_query_type (Some s) = NM_QUERY_TYPE_MESGS) /\
  string_to_query_type None = NM_QUERY_TYPE_MESGS.
Proof.
  split; [destruct t; reflexivity|]. split; [|split; [|reflexivity]].
  - unfold string_to_query_type.
    destruct (String.eqb s "threads") eqn:E1.
    + apply String.eqb_eq in E1. subst s. cbn. split; [auto|reflexivity].
    + destruct (String.eqb s "messages") eqn:E2.
      * apply String.eqb_eq in E2. subst s. cbn. split; [auto|reflexivity].
      * apply String.eqb_neq in E1. apply String.eqb_neq in E2. cbn.
        split; [intros <-; auto|]. intros [->| ->]; congruence.
  - intros Hs. unfold string_to_query_type. apply String.eqb_neq in Hs. rewrite Hs.
    destruct (String.eqb s "messages"); reflexivity.
Qed.

Lemma set_position_same (g : Globals) :
  set_position (NmQueryWindowCurrentPosition g) g = g.
Proof. destruct g; reflexivity. Qed.

Lemma set_position_twice (p q : Z) (g : Globals) :
  set_position p (set_position q g) = set_position p g.
Proof. reflexivity. Qed.

(** X8: backward and forward undo each other.  From a position that is
    not negative and below [INT_MAX], a step backward and then a step
    forward give the globals back as they were; a step forward and then one
    backward do so from every position but 0, where the forward step does
    nothing and the window ends at position 1. *)
Theorem window_backward_forward_inverse (g : Globals)
  (Hpos : 0 <= NmQueryWindowCurrentPosition g < INT_MAX) :
  (g1 ← nm_query_window_backward g; nm_query_window_forward g1) = Some g /\
  (0 < NmQueryWindowCurrentPosition g ->
   (g1 ← nm_query_window_forward g; nm_query_window_backward g1) = Some g) /\
  (NmQueryWindowCurrentPosition g = 0 ->
   (g1 ← nm_query_window_forward g; nm_query_window_backward g1) =
     Some (set_position 1 g)).
Proof.
  set (P := NmQueryWindowCurrentPosition g) in *.
  assert (Hb : nm_query_window_backward g = Some (set_position (P + 1) g)).
  { unfold nm_query_window_backward, int_add. fold P.
    rewrite NotmuchProps.int_of_in_range by (unfold INT_MIN, INT_MAX in *; lia).
    reflexivity. }
  split; [|split].
  - rewrite Hb. cbn [mbind option_bind]. unfold nm_query_window_forward.
    cbn [NmQueryWindowCurrentPosition set_position].
    replace (P + 1 =? 0) with false by (symmetry; apply Z.eqb_neq; lia).
    cbn [negb]. unfold int_sub.
    rewrite NotmuchProps.int_of_in_range by (unfold INT_MIN, INT_MAX in *; lia).
    cbn [mbind option_bind]. rewrite set_position_twice.
    replace (P + 1 - 1) with P by lia. f_equal. apply set_position_same.
  - intros H0. unfold nm_query_window_forward. fold P.
    replace (P =? 0) with false by (symmetry; apply Z.eqb_neq; lia).
    cbn [negb]. unfold int_sub.
    rewrite NotmuchProps.int_of_in_range by (unfold INT_MIN, INT_MAX in *; lia).
    cbn [mbind option_bind]. unfold nm_query_window_backward, int_add.
    cbn [NmQueryWindowCurrentPosition set_position].
    rewrite NotmuchProps.int_of_in_range by (unfold INT_MIN, INT_MAX in *; lia).
    cbn [mbind option_bind]. rewrite set_position_twice.
    replace (P - 1 + 1) with P by lia. f_equal. apply set_position_same.
  - intros H0. unfold nm_query_window_forward. fold P. rewrite H0.
    cbn [Z.eqb negb mbind option_bind]. rewrite Hb, H0. reflexivity.
Qed.

Lemma window_backward_forward_inverse_witness :
  let g := mkGlobals 2 3 (Some "week"%string) (Some "tag:inbox"%string) in
  (g1 ← nm_query_window_backward g; nm_query_window_forward g1) = Some g.
Proof.
  intros g.
  assert (Hpos : 0 <= NmQueryWindowCurrentPosition g < INT_MAX)
    by (unfold INT_MAX; cbn; lia).
  exact (proj1 (window_backward_forward_inverse g Hpos)).
Defined.

(** *** The query string of a mailbox *)

Section QueryString.

Variable mutt_str_atoi : string -> Z -> Z * Z.
Variable NmQueryType_cfg : option string.

(** No item of the list carries a query. *)
Definition no_query (items : list (option string * option string)) : Prop :=
  forall name value, (Some name, Some value) ∈ items -> name <> "query"%string.

Lemma query_item_other (m : NmMboxData) (item : option string * option string) :
  no_query [item] -> db_query (query_item mutt_str_atoi m item) = db_query m.
Proof.
  intros Hn. destruct item as [[name|] [value|]]; try reflexivity.
  unfold query_item.
  destruct (String.eqb name "limit"); [reflexivity|].
  destruct (String.eqb name "type"); [reflexivity|].
  destruct (String.eqb name "query") eqn:Eq; [|reflexivity].
  apply String.eqb_eq in Eq. exfalso. apply (Hn name value); [left|exact Eq].
Qed.

Lemma fold_query_item_other (items : list (option string * option string)) :
  forall m, no_query items ->
  db_query (fold_left (query_item mutt_str_atoi) items m) = db_query m.
Proof.
  induction items as [|item items IH]; intros m Hn; [reflexivity|].
  cbn [fold_left]. rewrite IH.
  - apply query_item_other. intros name value Hin.
    apply list_elem_of_singleton in Hin. apply (Hn name value). rewrite <- Hin. left.
  - intros name value Hin. apply (Hn name value). right. exact Hin.
Qed.

Lemma fold_query_item_query (pre post : list (option string * option string))
    (q : string) (m : NmMboxData) :
  no_query post ->
  db_query (fold_left (query_item mutt_str_atoi)
              (pre ++ (Some "query"%string, Some q) :: post) m)
  = mutt_str_strdup (Some q).
Proof.
  intros Hn. rewrite fold_left_app. cbn [fold_left].
  rewrite fold_query_item_other by exact Hn. reflexivity.
Qed.

Lemma snprintf_date_nonempty (rest : string) :
  mutt_str_strdup (Some (snprintf LONG_STRING ("date:" +:+ rest))) =
  Some (snprintf LONG_STRING ("date:" +:+ rest)).
Proof. reflexivity. Qed.

(** The query [q] of a mailbox read for the first time: its URL has the
    item [query=q], no later item of that name, and no query is stored. *)
Definition fresh_query (mdata : NmMboxData) (q : string) : Prop :=
  db_query mdata = None /\ q <> ""%string /\
  exists pre post,
    query_strings mdata = pre ++ (Some "query"%string, Some q) :: post /\
    no_query post.

Lemma fresh_query_fold (mdata : NmMboxData) (q : string) :
  fresh_query mdata q ->
  db_query
    (fold_left (query_item mutt_str_atoi) (query_strings mdata)
       {| db_query := db_query mdata; db_limit := db_limit mdata;
          query_type := string_to_query_type NmQueryType_cfg;
          query_strings := query_strings mdata |}) = Some q.
Proof.
  intros (_ & Hq & pre & post & Hitems & Hn). rewrite Hitems.
  rewrite fold_query_item_query by exact Hn.
  destruct q; [contradiction|reflexivity].
Qed.

(** X9: the window of a mailbox read for the first time.  With a positive
    duration [D], a valid timebase [T] and the stored position [P], the
    query [q] of the mailbox, when it has no [date:] of its own, becomes
    [date:<D*(P+1)><T>..<D*P><T> and q], open-ended at position 0, cut to
    the buffer of [LONG_STRING] bytes; it is stored as the query of the
    mailbox and registered as the current search.  The position is the one
    stored, whatever search was registered before, and it stays. *)
Theorem get_query_string_windowed (g : Globals) (mdata : NmMboxData) (q tb : string)
  (Hfresh : fresh_query mdata q)
  (Hdate : strstr q "date:" = false)
  (HD : 0 < NmQueryWindowDuration g)
  (HP : 0 <= NmQueryWindowCurrentPosition g)
  (Hmax : NmQueryWindowDuration g * (NmQueryWindowCurrentPosition g + 1) <= INT_MAX)
  (Htb : NmQueryWindowTimebase g = Some tb)
  (Hok : query_window_check_timebase tb = true) :
  let D := NmQueryWindowDuration g in
  let P := NmQueryWindowCurrentPosition g in
  let w := snprintf LONG_STRING
             ("date:" +:+ fmt_d (D * (P + 1)) +:+ tb +:+
              (if P =? 0 then ".. and " +:+ q
               else ".." +:+ fmt_d (D * P) +:+ tb +:+ " and " +:+ q)) in
  exists mdata',
    get_query_string mutt_str_atoi NmQueryType_cfg g mdata true =
      Some (set_search (Some q) g, mdata', Some w) /\
    db_query mdata' = Some w /\
    NmQueryWindowCurrentPosition (set_search (Some q) g) = P.
Proof.
  intros D P w. pose proof (fresh_query_fold mdata q Hfresh) as Hfold.
  destruct Hfresh as (Hnone & Hq & _).
  unfold get_query_string. cbv zeta. rewrite Hnone in Hfold |- *.
  set (mdata1 := fold_left _ _ _) in *. rewrite Hfold.
  rewrite Hdate. cbn [negb].
  assert (Hdup : mutt_str_replace (Some q) = Some q) by (destruct q; [contradiction|reflexivity]).
  rewrite Hdup.
  rewrite (NotmuchProps.windowed_query_registered_search (set_search (Some q) g) q tb
             LONG_STRING HD HP Hmax Htb Hok eq_refl).
  cbn [mbind option_bind NmQueryWindowDuration NmQueryWindowCurrentPosition set_search].
  fold D P.
  assert (Hw : (if P =? 0
                then "date:" +:+ fmt_d (D * (P + 1)) +:+ tb +:+ ".. and " +:+ q
                else "date:" +:+ fmt_d (D * (P + 1)) +:+ tb +:+ ".." +:+
                     fmt_d (D * P) +:+ tb +:+ " and " +:+ q) =
               "date:" +:+ fmt_d (D * (P + 1)) +:+ tb +:+
               (if P =? 0 then ".. and " +:+ q
                else ".." +:+ fmt_d (D * P) +:+ tb +:+ " and " +:+ q)).
  { destruct (P =? 0); reflexivity. }
  rewrite Hw. fold w.
  exists (set_db_query (mutt_str_strdup (Some w)) mdata1).
  subst w. rewrite snprintf_date_nonempty. split; [reflexivity|]. split; reflexivity.
Qed.

(** X10: a query is worked out once.  When [get_query_string] has
    answered with a query, every later call on the mailbox data it left
    answers with the same query and changes nothing, whatever the window
    is by then and whether a window is asked for or not. *)
Theorem get_query_string_cached (g g' : Globals) (mdata mdata' : NmMboxData)
    (window : bool) (q : string)
  (Hrun : get_query_string mutt_str_atoi NmQueryType_cfg g mdata window =
            Some (g', mdata', Some q)) :
  db_query mdata' = Some q /\
  forall g2 window2,
    get_query_string mutt_str_atoi NmQueryType_cfg g2 mdata' window2 =
      Some (g2, mdata', Some q).
Proof.
  assert (Hq : db_query mdata' = Some q).
  { unfold get_query_string in Hrun.
    destruct (db_query mdata) as [q0|] eqn:E0.
    { inversion Hrun; subst. exact E0. }
    set (mdata1 := fold_left _ _ _) in *.
    destruct (db_query mdata1) as [q1|] eqn:E1; [|discriminate].
    destruct window; [|inversion Hrun; subst; exact E1].
    destruct (negb (strstr q1 "date:")); [|inversion Hrun; subst; exact E1].
    destruct (windowed_query_from_query _ _ _) as [[g2 [buf|]]|]; cbn in Hrun;
      [|inversion Hrun; subst; exact E1|discriminate].
    inversion Hrun; subst. reflexivity. }
  split; [exact Hq|]. intros g2 window2. unfold get_query_string. rewrite Hq. reflexivity.
Qed.

(** X11: the queries that get no window.  Asked without a window,
    [get_query_string] answers with the query of the URL and leaves the
    globals alone; asked with one for a query that has a [date:] of its
    own, it answers with the query as it is and only registers it as the
    current search, the position staying where it was; and a mailbox
    with no stored query and no query item in its URL is answered with
    NULL either way. *)
Theorem get_query_string_without_window (g : Globals) (mdata : NmMboxData) (q : string)
  (Hfresh : fresh_query mdata q) :
  (exists mdata',
     get_query_string mutt_str_atoi NmQueryType_cfg g mdata false =
       Some (g, mdata', Some q) /\ db_query mdata' = Some q) /\
  (strstr q "date:" = true ->
   exists mdata',
     get_query_string mutt_str_atoi NmQueryType_cfg g mdata true =
       Some (set_search (Some q) g, mdata', Some q) /\ db_query mdata' = Some q) /\
  (forall m window, db_query m = None -> no_query (query_strings m) ->
   exists m',
     get_query_string mutt_str_atoi NmQueryType_cfg g m window = Some (g, m', None)).
Proof.
  pose proof (fresh_query_fold mdata q Hfresh) as Hfold.
  destruct Hfresh as (Hnone & Hq & _).
  split; [|split].
  - unfold get_query_string. cbv zeta. rewrite Hnone in Hfold |- *.
    set (mdata1 := fold_left _ _ _) in *.
    rewrite Hfold. exists mdata1. split; [reflexivity|exact Hfold].
  - intros Hdate. unfold get_query_string. cbv zeta. rewrite Hnone in Hfold |- *.
    set (mdata1 := fold_left _ _ _) in *. rewrite Hfold, Hdate. cbn [negb].
    assert (Hdup : mutt_str_replace (Some q) = Some q)
      by (destruct q; [contradiction|reflexivity]).
    rewrite Hdup. exists mdata1. split; [reflexivity|exact Hfold].
  - intros m window Hm Hn. unfold get_query_string. cbv zeta. rewrite Hm.
    rewrite fold_query_item_other by exact Hn. cbn [db_query].
    eexists. reflexivity.
Qed.

End QueryString.

(** *** The query string of a sample URL *)

Lemma sample_url_fresh : fresh_query sample_url "tag:inbox".
Proof.
  split; [reflexivity|]. split; [discriminate|].
  exists [(Some "limit", Some "50")]%string, [(Some "type", Some "threads")]%string.
  split; [reflexivity|].
  intros name value Hin. apply list_elem_of_singleton in Hin. inversion Hin. discriminate.
Qed.

Lemma get_query_string_windowed_witness :
  exists mdata',
    get_query_string sample_atoi None
      (mkGlobals 2 3 (Some "week"%string) (Some "tag:archived"%string)) sample_url true =
      Some (mkGlobals 2 3 (Some "week"%string) (Some "tag:inbox"%string), mdata',
            Some "date:8week..6week and tag:inbox"%string) /\
    db_query mdata' = Some "date:8week..6week and tag:inbox"%string.
Proof.
  destruct (get_query_string_windowed sample_atoi None
              (mkGlobals 2 3 (Some "week"%string) (Some "tag:archived"%string))
              sample_url "tag:inbox" "week" sample_url_fresh)
    as (mdata' & Hrun & Hq & _);
    try reflexivity; try (unfold INT_MAX; cbn; lia).
  exists mdata'. split; [exact Hrun|exact Hq].
Defined.

Lemma get_query_string_cached_witness :
  exists mdata',
    db_query mdata' = Some "tag:inbox"%string /\
    forall g2 window2,
      get_query_string sample_atoi None g2 mdata' window2 =
        Some (g2, mdata', Some "tag:inbox"%string).
Proof.
  assert (Hrun : exists mdata',
            get_query_string sample_atoi None (mkGlobals 0 0 None None) sample_url false =
              Some (mkGlobals 0 0 None None, mdata', Some "tag:inbox"%string))
    by (eexists; vm_compute; reflexivity).
  destruct Hrun as (mdata' & Hrun). exists mdata'.
  exact (get_query_string_cached sample_atoi None _ _ _ _ _ _ Hrun).
Defined.

Lemma get_query_string_without_window_witness :
  exists mdata',
    get_query_string sample_atoi None (mkGlobals 2 3 (Some "week"%string) None)
      sample_url false =
      Some (mkGlobals 2 3 (Some "week"%string) None, mdata', Some "tag:inbox"%string) /\
    db_query mdata' = Some "tag:inbox"%string.
Proof.
  exact (proj1 (get_query_string_without_window sample_atoi None
                  (mkGlobals 2 3 (Some "week"%string) None) sample_url "tag:inbox"
                  sample_url_fresh)).
Defined.

End NotmuchQueryProps.

(** * Properties of the mbox file type *)

Module MboxFilesProps.
Import Mbox MboxFiles.

Definition blank (c : ascii) : Prop := c = nl \/ c = "013"%char.

Lemma blank_eqb (c : ascii) :
  negb (Ascii.eqb c nl) && negb (Ascii.eqb c "013"%char) = false <-> blank c.
Proof.
  unfold blank. rewrite andb_false_iff, !negb_false_iff, !Ascii.eqb_eq. reflexivity.
Qed.

Lemma skip_blank_app (blanks data : list ascii) :
  Forall blank blanks -> skip_blank (blanks ++ data) = skip_blank data.
Proof.
  induction 1 as [|c blanks Hc _ IH]; [reflexivity|].
  cbn [app skip_blank]. rewrite (proj2 (blank_eqb c) Hc). exact IH.
Qed.

(** What is left starts with a byte that is no newline and no carriage
    return, or is empty. *)
Lemma skip_blank_head (data : list ascii) :
  match skip_blank data with
  | [] => Forall blank data
  | c :: _ => ~ blank c
  end.
Proof.
  induction data as [|c data IH]; cbn [skip_blank]; [constructor|].
  destruct (negb (Ascii.eqb c nl) && negb (Ascii.eqb c "013"%char)) eqn:Ec.
  - intros Hb. apply blank_eqb in Hb. congruence.
  - apply blank_eqb in Ec. destruct (skip_blank data); [constructor; assumption|exact IH].
Qed.

Lemma cstr_prefix (l : list ascii) : exists r, l = cstr l ++ r.
Proof.
  induction l as [|c l [r IH]]; [exists []; reflexivity|].
  cbn [cstr]. destruct (Ascii.eqb c NUL); [exists (c :: l); reflexivity|].
  exists r. cbn. f_equal. exact IH.
Qed.

Lemma read_line_prefix (k : nat) : forall l : list ascii, exists r, l = read_line k l ++ r.
Proof.
  induction k as [|k IH]; intros l; [exists l; reflexivity|].
  destruct l as [|c l]; [exists []; reflexivity|]. cbn [read_line].
  destruct (Ascii.eqb c nl); [exists l; reflexivity|].
  destruct (IH l) as [r Hr]. exists r. cbn. f_equal. exact Hr.
Qed.

(** The line [fgets] reads into a buffer of [STRING] bytes starts with the
    literal exactly when the stream does. *)
Lemma first_line_literal (lit d : list ascii) :
  length lit = 5%nat ->
  take 5 (cstr (read_line (STRING - 1) d)) = lit -> take 5 d = lit.
Proof.
  intros Hlen Ht.
  destruct (read_line_prefix (STRING - 1) d) as [r1 H1].
  destruct (cstr_prefix (read_line (STRING - 1) d)) as [r2 H2].
  set (line := read_line (STRING - 1) d) in *.
  assert (Hc : cstr line = lit ++ drop 5 (cstr line)).
  { rewrite <- Ht at 1. symmetry. apply take_drop. }
  rewrite H1, H2, Hc, <- !app_assoc.
  apply take_app_length'. symmetry. exact Hlen.
Qed.

Lemma starts_with_From_line (d : list ascii) :
  starts_with_From (read_line (STRING - 1) d) = bool_decide (take 5 d = From_).
Proof.
  unfold starts_with_From. apply bool_decide_ext. split.
  - apply first_line_literal. reflexivity.
  - intros Ht. rewrite <- (take_drop 5 d), Ht. reflexivity.
Qed.

Lemma MMDF_SEP_line (d : list ascii) :
  str_equal MMDF_SEP (read_line (STRING - 1) d) = bool_decide (take 5 d = MMDF_SEP).
Proof.
  unfold str_equal. apply bool_decide_ext. split.
  - intros Hc. apply first_line_literal; [reflexivity|]. rewrite <- Hc. reflexivity.
  - intros Ht. rewrite <- (take_drop 5 d), Ht. reflexivity.
Qed.

(** The mailbox type read off the first line of a stream. *)
Lemma first_line_magic (data : list ascii) :
  match fgets STRING data 0 with
  | Some (tmp, _) =>
      if starts_with_From tmp then MUTT_MBOX
      else if str_equal MMDF_SEP tmp then MUTT_MMDF
      else MUTT_UNKNOWN
  | None => MUTT_UNKNOWN
  end =
  if bool_decide (take 5 data = From_) then MUTT_MBOX
  else if bool_decide (take 5 data = MMDF_SEP) then MUTT_MMDF
  else MUTT_UNKNOWN.
Proof.
  unfold fgets. change (Z.to_nat 0) with O. rewrite drop_0.
  destruct data as [|c d]; [reflexivity|].
  replace ((0 <? 0) || (Z.of_nat (length (c :: d)) <=? 0)) with false by reflexivity.
  rewrite starts_with_From_line, MMDF_SEP_line. reflexivity.
Qed.

(** X12: the type [mbox_path_probe] finds.  For a regular file that can
    be opened, the answer depends on the five bytes that follow the
    leading newlines and carriage returns alone: [From ] makes an mbox,
    the MMDF separator line an MMDF mailbox, anything else, or nothing,
    an unknown file.  The times of the file are put back exactly when
    [$check_mbox_size] is not set: in a build without [HAVE_UTIMENSAT]
    with [utime] and the times of the [stat] result, in a build with it
    with [utimensat] and the two times read at [&st], whatever they are,
    and without a call of [utime]. *)
Theorem mbox_path_probe_type (HAVE_UTIMENSAT : bool) (at_st : Timespec * Timespec)
    (CheckMboxSize : bool) (path : string) (sb : Stat) (data : list ascii) :
  mbox_path_probe HAVE_UTIMENSAT at_st CheckMboxSize (Some path) (Some (true, sb))
    (Some data) =
    (if bool_decide (take 5 (skip_blank data) = From_) then MUTT_MBOX
     else if bool_decide (take 5 (skip_blank data) = MMDF_SEP) then MUTT_MMDF
     else MUTT_UNKNOWN,
     if CheckMboxSize then []
     else if HAVE_UTIMENSAT then [Utimensat (fst at_st) (snd at_st)]
     else [Utime (tv_sec (st_atime sb)) (tv_sec (st_mtime sb))]).
Proof.
  unfold mbox_path_probe. cbn [negb]. rewrite first_line_magic.
  f_equal. destruct CheckMboxSize; reflexivity.
Qed.

(** X13: what [mbox_path_probe] does not look at.  In either build,
    newlines and carriage returns in front of the first line change
    neither the answer nor the call that puts the times back; a file of
    nothing else, or empty, is an unknown file; and a NULL path, a missing
    or non-regular [stat] result or a file that cannot be opened is
    answered with MUTT_UNKNOWN without a call of [utime] or
    [utimensat]. *)
Theorem mbox_path_probe_skips_blank_lines (HAVE_UTIMENSAT : bool)
    (at_st : Timespec * Timespec) (CheckMboxSize : bool) (path : string)
    (sb : Stat) (blanks data : list ascii)
  (Hblanks : Forall blank blanks) :
  let probe := mbox_path_probe HAVE_UTIMENSAT at_st CheckMboxSize in
  probe (Some path) (Some (true, sb)) (Some (blanks ++ data)) =
    probe (Some path) (Some (true, sb)) (Some data) /\
  fst (probe (Some path) (Some (true, sb)) (Some blanks)) = MUTT_UNKNOWN /\
  (forall st file, probe None st file = (MUTT_UNKNOWN, [])) /\
  (forall file, probe (Some path) None file = (MUTT_UNKNOWN, [])) /\
  (forall file, probe (Some path) (Some (false, sb)) file = (MUTT_UNKNOWN, [])) /\
  probe (Some path) (Some (true, sb)) None = (MUTT_UNKNOWN, []).
Proof.
  cbn zeta. split; [|split; [|repeat split]].
  - unfold mbox_path_probe. cbn [negb].
    rewrite skip_blank_app by exact Hblanks. reflexivity.
  - unfold mbox_path_probe. cbn [negb fst]. rewrite first_line_magic.
    rewrite <- (app_nil_r blanks), skip_blank_app by exact Hblanks. reflexivity.
Qed.

(** X13 in both builds, on a file with three blank bytes in front of its
    [From ] line: without [HAVE_UTIMENSAT] the times of the [stat] result
    go to [utime]; with it the times read at [&st] go to [utimensat]. *)
Lemma mbox_path_probe_skips_blank_lines_witness :
  mbox_path_probe false (mkTimespec 31 4, mkTimespec 15 9) false
    (Some "/var/mail/u"%string)
    (Some (true, mkStat 12 (mkTimespec 7 0) (mkTimespec 9 0)))
    (Some ([nl; "013"%char; nl] ++ list_ascii_of_string "From a b"))
    = (MUTT_MBOX, [Utime 7 9]) /\
  mbox_path_probe true (mkTimespec 31 4, mkTimespec 15 9) false
    (Some "/var/mail/u"%string)
    (Some (true, mkStat 12 (mkTimespec 7 0) (mkTimespec 9 0)))
    (Some ([nl; "013"%char; nl] ++ list_ascii_of_string "From a b"))
    = (MUTT_MBOX, [Utimensat (mkTimespec 31 4) (mkTimespec 15 9)]).
Proof.
  assert (Hb : Forall blank [nl; "013"%char; nl]).
  { constructor; [left; reflexivity|]. constructor; [right; reflexivity|].
    constructor; [left; reflexivity|constructor]. }
  split.
  - rewrite (proj1 (mbox_path_probe_skips_blank_lines false
               (mkTimespec 31 4, mkTimespec 15 9) false "/var/mail/u"
               (mkStat 12 (mkTimespec 7 0) (mkTimespec 9 0)) [nl; "013"%char; nl]
               (list_ascii_of_string "From a b") Hb)).
    vm_compute. reflexivity.
  - rewrite (proj1 (mbox_path_probe_skips_blank_lines true
               (mkTimespec 31 4, mkTimespec 15 9) false "/var/mail/u"
               (mkStat 12 (mkTimespec 7 0) (mkTimespec 9 0)) [nl; "013"%char; nl]
               (list_ascii_of_string "From a b") Hb)).
    vm_compute. reflexivity.
Defined.

End MboxFilesProps.

(** * More properties of the mbox engine *)

Module MboxEngineProps.
Import Mbox Sample MboxFiles MboxProps.

Section EngineProps.

Context {C : Collab} (E : Env).

(** *** The stream stays open *)

(** The parsers, the reconciliation and the check never close the stream
    they were given, so the lock they hold can be released. *)
Definition is_open (st : State) : Prop := is_Some (fp st).

Lemma open_eq (st st' : State) : fp st' = fp st -> is_open st -> is_open st'.
Proof. unfold is_open. intros ->. auto. Qed.

Lemma open_fseeko (off : Z) (st st' : State) : fseeko off st = Some st' -> is_open st'.
Proof.
  unfold fseeko. destruct (fp st); [|discriminate]. destruct (off <? 0); [discriminate|].
  intros [= <-]. eexists; reflexivity.
Qed.

Lemma open_fseeko_or_stay (off : Z) (st : State) :
  is_open st -> is_open (fseeko_or_stay off st).
Proof.
  intros Ho. unfold fseeko_or_stay. destruct (fseeko off st) as [s|] eqn:Es; cbn.
  - eapply open_fseeko. exact Es.
  - exact Ho.
Qed.

Lemma open_fgets_fp (n : nat) (st st' : State) (buf : list ascii) :
  fgets_fp n st = Some (buf, st') -> is_open st'.
Proof.
  unfold fgets_fp. destruct (fp st) as [p|]; [|discriminate]. cbn.
  destruct (fgets n (disk st) p); [|discriminate]. cbn. intros [= _ <-].
  eexists; reflexivity.
Qed.

Lemma open_fgetc_n (cl : Z) (st : State) : is_open st -> is_open (fgetc_n cl st).
Proof.
  intros Ho. unfold fgetc_n. destruct (fp st) eqn:Ef; [|exact Ho].
  destruct (_ && _); [eexists; reflexivity|exact Ho].
Qed.

Lemma open_poll (st : State) : is_open st -> is_open (poll_sigint E st).
Proof. apply open_eq. unfold poll_sigint. destruct (sig_arrives E _); reflexivity. Qed.

Lemma open_verify_content_length (st : State) (h : Header) (loc tmploc : Z) :
  is_open st -> is_open (fst (verify_content_length st h loc tmploc)).
Proof.
  intros Ho. unfold verify_content_length.
  assert (Hbad : forall s, is_open s ->
            is_open (if loc <? 0 then s else fseeko_or_stay loc s)).
  { intros s Hs. destruct (loc <? 0); [exact Hs|apply open_fseeko_or_stay; exact Hs]. }
  destruct ((0 <? tmploc) && (tmploc <? size st)).
  - destruct (fseeko tmploc st) as [st_s|] eqn:Es; [|apply Hbad; exact Ho].
    apply open_fseeko in Es.
    destruct (fgets_fp HUGE_STRING st_s) as [[buf st_r]|] eqn:Eg; [|apply Hbad; exact Es].
    apply open_fgets_fp in Eg.
    destruct (starts_with_From buf); [exact Eg|apply Hbad; exact Eg].
  - destruct (negb (tmploc =? size st)); exact Ho.
Qed.

Lemma open_skip_body (st1 : State) (h1 : Header) (loc tmploc : Z) :
  is_open st1 -> is_open (fst (skip_body st1 h1 loc tmploc)).
Proof.
  intros Ho. unfold skip_body. destruct (negb (c_length h1 =? -1)); [|exact Ho].
  destruct (lines h1 =? 0); cbn [fst]; apply open_fseeko_or_stay; [|exact Ho].
  apply open_fgetc_n. destruct (loc <? 0); [exact Ho|apply open_fseeko_or_stay; exact Ho].
Qed.

Lemma open_check_content_length (st : State) (h : Header) :
  is_open st -> is_open (fst (check_content_length st h)).
Proof.
  intros Ho. unfold check_content_length. destruct (0 <? c_length h); [|exact Ho].
  pose proof (open_verify_content_length st h (ftello st)
    (if c_length h <? size st then ftello st + c_length h + 1 else -1) Ho) as Hv.
  destruct (verify_content_length st h _ _) as [st1 h1]. cbn [fst] in Hv.
  apply open_skip_body. exact Hv.
Qed.

Lemma open_mbox_new_message (st : State) (rp : string) (t count lines_seen loc : Z) :
  is_open (mbox_new_message st rp t count lines_seen loc).
Proof.
  unfold mbox_new_message.
  set (st1 := if 0 <? count then finish_previous loc lines_seen st else st).
  destruct (mutt_rfc822_read_header _ _ _) as [curhdr1 pos].
  pose proof (open_check_content_length (set_fp (Some pos) st1) curhdr1
                ltac:(eexists; reflexivity)) as Hc.
  destruct (check_content_length (set_fp (Some pos) st1) curhdr1) as [st3 curhdr2].
  exact Hc.
Qed.

Lemma open_mbox_parse_loop (fuel : nat) : forall (st : State) (count lines_seen loc : Z)
    (st' : State) (count' lines' : Z),
  is_open st ->
  mbox_parse_loop E fuel st count lines_seen loc = Some (st', count', lines') ->
  is_open st'.
Proof.
  induction fuel as [|fuel IH]; intros st count lines_seen loc st' count' lines' Ho;
    cbn [mbox_parse_loop]; [discriminate|].
  destruct (fgets_fp HUGE_STRING st) as [[buf st1]|] eqn:Eg.
  2:{ intros [= <- _ _]. exact Ho. }
  apply open_fgets_fp in Eg. apply open_poll in Eg.
  destruct (SigInt (poll_sigint E st1) =? 1); [intros [= <- _ _]; exact Eg|].
  destruct (is_from buf) as [[rp t]|].
  - apply IH. apply open_mbox_new_message.
  - apply IH. exact Eg.
Qed.

Lemma open_mbox_parse_mailbox (fuel : nat) (st : State) (rc : Z) (st' : State) :
  is_open st -> mbox_parse_mailbox E fuel st = Some (rc, st') -> is_open st'.
Proof.
  intros Ho. unfold mbox_parse_mailbox. destruct (fails E AtParseStat).
  { intros [= _ <-]. exact Ho. }
  set (st1 := set_atime _ (set_mtime _ (set_size _ st))).
  set (st2 := if negb (readonly st1) then set_readonly (fails E AtAccess) st1 else st1).
  assert (H2 : is_open st2) by (subst st2 st1; destruct (negb _); exact Ho).
  destruct (mbox_parse_loop E fuel st2 0 0 (ftello st2)) as [[[st3 count] lines_seen]|] eqn:El;
    [|discriminate]. cbn [mbind option_bind].
  apply open_mbox_parse_loop in El; [|exact H2].
  set (st4 := if 0 <? count then finish_previous (ftello st3) lines_seen st3 else st3).
  assert (H4 : is_open st4) by (subst st4; destruct (0 <? count); exact El).
  apply open_poll in H4.
  destruct (SigInt (poll_sigint E st4) =? 1); intros [= _ <-]; exact H4.
Qed.

Lemma open_mmdf_scan (fuel : nat) : forall (st : State) (n : Z) (st' : State) (n' loc : Z),
  is_open st -> mmdf_scan fuel st n = Some (Some (st', n', loc)) -> is_open st'.
Proof.
  induction fuel as [|fuel IH]; intros st n st' n' loc Ho; cbn [mmdf_scan]; [discriminate|].
  destruct (ftello st <? 0); [discriminate|].
  destruct (fgets_fp (HUGE_STRING - 1) st) as [[buf st1]|] eqn:Eg.
  - apply open_fgets_fp in Eg. destruct (str_equal buf MMDF_SEP).
    + intros [= <- _ _]. exact Eg.
    + apply IH. exact Eg.
  - intros [= <- _ _]. exact Ho.
Qed.

Lemma open_mmdf_check_content_length (st : State) (h : Header) (loc : Z) :
  is_open st -> is_open (fst (mmdf_check_content_length st h loc)).
Proof.
  intros Ho. unfold mmdf_check_content_length.
  destruct ((0 <? c_length h) && (0 <? lines h)); [|exact Ho].
  destruct ((0 <? loc + c_length h) && (loc + c_length h <? size st)); [|exact Ho].
  destruct (fseeko (loc + c_length h) st) as [st_s|] eqn:Es;
    [|apply open_fseeko_or_stay; exact Ho].
  apply open_fseeko in Es.
  destruct (fgets_fp (HUGE_STRING - 1) st_s) as [[buf st_r]|] eqn:Eg;
    [|apply open_fseeko_or_stay; exact Es].
  apply open_fgets_fp in Eg.
  destruct (str_equal MMDF_SEP buf); [exact Eg|apply open_fseeko_or_stay; exact Eg].
Qed.

Lemma open_mmdf_message (fuel : nat) (st : State) (r : LoopEnd + State) :
  is_open st -> mmdf_message fuel st = Some r ->
  is_open (match r with inl e => end_state e | inr s => s end).
Proof.
  intros Ho. unfold mmdf_message.
  destruct (ftello st <? 0); [intros [= <-]; exact Ho|].
  destruct (fgets_fp (HUGE_STRING - 1) st) as [[buf st1]|] eqn:Eg;
    [|intros [= <-]; exact Ho].
  apply open_fgets_fp in Eg.
  set (hdr := set_index _ (set_offset _ mutt_header_new)).
  set (positioned := match is_from buf with
                     | Some (rp, t) => _
                     | None => _ end).
  assert (Hpos : match positioned with
                 | Some (st2, _, _) => is_open st2
                 | None => True end).
  { subst positioned. destruct (is_from buf) as [[rp t]|]; [exact Eg|].
    destruct (fseeko (ftello st) st1) as [s|] eqn:Es; cbn; [|exact I].
    eapply open_fseeko. exact Es. }
  destruct positioned as [[[st2 hdr1] rp]|]; [|intros [= <-]; exact Eg].
  destruct (mutt_rfc822_read_header _ _ _) as [hdr2 pos].
  set (st3 := set_fp (Some pos) st2).
  assert (H3 : is_open st3) by (eexists; reflexivity).
  destruct (ftello st3 <? 0); [intros [= <-]; exact H3|].
  pose proof (open_mmdf_check_content_length st3 hdr2 (ftello st3) H3) as H4.
  destruct (mmdf_check_content_length st3 hdr2 (ftello st3)) as [st4 hdr3]. cbn [fst] in H4.
  destruct (c_length hdr3 <? 0).
  - destruct (mmdf_scan fuel st4 (-1)) as [[[[st5 n5] loc5]|]|] eqn:Esc; [| |discriminate].
    + apply open_mmdf_scan in Esc; [|exact H4]. cbn [mbind option_bind].
      intros [= <-]. exact Esc.
    + cbn [mbind option_bind]. intros [= <-]. exact H4.
  - intros [= <-]. exact H4.
Qed.

Lemma open_mmdf_parse_loop (fuel : nat) : forall (st : State) (e : LoopEnd),
  is_open st -> mmdf_parse_loop E fuel st = Some e -> is_open (end_state e).
Proof.
  induction fuel as [|fuel IH]; intros st e Ho; cbn [mmdf_parse_loop]; [discriminate|].
  destruct (fgets_fp (HUGE_STRING - 1) st) as [[buf st1]|] eqn:Eg;
    [|intros [= <-]; exact Ho].
  apply open_fgets_fp in Eg. apply open_poll in Eg.
  destruct (SigInt (poll_sigint E st1) =? 1); [intros [= <-]; exact Eg|].
  destruct (str_equal buf MMDF_SEP); [|intros [= <-]; exact Eg].
  destruct (mmdf_message fuel (poll_sigint E st1)) as [r|] eqn:Em; [|discriminate].
  apply open_mmdf_message in Em; [|exact Eg]. cbn [mbind option_bind].
  destruct r as [e0|s]; [intros [= <-]; exact Em|].
  apply IH. exact Em.
Qed.

Lemma open_mmdf_parse_mailbox (fuel : nat) (st : State) (rc : Z) (st' : State) :
  is_open st -> mmdf_parse_mailbox E fuel st = Some (rc, st') -> is_open st'.
Proof.
  intros Ho. unfold mmdf_parse_mailbox. destruct (fails E AtParseStat).
  { intros [= _ <-]. exact Ho. }
  set (st1 := set_size _ (set_mtime _ (set_atime _ st))).
  destruct (mmdf_parse_loop E fuel st1) as [e|] eqn:El; [|discriminate].
  apply open_mmdf_parse_loop in El; [|exact Ho]. cbn [mbind option_bind].
  destruct e as [rc0 s|s]; cbn [end_state] in El; [intros [= _ <-]; exact El|].
  apply open_poll in El.
  destruct (SigInt (poll_sigint E s) =? 1); intros [= _ <-]; exact El.
Qed.

Lemma open_parse_by_magic (fuel : nat) (st : State) (rc : Z) (st' : State) :
  is_open st -> parse_by_magic E fuel st = Some (rc, st') -> is_open st'.
Proof.
  intros Ho. unfold parse_by_magic. destruct (magic st);
    try (intros [= _ <-]; exact Ho).
  - apply open_mbox_parse_mailbox. exact Ho.
  - apply open_mmdf_parse_mailbox. exact Ho.
Qed.

(** A [reopen_mailbox] that does not answer -1 leaves the stream open. *)
Lemma open_reopen_mailbox (fuel : nat) (st : State) (rc : Z) (st' : State) :
  reopen_mailbox E fuel st = Some (rc, st') -> rc <> -1 -> is_open st'.
Proof.
  intros Hrun Hrc.
  destruct (reopen_mailbox_unfold E fuel st rc st' Hrun Hrc) as (rc0 & st4 & Hp & _ & Hres).
  apply open_parse_by_magic in Hp; [|eexists; reflexivity].
  destruct (negb (readonly st4)).
  - pose proof (cframe_reconcile (length (hdrs st4)) 0 (log EvTouchAtime st4)
                  (reopen_old E st)) as Hc.
    destruct (reconcile _ _ _ _) as [st6 old']. cbn [fst] in Hc.
    injection Hres as -> _. rewrite Hc. exact Hp.
  - injection Hres as -> _. exact Hp.
Qed.

(** So does a check, on a mailbox whose stream was open. *)
Lemma open_check (fuel : nat) (st : State) (rc : Z) (st' : State) :
  is_open st -> mbox_mbox_check E fuel st = Some (rc, st') -> rc <> -1 -> is_open st'.
Proof.
  intros Ho Hrun Hrc. unfold mbox_mbox_check in Hrun. cbv zeta in Hrun.
  assert (Hunlock : forall (unlock : bool) (s s' : State),
    is_open s ->
    (if unlock then s1 ← mbox_unlock_mailbox s; Some (log EvSigUnblock s1) else Some s)
      = Some s' -> is_open s').
  { intros unlock s s' Hs. destruct unlock; [|intros [= <-]; exact Hs].
    destruct (mbox_unlock_mailbox s) as [s1|] eqn:Eu; [|discriminate].
    apply unlock_Some in Eu as [-> _]. intros [= <-].
    destruct (unlock_fields s) as (Hf & _). unfold is_open. cbn. rewrite Hf. exact Hs. }
  assert (Hmod : forall (unlock : bool) (s : State),
    (r ← reopen_mailbox E fuel s;
     let '(rc0, s1) := r in
     if negb (rc0 =? -1)
     then s2 ← (if unlock then s3 ← mbox_unlock_mailbox s1; Some (log EvSigUnblock s3)
                else Some s1);
          Some (MUTT_REOPENED, s2)
     else s2 ← mbox_unlock_mailbox s1;
          Some (-1, log (EvError "Mailbox was corrupted")
                      (log EvSigUnblock (mx_fastclose_mailbox s2))))
      = Some (rc, st') -> is_open st').
  { intros unlock s Hr.
    destruct (reopen_mailbox E fuel s) as [[rc0 s1]|] eqn:Ere; [|discriminate].
    cbn [mbind option_bind] in Hr.
    destruct (negb (rc0 =? -1)) eqn:En.
    - apply negb_true_iff, Z.eqb_neq in En.
      apply open_reopen_mailbox in Ere; [|exact En].
      destruct (if unlock then _ else _) as [s2|] eqn:Eu; [|discriminate].
      cbn [mbind option_bind] in Hr. injection Hr as _ <-.
      apply (Hunlock unlock s1 s2 Ere Eu).
    - destruct (mbox_unlock_mailbox s1); [|discriminate].
      cbn [mbind option_bind] in Hr. injection Hr as <- _. contradiction. }
  destruct (fails E AtCheckStat).
  { destruct (mbox_unlock_mailbox st); [|discriminate].
    cbn [mbind option_bind] in Hrun. injection Hrun as <- _. contradiction. }
  destruct (timespec_equal _ _ && _); [injection Hrun as _ <-; exact Ho|].
  destruct (st_size (stat_disk st) =? size st); [injection Hrun as _ <-; exact Ho|].
  destruct (size st <? st_size (stat_disk st)); [|apply (Hmod false st); exact Hrun].
  assert (Hgrew : forall (unlock : bool) (st1 : State),
    is_open st1 ->
    match fgets_fp LONG_STRING (fseeko_or_stay (size st1) st1) with
    | Some (buffer, st3) =>
        if (is_mbox (magic st3) && starts_with_From buffer) ||
           (is_mmdf (magic st3) && str_equal MMDF_SEP buffer)
        then
          r ← (if is_mbox (magic (fseeko_or_stay (size st3) st3))
               then mbox_parse_mailbox E fuel (fseeko_or_stay (size st3) st3)
               else mmdf_parse_mailbox E fuel (fseeko_or_stay (size st3) st3));
          st5 ← (if unlock then s1 ← mbox_unlock_mailbox (snd r); Some (log EvSigUnblock s1)
                 else Some (snd r));
          Some (MUTT_NEW_MAIL, st5)
        else
          r ← reopen_mailbox E fuel st3;
          (let '(rc0, s1) := r in
           if negb (rc0 =? -1)
           then s2 ← (if unlock then s3 ← mbox_unlock_mailbox s1; Some (log EvSigUnblock s3)
                      else Some s1);
                Some (MUTT_REOPENED, s2)
           else s2 ← mbox_unlock_mailbox s1;
                Some (-1, log (EvError "Mailbox was corrupted")
                            (log EvSigUnblock (mx_fastclose_mailbox s2))))
    | None =>
        r ← reopen_mailbox E fuel (fseeko_or_stay (size st1) st1);
        (let '(rc0, s1) := r in
         if negb (rc0 =? -1)
         then s2 ← (if unlock then s3 ← mbox_unlock_mailbox s1; Some (log EvSigUnblock s3)
                    else Some s1);
              Some (MUTT_REOPENED, s2)
         else s2 ← mbox_unlock_mailbox s1;
              Some (-1, log (EvError "Mailbox was corrupted")
                          (log EvSigUnblock (mx_fastclose_mailbox s2))))
    end = Some (rc, st') -> is_open st').
  { intros unlock st1 H1 Hr.
    destruct (fgets_fp LONG_STRING (fseeko_or_stay (size st1) st1)) as [[buffer st3]|] eqn:Eg;
      [|apply (Hmod unlock _ Hr)].
    apply open_fgets_fp in Eg.
    destruct ((is_mbox (magic st3) && starts_with_From buffer) ||
              (is_mmdf (magic st3) && str_equal MMDF_SEP buffer));
      [|apply (Hmod unlock _ Hr)].
    pose proof (open_fseeko_or_stay (size st3) st3 Eg) as H4.
    destruct (if is_mbox (magic (fseeko_or_stay (size st3) st3))
              then mbox_parse_mailbox E fuel (fseeko_or_stay (size st3) st3)
              else mmdf_parse_mailbox E fuel (fseeko_or_stay (size st3) st3))
      as [[rc0 s]|] eqn:Ep; [|discriminate].
    assert (H5 : is_open s).
    { destruct (is_mbox _);
        [eapply open_mbox_parse_mailbox|eapply open_mmdf_parse_mailbox]; eauto. }
    cbn [mbind option_bind snd] in Hr.
    destruct (if unlock then _ else _) as [st5|] eqn:Eu; [|discriminate].
    cbn [mbind option_bind] in Hr. injection Hr as _ <-.
    apply (Hunlock unlock s st5 H5 Eu). }
  destruct (negb (locked st)).
  - unfold mutt_file_lock, mbox_lock_mailbox in Hrun.
    destruct (fails E AtCheckLock); cbn [Z.eqb andb] in Hrun.
    + injection Hrun as _ <-. exact Ho.
    + apply (Hgrew true (set_locked true (log EvSigBlock st))); [exact Ho|exact Hrun].
  - apply (Hgrew false st); [exact Ho|exact Hrun].
Qed.

(** *** The access time *)

Lemma mbox_has_new_iff (l : list Header) :
  mbox_has_new l = true <->
  exists h, h ∈ l /\ deleted h = false /\ read h = false /\ old h = false.
Proof.
  unfold mbox_has_new. induction l as [|x l IH]; cbn [existsb].
  - split; [discriminate|]. intros (h & Hin & _). inversion Hin.
  - rewrite orb_true_iff, IH, !andb_true_iff, !negb_true_iff. split.
    + intros [[[H1 H2] H3]|(h & Hin & Hh)].
      * exists x. split; [left|auto].
      * exists h. split; [right; exact Hin|exact Hh].
    + intros (h & Hin & H1 & H2 & H3). apply elem_of_cons in Hin as [->|Hin].
      * left. auto.
      * right. exists h. auto.
Qed.

(** X14: the times [mbox_reset_atime] writes.  The modification time is
    the one of the [stat] result.  The access time is the one of the
    [stat] result too, unless [$mail_check_recent] is unset, the mailbox
    has a message that is neither deleted, read nor old, and the access
    time is not before the modification time: then it is set one second
    before the modification time.  So a mailbox with such a message always
    ends with an access time before its modification time when
    [$mail_check_recent] is unset.  The records and the content of the file
    are not touched. *)
Theorem mbox_reset_atime_marks_new_mail (sb : Stat) (st : State) :
  let st' := mbox_reset_atime E (Some sb) st in
  tv_sec (disk_mtime st') = tv_sec (st_mtime sb) /\
  (MailCheckRecent E = false -> mbox_has_new (hdrs st) = true ->
   tv_sec (disk_atime st') < tv_sec (disk_mtime st') /\
   tv_sec (disk_atime st') = Z.min (tv_sec (st_atime sb)) (tv_sec (st_mtime sb) - 1)) /\
  (MailCheckRecent E = true \/ mbox_has_new (hdrs st) = false ->
   tv_sec (disk_atime st') = tv_sec (st_atime sb)) /\
  (mbox_has_new (hdrs st) = true <->
   exists h, h ∈ hdrs st /\ deleted h = false /\ read h = false /\ old h = false) /\
  hdrs st' = hdrs st /\ disk st' = disk st.
Proof.
  cbn zeta. unfold mbox_reset_atime. cbn.
  split; [reflexivity|]. split; [|split; [|split; [apply mbox_has_new_iff|split; reflexivity]]].
  - intros Hr Hn. rewrite Hr, Hn. cbn [negb andb]. rewrite andb_true_r.
    destruct (tv_sec (st_mtime sb) <=? tv_sec (st_atime sb)) eqn:El.
    + apply Z.leb_le in El. lia.
    + apply Z.leb_gt in El. lia.
  - intros [Hr|Hn].
    + rewrite Hr. reflexivity.
    + rewrite Hn, andb_false_r. reflexivity.
Qed.

(** *** What the sync writes *)

(** A message as it stands in an mbox or MMDF file: the separator of the
    format in front of it, for MMDF, and a newline or the separator after
    it. *)
Definition framed (m : MailboxType) (bytes : list ascii) : list ascii :=
  (if is_mmdf m then MMDF_SEP else []) ++ bytes ++ (if is_mmdf m then MMDF_SEP else [nl]).

(** The bytes between two messages that [msg_padding_size] counts. *)
Definition msg_padding_size (m : MailboxType) : Z :=
  if is_mmdf m then mmdf_msg_padding_size else mbox_msg_padding_size.

(** What the copier writes for a record. *)
Definition copied (data : list ascii) (h : Header) : list ascii :=
  snd (fst (mutt_copy_message_ctx data h)).

(** The records of [l] that are not deleted, as the copier writes them,
    each framed for the format. *)
Fixpoint rewritten (data : list ascii) (m : MailboxType) (l : list Header) : list ascii :=
  match l with
  | [] => []
  | h :: rest =>
      (if deleted h then [] else framed m (copied data h)) ++ rewritten data m rest
  end.

Lemma sync_copy_loop_content (n : nat) : forall (i first : nat) (off : Z) (st : State)
    (tmp : list ascii) (new_offset old_offset : list MUpdate)
    (st1 : State) (tmp1 : list ascii) (new1 old1 : list MUpdate),
  sync_copy_loop E n i first off st tmp new_offset old_offset = inr (st1, tmp1, new1, old1) ->
  tmp1 = tmp ++ rewritten (disk st) (magic st) (take n (drop i (hdrs st))).
Proof.
  induction n as [|n IH]; intros i first off st tmp new_offset old_offset st1 tmp1 new1 old1;
    cbn [sync_copy_loop].
  - intros [= <- <- <- <-]. rewrite app_nil_r. reflexivity.
  - destruct (hdrs st !! i) as [h|] eqn:Hi.
    2:{ intros [= <- <- <- <-]. apply lookup_ge_None in Hi.
        rewrite drop_ge by lia. rewrite app_nil_r. reflexivity. }
    rewrite (drop_S _ _ _ Hi). cbn [take rewritten].
    destruct (deleted h) eqn:Hd; cbn [negb].
    { intros Hrun. apply IH in Hrun. exact Hrun. }
    destruct (is_mmdf (magic st) && fails E (AtSyncFputsLead i)); [discriminate|].
    unfold copied, framed.
    destruct (mutt_copy_message_ctx (disk st) h) as [[rc bytes] h'] eqn:Ec. cbn [fst snd].
    destruct (negb (rc =? 0)); [discriminate|].
    destruct (fails E (AtSyncFputsTrail i)); [discriminate|].
    intros Hrun. apply IH in Hrun. cbn [disk magic set_hdrs hdrs] in Hrun.
    rewrite Hrun.
    assert (Hdrop : drop (S i) (<[i := h']> (hdrs st)) = drop (S i) (hdrs st)).
    { apply list_eq. intros k. rewrite !lookup_drop.
      apply list_lookup_insert_ne. lia. }
    rewrite Hdrop. destruct (is_mmdf (magic st)); rewrite <- !app_assoc; reflexivity.
Qed.

(** X15: the temporary file of a sync.  When the copy loop reaches its
    end, the temporary file holds the records from the first changed one
    on that are not deleted, in their order, each as the copier wrote it
    and framed for the format: followed by a newline in an mbox, between
    two separator lines in an MMDF mailbox.  The frame of a message has
    the size [msg_padding_size] answers for the format, 1 and 10. *)
Theorem sync_temp_file_content (st st1 : State) (first : nat) (tmp : list ascii)
    (new_offset old_offset : list MUpdate)
  (Hcopy : sync_copied E first st = inr (st1, tmp, new_offset, old_offset)) :
  tmp = rewritten (disk st) (magic st) (drop first (hdrs st)) /\
  (forall bytes,
     Z.of_nat (length (framed (magic st) bytes)) =
     Z.of_nat (length bytes) + msg_padding_size (magic st)) /\
  (magic st = MUTT_MBOX -> msg_padding_size (magic st) = 1) /\
  (magic st = MUTT_MMDF -> msg_padding_size (magic st) = 10).
Proof.
  split; [|split; [|split; intros ->; reflexivity]].
  - unfold sync_copied in Hcopy. apply sync_copy_loop_content in Hcopy.
    destruct (sync_checked_frame st) as (Hh & Hm & _ & _ & Hd & _).
    rewrite Hd, Hm, Hh in Hcopy. cbn [app] in Hcopy.
    rewrite take_ge in Hcopy by (rewrite length_drop; lia). exact Hcopy.
  - intros bytes. unfold framed, msg_padding_size, mmdf_msg_padding_size,
      mbox_msg_padding_size.
    destruct (is_mmdf (magic st)); rewrite !length_app; unfold MMDF_SEP; cbn [length]; lia.
Qed.


(** *** A sync that succeeds *)

(** Every step of the write-back goes well. *)
Definition write_back_succeeds (off : Z) (s : State) : Prop :=
  boundary_ok off s = true /\ copy_stream_stops E = None /\
  fails E AtSyncFerror = false /\ fails E AtSyncFtello = false /\
  fails E AtSyncFtruncate = false.

Lemma write_at_take (off : Z) (bytes data : list ascii) :
  0 <= off <= Z.of_nat (length data) ->
  take (Z.to_nat (off + Z.of_nat (length bytes))) (write_at off bytes data) =
  take (Z.to_nat off) data ++ bytes.
Proof.
  intros Hoff. unfold write_at. rewrite app_assoc.
  apply take_app_length'. rewrite length_app, length_take. lia.
Qed.

Lemma sync_splice_succeeds (off : Z) (tmp : list ascii) (s : State) :
  write_back_succeeds off s ->
  exists s',
    sync_splice E off tmp s = (0, s') /\
    disk s' = take (Z.to_nat off) (disk s) ++ tmp /\
    size s' = off + Z.of_nat (length tmp) /\
    hdrs s' = hdrs s /\ locked s' = locked s /\ magic s' = magic s /\
    (exists evs, trace s' = trace s ++ evs /\
       (evs = [] \/ evs = [EvMessage "Committing changes..."])) /\
    0 <= off < Z.of_nat (length (disk s)).
Proof.
  intros (Hb & Hc & He & Ht & Hr). unfold boundary_ok in Hb. unfold sync_splice.
  destruct (fseeko off s) as [s0|] eqn:E0; [|discriminate].
  assert (Hs0 : s0 = set_fp (Some off) s /\ 0 <= off).
  { unfold fseeko in E0. destruct (fp s); [|discriminate].
    destruct (off <? 0) eqn:El; [discriminate|]. apply Z.ltb_ge in El.
    injection E0 as <-. auto. }
  destruct Hs0 as [-> Hoff].
  destruct (fgets_fp 32 (set_fp (Some off) s)) as [[buf s1]|] eqn:E1; [|discriminate].
  assert (Hs1 : exists q, s1 = set_fp (Some q) s /\ off < Z.of_nat (length (disk s))).
  { unfold fgets_fp in E1. cbn [fp set_fp disk mbind option_bind] in E1.
    destruct (fgets 32 (disk s) off) as [[b q]|] eqn:Eg; [|discriminate].
    cbn in E1. injection E1 as <- <-. exists q. split; [reflexivity|].
    unfold fgets in Eg. destruct ((off <? 0) || (Z.of_nat (length (disk s)) <=? off)) eqn:Ec;
      [discriminate|]. apply orb_false_elim in Ec as [_ Ec]. apply Z.leb_gt in Ec. exact Ec. }
  destruct Hs1 as (q & -> & Hlt).
  apply negb_true_iff in Hb. rewrite Hb.
  unfold fseeko. cbn [fp set_fp].
  replace (off <? 0) with false by (symmetry; apply Z.ltb_ge; lia).
  rewrite Hc, He, Ht, Hr. cbn [Z.eqb orb].
  set (s3 := if quiet _ then _ else _).
  assert (H3 : disk s3 = disk s /\ hdrs s3 = hdrs s /\ locked s3 = locked s /\
               magic s3 = magic s /\
               exists evs, trace s3 = trace s ++ evs /\
                 (evs = [] \/ evs = [EvMessage "Committing changes..."])).
  { subst s3. cbn [quiet set_fp]. destruct (quiet s); cbn.
    - repeat split. exists []. rewrite app_nil_r. auto.
    - repeat split. eexists. split; [reflexivity|auto]. }
  destruct H3 as (Hd3 & Hh3 & Hl3 & Hm3 & Hev3).
  unfold ftello. cbn [fp set_fp set_disk set_size default]. unfold id.
  replace (off + Z.of_nat (length tmp) <? 0) with false by (symmetry; apply Z.ltb_ge; lia).
  eexists. split; [reflexivity|]. cbn. rewrite Hd3, Hh3, Hl3, Hm3.
  split; [apply write_at_take; lia|]. repeat split; try assumption; lia.
Qed.

(** X16: a sync that succeeds.  When nothing fails and the mailbox has not
    changed on disk, [mbox_mbox_sync] answers 0, under every [$sort]; the
    records it works on are those of the mailbox in the order of the file,
    as [mutt_sort_headers] puts them when [$sort] is another order.  The
    file then is the bytes it had before the first changed message,
    followed by what the temporary file held, and nothing after; the size
    recorded is the size of that file; the temporary file is unlinked and
    not renamed, the lock is released, and the mailbox is open again at
    its start.  The records are those the copy loop left, with the offsets
    it noted for them; they stay in the order of the file. *)
Theorem sync_succeeds (fuel : nat) (st st1 : State) (first : nat)
    (tmp : list ascii) (new_offset old_offset : list MUpdate)
  (Hstart : sync_starts E st)
  (Htemp : temp_created E)
  (Hfirst : find_first 0 (hdrs (sync_sorted E st)) = Some first)
  (Hcopy : sync_copied E first (sync_sorted E st) = inr (st1, tmp, new_offset, old_offset))
  (Hsteps : fails E AtSyncFcloseTemp = false /\ fails E AtSyncStat = false /\
            fails E AtSyncFopenTemp = false /\ fails E AtSyncFcloseMbox = false /\
            fails E AtSyncFopenFinal = false)
  (Hwrite : write_back_succeeds (splice_offset first (sync_sorted E st)) st1) :
  exists st' evs,
    mbox_mbox_sync E fuel st = Some (0, st') /\
    disk st' = take (Z.to_nat (splice_offset first (sync_sorted E st))) (disk st) ++ tmp /\
    size st' = Z.of_nat (length (disk st')) /\
    locked st' = false /\ fp st' = Some 0 /\
    trace st' = trace st ++ evs /\
    (EvUnlink (tempfile E) ∈ evs) /\
    (forall dst, EvRename (tempfile E) dst ∉ evs) /\
    hdrs st' =
      update_offsets (length (hdrs (sync_sorted E st)) - first) first first
        (Z.of_nat first) new_offset (hdrs st1).
Proof.
  destruct Htemp as [Ht1 Ht2]. destruct Hsteps as (Hc & Hs & Ho & Hm & Hf).
  rewrite (sync_reaches_write E fuel st Hstart).
  destruct (sync_sorted_fields E st) as (Hd0 & _ & Htr0 & _).
  rewrite <- Hd0, <- Htr0. set (b := need_sort E st). set (s0 := sync_sorted E st) in *.
  clearbody s0 b. clear st Hstart Hd0 Htr0. rename s0 into st.
  destruct (sync_checked_frame st) as (Hh & Hmg & Htr & Hlk & Hd & Hfp).
  unfold sync_write.
  rewrite Ht1, Ht2, Hh, Hfirst, Hmg.
  unfold sync_copied, splice_offset in *. rewrite Hcopy, Hc, Hs, Ho.
  pose proof (sync_copy_loop_frame E (length (hdrs st) - first) first first
    (default 0 (offset <$> hdrs st !! first) - (if is_mmdf (magic st) then 5 else 0))
    (sync_checked st) [] (replicate (length (hdrs st) - first) MUpdate_zero)
    (replicate (length (hdrs st) - first) MUpdate_zero)) as Hframe.
  rewrite Hcopy in Hframe. destruct Hframe as [l Hst1].
  set (off := default 0 (offset <$> hdrs st !! first) - (if is_mmdf (magic st) then 5 else 0)) in *.
  destruct (sync_splice_succeeds off tmp st1 Hwrite)
    as (s2 & Hsp & Hd2 & Hz2 & Hh2 & Hl2 & _ & (evs & Htr2 & Hevs) & Hoff).
  assert (Hopen2 : is_Some (fp s2)).
  { pose proof (sync_splice_open E off tmp st1) as Hso. rewrite Hsp in Hso. apply Hso.
    rewrite Hst1. cbn. rewrite Hfp. eexists; reflexivity. }
  rewrite Hsp. rewrite (unlock_defined s2) by (right; exact Hopen2).
  cbn [mbind option_bind]. rewrite Hm, Hf. cbn [Z.eqb orb].
  assert (Hdisk1 : disk st1 = disk st) by (rewrite Hst1; cbn; exact Hd).
  assert (Htrace1 : trace st1 = trace st ++ [EvSigBlock]) by (rewrite Hst1; cbn; exact Htr).
  destruct (unlock_trace s2) as (evs2 & Htr3 & Hevs2).
  destruct (unlock_frame s2) as (Hl3 & Hh3 & Hd3).
  assert (Hsz : size (unlocked s2) = size s2)
    by (unfold unlocked; destruct (locked s2); reflexivity).
  set (tail := if CheckMboxSize E then [EvUpdateMailbox] else []).
  set (actime := if negb (MailCheckRecent E) &&
                      (tv_sec (disk_mtime st1) <=? tv_sec (disk_atime st1)) &&
                      mbox_has_new (hdrs (unlocked s2))
                   then tv_sec (disk_mtime st1) - 1 else tv_sec (disk_atime st1)).
  eexists.
  exists ([EvSigBlock] ++ evs ++ evs2 ++
          [EvUtime actime (tv_sec (disk_mtime st1));
           EvUnlink (tempfile E); EvSigUnblock] ++ tail).
  split; [reflexivity|].
  assert (Hlen : Z.of_nat (length (take (Z.to_nat off) (disk st) ++ tmp))
                 = off + Z.of_nat (length tmp)).
  { rewrite length_app, length_take. rewrite Hdisk1 in Hoff. lia. }
  unfold mbox_reset_atime. cbn [stat_disk st_mtime st_atime].
  split; [|split; [|split; [|split; [|split; [|split; [|split]]]]]].
  - destruct (CheckMboxSize E); cbn; rewrite Hd3, Hd2, Hdisk1; reflexivity.
  - destruct (CheckMboxSize E); cbn; rewrite Hsz, Hz2, Hd3, Hd2, Hdisk1, Hlen; reflexivity.
  - destruct (CheckMboxSize E); cbn; exact Hl3.
  - destruct (CheckMboxSize E); reflexivity.
  - subst tail. destruct (CheckMboxSize E); cbn; rewrite Htr3, Htr2, Htrace1;
      rewrite <- ?app_assoc; cbn.
    all: reflexivity.
  - rewrite !elem_of_app. right. right. right. left.
    apply elem_of_cons. right. left.
  - intros dst. rewrite !elem_of_app. intros [H|[H|[H|[H|H]]]].
    + apply list_elem_of_singleton in H. discriminate.
    + destruct Hevs as [-> | ->]; [inversion H|].
      apply list_elem_of_singleton in H. discriminate.
    + destruct Hevs2 as [-> | ->]; [inversion H|].
      apply list_elem_of_singleton in H. discriminate.
    + repeat (apply elem_of_cons in H as [H|H]; [discriminate|]). inversion H.
    + subst tail. destruct (CheckMboxSize E); [|inversion H].
      apply list_elem_of_singleton in H. discriminate.
  - destruct (CheckMboxSize E); cbn; rewrite Hh3, Hh2; reflexivity.
Qed.


(** *** What the parsers and the check leave alone *)

(** The file, the lock, the format and the flags [quiet] of two states
    are the same. *)
Definition same_file (st st' : State) : Prop :=
  disk st' = disk st /\ locked st' = locked st /\ magic st' = magic st.

Lemma same_file_refl (st : State) : same_file st st.
Proof. repeat split. Qed.

Lemma same_file_trans (a b c : State) : same_file a b -> same_file b c -> same_file a c.
Proof. intros (H1 & H2 & H3) (H4 & H5 & H6). repeat split; congruence. Qed.

Lemma same_file_pframe (st st' : State) : pframe st st' -> same_file st st'.
Proof.
  intros H. destruct (pframe_fields _ _ H) as (Hg & _ & _ & _ & Hd & Hl & _).
  repeat split; assumption.
Qed.


Lemma mbox_parse_mailbox_same_file (fuel : nat) (st : State) (rc : Z) (st' : State) :
  mbox_parse_mailbox E fuel st = Some (rc, st') -> same_file st st'.
Proof.
  unfold mbox_parse_mailbox. destruct (fails E AtParseStat).
  { intros [= <- <-]. repeat split. }
  set (st1 := set_atime _ (set_mtime _ (set_size _ st))).
  set (st2 := if negb (readonly st1) then set_readonly (fails E AtAccess) st1 else st1).
  assert (H2 : same_file st st2).
  { subst st2 st1. destruct (negb _); repeat split. }
  destruct (mbox_parse_loop E fuel st2 0 0 (ftello st2)) as [[[st3 count] lines_seen]|] eqn:El;
    [|discriminate]. cbn [mbind option_bind].
  destruct (mbox_parse_loop_spec E _ _ _ _ _ _ _ _ El) as (Hpf & _).
  apply same_file_pframe in Hpf.
  set (st4 := if 0 <? count then finish_previous (ftello st3) lines_seen st3 else st3).
  assert (H4 : same_file st3 st4) by (subst st4; destruct (0 <? count); repeat split).
  pose proof (same_file_pframe _ _ (pframe_poll E st4)) as H5.
  assert (Hall : same_file st (poll_sigint E st4)).
  { eapply same_file_trans; [exact H2|]. eapply same_file_trans; [exact Hpf|].
    eapply same_file_trans; [exact H4|exact H5]. }
  destruct (SigInt (poll_sigint E st4) =? 1); intros [= <- <-]; [|exact Hall].
  destruct Hall as (Ha & Hb & Hc). repeat split; assumption.
Qed.

Lemma mmdf_parse_mailbox_same_file (fuel : nat) (st : State) (rc : Z) (st' : State) :
  mmdf_parse_mailbox E fuel st = Some (rc, st') -> same_file st st'.
Proof.
  unfold mmdf_parse_mailbox. destruct (fails E AtParseStat).
  { intros [= <- <-]. repeat split. }
  set (st1 := set_size _ (set_mtime _ (set_atime _ st))).
  destruct (mmdf_parse_loop E fuel st1) as [e|] eqn:El; [|discriminate].
  cbn [mbind option_bind].
  destruct (mmdf_parse_loop_spec E _ _ _ El) as (Hpf & _).
  apply same_file_pframe in Hpf.
  assert (H1 : same_file st (end_state e)).
  { destruct Hpf as (Ha & Hb & Hc). repeat split; assumption. }
  destruct e as [rc0 s|s]; cbn [end_state] in *.
  - intros [= <- <-]. exact H1.
  - pose proof (same_file_pframe _ _ (pframe_poll E s)) as H5.
    pose proof (same_file_trans _ _ _ H1 H5) as Hall.
    destruct (SigInt (poll_sigint E s) =? 1); intros [= <- <-]; [|exact Hall].
    destruct Hall as (Ha & Hb & Hc). repeat split; assumption.
Qed.

Lemma parse_by_magic_same_file (fuel : nat) (st : State) (rc : Z) (st' : State) :
  parse_by_magic E fuel st = Some (rc, st') -> same_file st st'.
Proof.
  unfold parse_by_magic. destruct (magic st);
    try (intros [= <- <-]; apply same_file_refl).
  - apply mbox_parse_mailbox_same_file.
  - apply mmdf_parse_mailbox_same_file.
Qed.







(** X25: the check without a stream.  When the mailbox is locked and the
    file has shrunk, and the [fopen] of [reopen_mailbox] fails, the check
    calls [mbox_unlock_mailbox] with [ctx->fp] NULL: it hands NULL to
    [fileno] and comes to no answer.  [mbox_mbox_sync], which holds the
    lock when it runs the check, comes to no answer either. *)
Theorem check_without_stream (fuel : nat) (st : State)
  (Hstat : fails E AtCheckStat = false)
  (Hshrunk : Z.of_nat (length (disk st)) < size st)
  (Hmagic : magic st = MUTT_MBOX \/ magic st = MUTT_MMDF)
  (Hfopen : fails E AtReopenFopen = true) :
  (locked st = true -> mbox_mbox_check E fuel st = None) /\
  (locked st = false ->
   exists st', mbox_mbox_check E fuel st = Some (-1, st') /\ fp st' = None) /\
  (fails E AtSyncFreopen = false -> fails E AtSyncLock = false ->
   mbox_mbox_sync E fuel st = None).
Proof.
  assert (Hcheck : forall s, disk s = disk st -> size s = size st -> magic s = magic st ->
    mbox_mbox_check E fuel s =
      (s2 ← mbox_unlock_mailbox (set_quiet false (set_fp None (reopen_start E s)));
       Some (-1, log (EvError "Mailbox was corrupted")
                   (log EvSigUnblock (mx_fastclose_mailbox s2))))).
  { intros s Hd Hz Hm. unfold mbox_mbox_check. cbv zeta. rewrite Hstat.
    unfold stat_disk. cbn [st_size st_mtime]. rewrite Hd, Hz.
    replace (Z.of_nat (length (disk st)) =? size st) with false
      by (symmetry; apply Z.eqb_neq; lia).
    rewrite andb_false_r.
    replace (size st <? Z.of_nat (length (disk st))) with false
      by (symmetry; apply Z.ltb_ge; lia).
    rewrite reopen_mailbox_eq.
    assert (Hmg : is_mbox (magic (reopen_start E s)) || is_mmdf (magic (reopen_start E s))
                  = true).
    { unfold reopen_start, reopen_sorted. destruct (negb _); cbn; rewrite Hm;
        destruct Hmagic as [-> | ->]; reflexivity. }
    rewrite Hmg, Hfopen. reflexivity. }
  split; [|split].
  - intros Hl. rewrite Hcheck by reflexivity.
    assert (Hn : mbox_unlock_mailbox (set_quiet false (set_fp None (reopen_start E st)))
                 = None).
    { apply unlock_None. split; [|reflexivity].
      unfold reopen_start, reopen_sorted. destruct (negb _); cbn; exact Hl. }
    rewrite Hn. reflexivity.
  - intros Hl. rewrite Hcheck by reflexivity.
    rewrite unlock_defined.
    + eexists. split; [reflexivity|]. reflexivity.
    + left. unfold reopen_start, reopen_sorted. destruct (negb _); cbn; exact Hl.
  - intros Hre Hlk. unfold mbox_mbox_sync. rewrite Hre.
    unfold mutt_file_lock, mbox_lock_mailbox. rewrite Hlk. cbn [Z.eqb].
    rewrite Hcheck by (destruct (negb _); reflexivity).
    assert (Hn : forall s, locked s = true ->
              mbox_unlock_mailbox (set_quiet false (set_fp None (reopen_start E s))) = None).
    { intros s Hl. apply unlock_None. split; [|reflexivity].
      unfold reopen_start, reopen_sorted. destruct (negb _); cbn; exact Hl. }
    rewrite Hn by reflexivity. reflexivity.
Qed.


(** *** A sync that does not write *)

Lemma find_first_None (l : list Header) : forall i : nat,
  find_first i l = None <->
  forall h, h ∈ l -> deleted h = false /\ changed h = false /\ attach_del h = false.
Proof.
  induction l as [|x l IH]; intros i; cbn [find_first].
  - split; [intros _ h Hin; inversion Hin|reflexivity].
  - destruct (negb (deleted x) && negb (changed x) && negb (attach_del x)) eqn:Ex.
    + rewrite IH. apply andb_true_iff in Ex as [Ex Ex3]. apply andb_true_iff in Ex as [Ex1 Ex2].
      apply negb_true_iff in Ex1, Ex2, Ex3. split.
      * intros H h Hin. apply elem_of_cons in Hin as [->|Hin]; [auto|apply H; exact Hin].
      * intros H h Hin. apply H. right. exact Hin.
    + split; [discriminate|]. intros H. destruct (H x) as (H1 & H2 & H3); [left|].
      rewrite H1, H2, H3 in Ex. discriminate.
Qed.

(** X18: a sync with nothing to write.  When no record is deleted or
    changed and none has a deleted attachment, and the mailbox can be
    reopened, [mbox_mbox_sync] answers -1 with the message that asks to
    report a bug, under every [$sort]; the temporary file it had created
    is unlinked, the file is as it was, the lock is released and the
    mailbox is open again at its start.  The records are as they were when
    [$sort] is the order of the file; under another [$sort] they are what
    [mutt_sort_headers] makes of them, called for the order of the file at
    the start and for [$sort] at the end. *)
Theorem sync_without_changes (fuel : nat) (st : State)
  (Hstart : sync_starts E st)
  (Htemp : temp_created E)
  (Hbail : fails E AtBailFreopen = false)
  (Hnone : forall h, h ∈ hdrs (sync_sorted E st) ->
             deleted h = false /\ changed h = false /\ attach_del h = false) :
  exists st',
    mbox_mbox_sync E fuel st = Some (-1, st') /\
    hdrs st' = resorted E st (hdrs (sync_sorted E st)) /\
    (Sort st = SORT_ORDER E -> hdrs st' = hdrs st) /\
    disk st' = disk st /\ locked st' = false /\ fp st' = Some 0 /\
    trace st' = trace st ++
      [EvSigBlock;
       EvError "sync: mbox modified, but no modified messages (report this bug)";
       EvUnlink (tempfile E); EvFileUnlock; EvSigUnblock].
Proof.
  destruct Htemp as [Ht1 Ht2].
  rewrite (sync_reaches_write E fuel st Hstart).
  assert (Hsame : Sort st = SORT_ORDER E ->
            resorted E st (hdrs (sync_sorted E st)) = hdrs st).
  { intros Hs. unfold resorted, sync_sorted, need_sort. apply Z.eqb_eq in Hs.
    rewrite Hs. reflexivity. }
  destruct (sync_sorted_fields E st) as (Hd0 & _ & Htr0 & _ & Hso0 & _).
  unfold resorted in *. rewrite <- Hd0, <- Htr0, <- Hso0.
  revert Hsame. rewrite <- Hso0.
  set (b := need_sort E st). set (s0 := sync_sorted E st) in *.
  set (l0 := hdrs st). clearbody s0 b l0. clear st Hstart Hd0 Htr0 Hso0.
  rename s0 into st. intros Hsame.
  destruct (sync_checked_frame st) as (Hh & Hmg & Htr & Hlk & Hd & Hfp).
  assert (Hso : Sort (sync_checked st) = Sort st)
    by (unfold sync_checked; destruct (timespec_equal _ _); reflexivity).
  unfold sync_write.
  rewrite Ht1, Ht2, Hh. rewrite (proj2 (find_first_None (hdrs st) 0) Hnone).
  unfold sync_bail.
  rewrite unlock_defined by (right; cbn; rewrite Hfp; eexists; reflexivity).
  cbn [mbind option_bind]. rewrite Hbail.
  unfold unlocked. cbn [locked log]. rewrite Hlk.
  eexists. split; [reflexivity|].
  split; [destruct b; cbn; rewrite ?Hh, ?Hso; reflexivity|].
  split; [intros Hs; rewrite <- (Hsame Hs); destruct b; cbn; rewrite ?Hh, ?Hso; reflexivity|].
  destruct b; cbn; rewrite Hd, Htr, <- !app_assoc; repeat split.
Qed.

(** X19: a sync does not write into a mailbox that changed.  When the
    sync of an open mailbox has reopened and locked it, and the check at
    the start of [mbox_mbox_sync] answers MUTT_NEW_MAIL or
    MUTT_REOPENED, and the mailbox can be reopened, the sync gives that
    answer back; it leaves the file as the check left it, and after the
    check it does nothing but release the lock, unblock the signals and
    reopen the mailbox at its start, and, under another [$sort] than the
    order of the file, sort the records the check left with
    [mutt_sort_headers]; when [$sort] is the order of the file the
    records are those the check left. *)
Theorem sync_stops_when_mailbox_changed (fuel : nat) (st st4 : State) (i : Z)
  (Hopen : is_open st)
  (Hreopen : fails E AtSyncFreopen = false)
  (Hlock : fails E AtSyncLock = false)
  (Hcheck : mbox_mbox_check E fuel
              (set_locked true (log EvSigBlock (set_fp (Some 0) (sync_sorted E st))))
            = Some (i, st4))
  (Hi : i = MUTT_NEW_MAIL \/ i = MUTT_REOPENED)
  (Hbail : fails E AtBailFreopen = false) :
  exists st' evs,
    mbox_mbox_sync E fuel st = Some (i, st') /\
    hdrs st' =
      (if need_sort E st
       then mutt_sort_headers (Sort st4) (1 =? MUTT_REOPENED) (hdrs st4)
       else hdrs st4) /\
    disk st' = disk st4 /\ locked st' = false /\ fp st' = Some 0 /\
    trace st' = trace st4 ++ evs /\
    (evs = [EvSigUnblock] \/ evs = [EvFileUnlock; EvSigUnblock]).
Proof.
  unfold mbox_mbox_sync. fold (need_sort E st). fold (sync_sorted E st). rewrite Hreopen.
  unfold mutt_file_lock, mbox_lock_mailbox. rewrite Hlock. cbn [Z.eqb].
  rewrite Hcheck. cbn [mbind option_bind].
  assert (Hcode : (i =? MUTT_NEW_MAIL) || (i =? MUTT_REOPENED) = true).
  { destruct Hi as [-> | ->]; reflexivity. }
  rewrite Hcode. unfold sync_bail.
  assert (Hopen4 : is_open st4).
  { apply (open_check fuel (set_locked true (log EvSigBlock (set_fp (Some 0) (sync_sorted E st)))) i st4); [eexists; reflexivity|exact Hcheck|].
    destruct Hi as [-> | ->]; discriminate. }
  rewrite unlock_defined by (right; exact Hopen4). cbn [mbind option_bind].
  rewrite Hbail.
  destruct (unlock_frame st4) as (Hl & Hh & Hd).
  destruct (unlock_fields st4) as (_ & Hso & _).
  destruct (unlock_trace st4) as (evs & Htr & Hevs).
  eexists. exists (evs ++ [EvSigUnblock]). split; [reflexivity|].
  split; [destruct (need_sort E st); cbn; rewrite ?Hh, ?Hso; reflexivity|].
  destruct (need_sort E st); cbn; rewrite Hl, Hd, Htr, <- app_assoc;
    (repeat split; destruct Hevs as [-> | ->]; [left|right]; reflexivity).
Qed.

(** *** New mail *)

(** X20: mail that arrived behind the records.  When the file has grown
    and the line at the size recorded starts a message ([From ] in an
    mbox, the separator in an MMDF mailbox), [mbox_mbox_check] parses from
    there and answers MUTT_NEW_MAIL, whatever the parser answers; the
    records the mailbox had are all still there, unchanged and in front
    of the new ones. *)
Theorem check_appends_new_mail (st : State) (p q : Z) (buf : list ascii)
  (Hadv : reader_advances)
  (Hstat : fails E AtCheckStat = false /\ fails E AtParseStat = false)
  (Hgrew : 0 <= size st < Z.of_nat (length (disk st)))
  (Hopen : fp st = Some p)
  (Hlock : locked st = true \/ fails E AtCheckLock = false)
  (Hline : fgets LONG_STRING (disk st) (size st) = Some (buf, q))
  (Hsep : magic st = MUTT_MBOX /\ starts_with_From buf = true \/
          magic st = MUTT_MMDF /\ str_equal MMDF_SEP buf = true) :
  exists st' suffix,
    mbox_mbox_check E (S (length (disk st))) st = Some (MUTT_NEW_MAIL, st') /\
    hdrs st' = hdrs st ++ suffix.
Proof.
  destruct Hstat as [Hs Hps]. unfold mbox_mbox_check. cbv zeta. rewrite Hs.
  replace (st_size (stat_disk st) =? size st) with false
    by (symmetry; apply Z.eqb_neq; cbn; lia).
  rewrite andb_false_r.
  replace (size st <? st_size (stat_disk st)) with true
    by (symmetry; apply Z.ltb_lt; cbn; lia).
  assert (Hgo : forall (unlock : bool) (st1 : State),
    fp st1 = Some p -> disk st1 = disk st -> size st1 = size st -> magic st1 = magic st ->
    hdrs st1 = hdrs st ->
    exists st' suffix,
      match fgets_fp LONG_STRING (fseeko_or_stay (size st1) st1) with
      | Some (buffer, st3) =>
          if (is_mbox (magic st3) && starts_with_From buffer) ||
             (is_mmdf (magic st3) && str_equal MMDF_SEP buffer)
          then
            r ← (if is_mbox (magic (fseeko_or_stay (size st3) st3))
                 then mbox_parse_mailbox E (S (length (disk st))) (fseeko_or_stay (size st3) st3)
                 else mmdf_parse_mailbox E (S (length (disk st))) (fseeko_or_stay (size st3) st3));
            st5 ← (if unlock
                   then s1 ← mbox_unlock_mailbox (snd r); Some (log EvSigUnblock s1)
                   else Some (snd r));
            Some (MUTT_NEW_MAIL, st5)
          else
            r ← reopen_mailbox E (S (length (disk st))) st3;
            (let '(rc0, s1) := r in
             if negb (rc0 =? -1)
             then s2 ← (if unlock
                        then s1' ← mbox_unlock_mailbox s1; Some (log EvSigUnblock s1')
                        else Some s1);
                  Some (MUTT_REOPENED, s2)
             else s1' ← mbox_unlock_mailbox s1;
                  Some (-1, log (EvError "Mailbox was corrupted")
                              (log EvSigUnblock (mx_fastclose_mailbox s1'))))
      | None =>
          r ← reopen_mailbox E (S (length (disk st))) (fseeko_or_stay (size st1) st1);
          (let '(rc0, s1) := r in
           if negb (rc0 =? -1)
           then s2 ← (if unlock
                      then s1' ← mbox_unlock_mailbox s1; Some (log EvSigUnblock s1')
                      else Some s1);
                Some (MUTT_REOPENED, s2)
           else s1' ← mbox_unlock_mailbox s1;
                Some (-1, log (EvError "Mailbox was corrupted")
                            (log EvSigUnblock (mx_fastclose_mailbox s1'))))
      end = Some (MUTT_NEW_MAIL, st') /\ hdrs st' = hdrs st ++ suffix).
  { intros unlock st1 Hfp1 Hd1 Hz1 Hm1 Hh1.
    rewrite (fseeko_or_stay_open (size st1) p st1 Hfp1) by lia.
    rewrite (fgets_fp_open LONG_STRING (size st1)) by reflexivity.
    cbn [disk set_fp]. rewrite Hd1, Hz1, Hline. cbn [magic set_fp size]. rewrite Hm1, Hz1.
    assert (Htest : (is_mbox (magic st) && starts_with_From buf) ||
                    (is_mmdf (magic st) && str_equal MMDF_SEP buf) = true).
    { destruct Hsep as [[-> ->]|[-> ->]]; reflexivity. }
    rewrite Htest.
    rewrite (fseeko_or_stay_open (size st) q (set_fp (Some q) (set_fp (Some (size st)) st1)))
      by (reflexivity || lia).
    set (s4 := set_fp (Some (size st)) (set_fp (Some q) (set_fp (Some (size st)) st1))).
    assert (H4 : fp s4 = Some (size st) /\ disk s4 = disk st /\ hdrs s4 = hdrs st /\
                 magic s4 = magic st).
    { subst s4. cbn. auto. }
    destruct H4 as (Hf4 & Hd4 & Hh4 & Hm4). rewrite Hm4.
    assert (Hparse : exists rc s,
      (if is_mbox (magic st) then mbox_parse_mailbox E (S (length (disk st))) s4
       else mmdf_parse_mailbox E (S (length (disk st))) s4) = Some (rc, s) /\
      is_open s /\
      exists suffix, hdrs s = hdrs st ++ suffix).
    { rewrite <- Hd4. destruct Hsep as [[Hmg _]|[Hmg _]]; rewrite Hmg; cbn [is_mbox].
      - destruct (mbox_parse_mailbox_terminates E Hadv s4 (size st) Hf4) as [[rc s] Hr];
          [lia|].
        exists rc, s. split; [exact Hr|].
        split; [apply (open_mbox_parse_mailbox (S (length (disk s4))) s4 rc s); [eexists; exact Hf4|exact Hr]|].
        destruct (mbox_parse_mailbox_spec E _ _ _ _ Hps Hr) as (_ & _ & _ & Htake & _).
        exists (drop (length (hdrs s4)) (hdrs s)).
        rewrite <- Hh4. rewrite <- (take_drop (length (hdrs s4)) (hdrs s)) at 1.
        rewrite Htake. reflexivity.
      - destruct (mmdf_parse_mailbox_terminates E Hadv s4 (size st) Hf4) as [[rc s] Hr];
          [lia|].
        exists rc, s. split; [exact Hr|].
        split; [apply (open_mmdf_parse_mailbox (S (length (disk s4))) s4 rc s); [eexists; exact Hf4|exact Hr]|].
        destruct (mmdf_parse_mailbox_spec E _ _ _ _ Hps Hr) as (_ & _ & _ & Hsuf & _).
        rewrite <- Hh4. exact Hsuf. }
    destruct Hparse as (rc & s & Hr & Hos & suffix & Hsuf). rewrite Hr.
    cbn [mbind option_bind snd].
    destruct (unlock_frame s) as (_ & Hu & _).
    destruct unlock.
    - rewrite unlock_defined by (right; exact Hos). cbn [mbind option_bind].
      eexists. exists suffix. split; [reflexivity|]. cbn. rewrite Hu. exact Hsuf.
    - cbn [mbind option_bind].
      eexists. exists suffix. split; [reflexivity|]. exact Hsuf. }

  destruct (negb (locked st)) eqn:Elk.
  - destruct Hlock as [Hl|Hl]; [rewrite Hl in Elk; discriminate|].
    unfold mutt_file_lock, mbox_lock_mailbox. rewrite Hl. cbn [Z.eqb].
    destruct (Hgo true (set_locked true (log EvSigBlock st)) Hopen eq_refl eq_refl
                eq_refl eq_refl) as (st' & suffix & H1 & H2).
    exists st', suffix. split; [exact H1|exact H2].
  - cbn [Z.eqb].
    destruct (Hgo false st Hopen eq_refl eq_refl eq_refl eq_refl)
      as (st' & suffix & H1 & H2).
    exists st', suffix. split; [exact H1|exact H2].
Qed.


(** *** Opening a mailbox *)

(** The state in which [mbox_mbox_open] runs the parser. *)
Definition open_locked (st : State) : State :=
  snd (mbox_lock_mailbox (mutt_file_lock E AtOpenLock) false true
         (log EvSigBlock (set_fp (Some 0) st))).

Lemma open_locked_fields (st : State) :
  fp (open_locked st) = Some 0 /\ disk (open_locked st) = disk st /\
  hdrs (open_locked st) = hdrs st /\ magic (open_locked st) = magic st /\
  SigInt (open_locked st) = SigInt st /\ polls (open_locked st) = polls st /\
  trace (open_locked st) = trace st ++ [EvSigBlock].
Proof.
  unfold open_locked, mutt_file_lock, mbox_lock_mailbox.
  destruct (fails E AtOpenLock); cbn; repeat split.
Qed.

Lemma mbox_mbox_open_eq (fuel : nat) (st : State) :
  fails E AtOpenFopen = false ->
  mbox_mbox_open E fuel st =
    (res ← parse_by_magic E fuel (open_locked st);
     st4 ← mbox_unlock_mailbox (log EvTouchAtime (snd res));
     Some (fst res, log EvSigUnblock st4)).
Proof.
  intros Hf. unfold mbox_mbox_open, open_locked, mutt_file_lock, mbox_lock_mailbox.
  rewrite Hf. destruct (fails E AtOpenLock); cbn [Z.eqb andb negb snd];
    destruct (parse_by_magic E fuel _) as [[rc s]|]; reflexivity.
Qed.

Lemma open_locked_open (st : State) : is_open (open_locked st).
Proof. destruct (open_locked_fields st) as (Hfp & _). exists 0. exact Hfp. Qed.

Lemma open_unlocks (s : State) :
  is_open s ->
  let s' := log EvSigUnblock (unlocked (log EvTouchAtime s)) in
  mbox_unlock_mailbox (log EvTouchAtime s) = Some (unlocked (log EvTouchAtime s)) /\
  locked s' = false /\ hdrs s' = hdrs s /\ disk s' = disk s /\
  last (trace s') = Some EvSigUnblock /\
  forall e, e ∈ trace s -> e ∈ trace s'.
Proof.
  intros Ho. cbn zeta. split; [apply unlock_defined; right; exact Ho|].
  destruct (unlock_frame (log EvTouchAtime s)) as (Hl & Hh & Hd).
  destruct (unlock_trace (log EvTouchAtime s)) as (evs & Htr & _).
  cbn [locked hdrs disk trace log]. rewrite Hl, Hh, Hd, Htr. cbn [hdrs disk trace log].
  split; [reflexivity|]. split; [reflexivity|]. split; [reflexivity|].
  split; [apply last_snoc|].
  intros e He. rewrite !elem_of_app. left. left. left. exact He.
Qed.

(** X21: opening a mailbox.  When the header reader never moves the
    stream backwards, [mbox_mbox_open] answers, with as many steps as the
    file has bytes and one more; it never changes the file; when the file
    cannot be opened the answer is -1 and the records are as they were;
    once the file was opened, the answer is 0, -1 or -2, the mailbox is not
    locked when it returns, and the last thing it does is to unblock the
    signals. *)
Theorem open_answers_and_unlocks (st : State)
  (Hadv : reader_advances) :
  exists rc st',
    mbox_mbox_open E (S (length (disk st))) st = Some (rc, st') /\
    disk st' = disk st /\
    (fails E AtOpenFopen = true -> rc = -1 /\ hdrs st' = hdrs st) /\
    (fails E AtOpenFopen = false ->
     (rc = 0 \/ rc = -1 \/ rc = -2) /\ locked st' = false /\
     last (trace st') = Some EvSigUnblock).
Proof.
  destruct (fails E AtOpenFopen) eqn:Hf.
  { unfold mbox_mbox_open. rewrite Hf. eexists. eexists. split; [reflexivity|].
    split; [reflexivity|]. split; [auto|discriminate]. }
  rewrite (mbox_mbox_open_eq _ st Hf).
  destruct (open_locked_fields st) as (Hfp & Hd & Hh & Hm & _).
  destruct (parse_by_magic_terminates E Hadv (open_locked st) 0 Hfp) as [[rc s] Hr]; [lia|].
  rewrite Hd in Hr. rewrite Hr. cbn [mbind option_bind fst snd].
  destruct (open_unlocks s) as (Hu & Hl1 & Hh1 & Hd1 & Hlast & _).
  { apply (open_parse_by_magic (S (length (disk st))) (open_locked st) rc s);
      [apply open_locked_open|exact Hr]. }
  rewrite Hu. cbn [mbind option_bind].
  pose proof (parse_by_magic_same_file _ _ _ _ Hr) as (Hd2 & _).
  exists rc. eexists. split; [reflexivity|].
  split; [rewrite Hd1, Hd2, Hd; reflexivity|]. split; [discriminate|]. intros _.
  split; [|split; [exact Hl1|exact Hlast]].
  unfold parse_by_magic in Hr. destruct (fails E AtParseStat) eqn:Hs.
  { unfold mbox_parse_mailbox, mmdf_parse_mailbox in Hr. rewrite Hs in Hr.
    destruct (magic (open_locked st)); injection Hr as <- _; auto. }
  destruct (magic (open_locked st)); try (injection Hr as <- _; auto).
  - destruct (mbox_parse_mailbox_spec E _ _ _ _ Hs Hr) as ([-> | ->] & _); auto.
  - destruct (mmdf_parse_mailbox_spec E _ _ _ _ Hs Hr) as ([-> |[-> | ->]] & _); auto.
Qed.



(** X22: a file that is no MMDF mailbox.  When the first line of the
    file is not the separator line, and no signal arrives, [mbox_mbox_open]
    of an MMDF mailbox answers -1 after the message that the mailbox is
    corrupt; no record is added, and the mailbox is left unlocked. *)
Theorem open_rejects_corrupt_mmdf (fuel : nat) (st : State) (buf : list ascii) (q : Z)
  (Hmagic : magic st = MUTT_MMDF)
  (Hopen : fails E AtOpenFopen = false)
  (Hstat : fails E AtParseStat = false)
  (Hline : fgets (HUGE_STRING - 1) (disk st) 0 = Some (buf, q))
  (Hnot : str_equal buf MMDF_SEP = false)
  (Hsig : no_signal E st 1) :
  exists st',
    mbox_mbox_open E (S fuel) st = Some (-1, st') /\
    hdrs st' = hdrs st /\ disk st' = disk st /\ locked st' = false /\
    (EvError "Mailbox is corrupt" ∈ trace st').
Proof.
  rewrite (mbox_mbox_open_eq _ st Hopen).
  destruct (open_locked_fields st) as (Hfp & Hd & Hh & Hm & Hsi & Hpo & _).
  unfold parse_by_magic. rewrite Hm, Hmagic. unfold mmdf_parse_mailbox. rewrite Hstat.
  set (st1 := set_size _ (set_mtime _ (set_atime _ (open_locked st)))).
  assert (H1 : fp st1 = Some 0 /\ disk st1 = disk st /\ hdrs st1 = hdrs st /\
               SigInt st1 = SigInt st /\ polls st1 = polls st).
  { subst st1. cbn. auto. }
  destruct H1 as (Hfp1 & Hd1 & Hh1 & Hsi1 & Hpo1).
  cbn [mmdf_parse_loop].
  rewrite (fgets_fp_open (HUGE_STRING - 1) 0 st1 Hfp1), Hd1, Hline.
  destruct (poll_sigint_quiet E (set_fp (Some q) st1)) as [Hpoll Hq].
  { destruct Hsig as [Hs Hn]. split.
    - change (SigInt st1 <> 1). rewrite Hsi1. exact Hs.
    - intros n Hr. apply Hn.
      change (polls (set_fp (Some q) st1)) with (polls st1) in Hr.
      rewrite Hpo1 in Hr. exact Hr. }
  rewrite Hq, Hnot. cbn [mbind option_bind fst snd].
  match goal with |- context [log EvTouchAtime ?s] =>
    destruct (open_unlocks s) as (Hu & Hl & Hh2 & Hd2 & _ & Hin);
    [rewrite Hpoll; eexists; reflexivity|];
    exists (log EvSigUnblock (unlocked (log EvTouchAtime s))) end.
  rewrite Hu. cbn [mbind option_bind].
  split; [reflexivity|].
  split; [rewrite Hh2, Hpoll; exact Hh1|].
  split; [rewrite Hd2, Hpoll; exact Hd1|]. split; [exact Hl|].
  apply Hin. cbn [trace log]. apply elem_of_app. right. left.
Qed.

(** X23: a file without a message.  When no line of the file starts a
    message, and no signal arrives, [mbox_mbox_open] of an mbox answers 0
    and adds no record, whatever the file holds; the size recorded is the
    size of the file.  An empty file is the case of no line at all. *)
Theorem open_without_messages (fuel k : nat) (st : State) (q : Z)
  (Hmagic : magic st = MUTT_MBOX)
  (Hopen : fails E AtOpenFopen = false)
  (Hstat : fails E AtParseStat = false)
  (Hbody : body_lines (disk st) 0 k q)
  (Heof : fgets HUGE_STRING (disk st) q = None)
  (Hsig : no_signal E st (S k)) :
  exists st',
    mbox_mbox_open E (k + S fuel) st = Some (0, st') /\
    hdrs st' = hdrs st /\ disk st' = disk st /\ locked st' = false /\
    size st' = Z.of_nat (length (disk st)).
Proof.
  rewrite (mbox_mbox_open_eq _ st Hopen).
  destruct (open_locked_fields st) as (Hfp & Hd & Hh & Hm & Hsi & Hpo & _).
  unfold parse_by_magic. rewrite Hm, Hmagic. unfold mbox_parse_mailbox. rewrite Hstat.
  set (st1 := set_atime _ (set_mtime _ (set_size _ (open_locked st)))).
  set (st2 := if negb (readonly st1) then set_readonly (fails E AtAccess) st1 else st1).
  assert (H2 : fp st2 = Some 0 /\ disk st2 = disk st /\ hdrs st2 = hdrs st /\
               SigInt st2 = SigInt st /\ polls st2 = polls st /\
               size st2 = Z.of_nat (length (disk st))).
  { subst st2 st1. destruct (negb _); cbn; rewrite ?Hd; auto 10. }
  destruct H2 as (Hfp2 & Hd2 & Hh2 & Hsi2 & Hpo2 & Hz2).
  assert (Hft : ftello st2 = 0) by (unfold ftello; rewrite Hfp2; reflexivity).
  rewrite Hft.
  assert (Hbody2 : body_lines (disk st2) 0 k q) by (rewrite Hd2; exact Hbody).
  assert (Hsig2 : no_signal E st2 k).
  { destruct Hsig as [Hs Hn]. split; [rewrite Hsi2; exact Hs|].
    intros n Hr. apply Hn. rewrite Hpo2 in Hr. lia. }
  rewrite (mbox_scan_body E k st2 0 q Hbody2 Hfp2 Hsig2 (S fuel) 0 0).
  cbn [mbox_parse_loop].
  rewrite (fgets_fp_open HUGE_STRING q (scanned st2 k q) eq_refl).
  change (disk (scanned st2 k q)) with (disk st2). rewrite Hd2, Heof.
  cbn [mbind option_bind Z.ltb Z.compare].
  destruct (poll_sigint_quiet E (scanned st2 k q)) as [Hpoll Hq].
  { destruct Hsig as [Hs Hn]. split.
    - change (SigInt st2 <> 1). rewrite Hsi2. exact Hs.
    - intros n Hr. apply Hn.
      change (polls (scanned st2 k q)) with (polls st2 + k)%nat in Hr.
      rewrite Hpo2 in Hr. lia. }
  rewrite Hq. cbn [mbind option_bind fst snd].
  match goal with |- context [log EvTouchAtime ?s] =>
    destruct (open_unlocks s) as (Hu & Hl & Hh3 & Hd3 & _ & _);
    [rewrite Hpoll; eexists; reflexivity|];
    exists (log EvSigUnblock (unlocked (log EvTouchAtime s))) end.
  rewrite Hu. cbn [mbind option_bind].
  split; [reflexivity|].
  split; [rewrite Hh3, Hpoll; exact Hh2|].
  split; [rewrite Hd3, Hpoll; exact Hd2|]. split; [exact Hl|].
  rewrite Hpoll. unfold unlocked, scanned. cbn.
  destruct (locked st2); cbn; exact Hz2.
Qed.

(** *** Opening for appending *)

(** X24: opening a mailbox to append to it.  [mbox_mbox_open_append]
    answers 0 exactly when the file opens and the exclusive lock is taken,
    and -1 otherwise.  After a 0 the mailbox is locked and the stream is at
    the end of the file.  A lock that cannot be taken closes the stream
    after the message that the mailbox could not be locked, and never
    makes the mailbox read-only.  The bytes of the file stay as they are
    unless MUTT_NEWFOLDER is given: then the file that was opened is empty,
    also when the lock fails after that.  The records are not touched. *)
Theorem open_append_locks_at_end (newfolder : bool) (st : State) :
  let rc := fst (mbox_mbox_open_append E newfolder st) in
  let st' := snd (mbox_mbox_open_append E newfolder st) in
  (rc = 0 \/ rc = -1) /\
  (rc = 0 <-> fails E AtAppendFopen = false /\ fails E AtAppendLock = false) /\
  (rc = 0 ->
   locked st' = true /\ fp st' = Some (Z.of_nat (length (disk st'))) /\
   trace st' = trace st) /\
  (fails E AtAppendFopen = false -> fails E AtAppendLock = true ->
   fp st' = None /\ locked st' = locked st /\
   trace st' = trace st ++ [EvError ("Couldn't lock " +:+ path E)]) /\
  readonly st' = readonly st /\ hdrs st' = hdrs st /\
  disk st' = (if newfolder && negb (fails E AtAppendFopen) then [] else disk st).
Proof.
  cbn zeta. unfold mbox_mbox_open_append, mbox_lock_mailbox, mutt_file_lock.
  destruct (fails E AtAppendFopen) eqn:Hf.
  { cbn. rewrite andb_false_r. repeat split; auto; try discriminate.
    intros [? _]. discriminate. }
  destruct (fails E AtAppendLock) eqn:Hl; destruct newfolder; cbn;
    repeat split; auto; try discriminate; try (intros [_ ?]; discriminate).
Qed.

End EngineProps.

(** *** The engine on the sample mailboxes *)

Lemma sync_temp_file_content_witness :
  exists st1 tmp new_offset old_offset,
    sync_copied quiet_env 1 opened_del = inr (st1, tmp, new_offset, old_offset) /\
    tmp = rewritten (disk opened_del) (magic opened_del) (drop 1 (hdrs opened_del)).
Proof.
  assert (Hcopy : exists r, sync_copied quiet_env 1 opened_del = inr r)
    by (eexists; vm_compute; reflexivity).
  destruct Hcopy as [[[[st1 tmp] new_offset] old_offset] Hcopy].
  exists st1, tmp, new_offset, old_offset. split; [exact Hcopy|].
  exact (proj1 (sync_temp_file_content quiet_env opened_del st1 1 tmp new_offset old_offset
                  Hcopy)).
Defined.

(** X16 on [by_date], with the sorter and the copier of [busy_collab]: the
    sync answers 0; the deleted message is gone from the file, and the
    records are left in the order of the file. *)
Lemma sync_succeeds_witness :
  exists st',
    mbox_mbox_sync (C := busy_collab) quiet_env 10 by_date = Some (0, st') /\
    locked st' = false /\ fp st' = Some 0 /\
    size st' = Z.of_nat (length (disk st')) /\
    length (disk st') = 71%nat /\
    offset <$> hdrs by_date = [80; 35; 0] /\
    offset <$> hdrs st' = [0; 35; 35].
Proof.
  assert (Hstart : sync_starts quiet_env by_date)
    by (split; [eexists; reflexivity|vm_compute; repeat split; reflexivity]).
  assert (Htemp : temp_created quiet_env) by (split; reflexivity).
  assert (Hfirst : find_first 0 (hdrs (sync_sorted (C := busy_collab) quiet_env by_date))
                   = Some 1%nat) by (vm_compute; reflexivity).
  assert (Hcopy : exists r,
            sync_copied (C := busy_collab) quiet_env 1
              (sync_sorted (C := busy_collab) quiet_env by_date) = inr r)
    by (eexists; vm_compute; reflexivity).
  destruct Hcopy as [[[[st1 tmp] new_offset] old_offset] Hcopy].
  assert (Hsteps : fails quiet_env AtSyncFcloseTemp = false /\
                   fails quiet_env AtSyncStat = false /\
                   fails quiet_env AtSyncFopenTemp = false /\
                   fails quiet_env AtSyncFcloseMbox = false /\
                   fails quiet_env AtSyncFopenFinal = false)
    by (repeat split; reflexivity).
  assert (Hwrite : write_back_succeeds quiet_env
                     (splice_offset 1 (sync_sorted (C := busy_collab) quiet_env by_date)) st1).
  { vm_compute in Hcopy. injection Hcopy as <- _ _ _. vm_compute. repeat split; reflexivity. }
  destruct (sync_succeeds (C := busy_collab) quiet_env 10 by_date st1 1 tmp new_offset
              old_offset Hstart Htemp Hfirst Hcopy Hsteps Hwrite)
    as (st' & evs & Hrun & _ & Hsize & Hl & Hf & _).
  exists st'. split; [exact Hrun|]. split; [exact Hl|]. split; [exact Hf|].
  split; [exact Hsize|].
  assert (Hval : exists s, mbox_mbox_sync (C := busy_collab) quiet_env 10 by_date = Some (0, s) /\
                           length (disk s) = 71%nat /\ offset <$> hdrs s = [0; 35; 35])
    by (eexists; split; [vm_compute; reflexivity|split; reflexivity]).
  destruct Hval as (s & Hs & Hlen & Hoffs).
  rewrite Hrun in Hs. injection Hs as <-.
  split; [exact Hlen|]. split; [reflexivity|exact Hoffs].
Defined.


(** [opened] under another [$sort], with its records in the reverse of the
    order of the file. *)
Definition unsorted : State := Eval vm_compute in
  with_sort 9 (set_hdrs (rev (hdrs opened)) opened).

Lemma unsorted_unchanged (h : Header) :
  h ∈ hdrs (sync_sorted (C := busy_collab) quiet_env unsorted) ->
  deleted h = false /\ changed h = false /\ attach_del h = false.
Proof.
  intros Hin. vm_compute in Hin.
  repeat (apply elem_of_cons in Hin as [-> | Hin]; [repeat split; reflexivity|]).
  inversion Hin.
Qed.

(** X18 on [unsorted] with the sorter of [busy_collab]: the sync works on
    the records in the order of the file and hands them back in the order
    of [$sort]. *)
Lemma sync_without_changes_witness :
  exists st',
    mbox_mbox_sync (C := busy_collab) quiet_env 10 unsorted = Some (-1, st') /\
    offset <$> hdrs (sync_sorted (C := busy_collab) quiet_env unsorted) = [0; 35; 80] /\
    offset <$> hdrs st' = [80; 35; 0] /\ disk st' = mb3.
Proof.
  assert (Hstart : sync_starts quiet_env unsorted)
    by (split; [eexists; reflexivity|vm_compute; repeat split; reflexivity]).
  assert (Htemp : temp_created quiet_env) by (split; reflexivity).
  destruct (sync_without_changes (C := busy_collab) quiet_env 10 unsorted Hstart Htemp
              eq_refl unsorted_unchanged)
    as (st' & Hrun & Hh & _ & Hd & _).
  exists st'. split; [exact Hrun|]. split; [reflexivity|].
  split; [rewrite Hh; vm_compute; reflexivity|exact Hd].
Defined.

(** X19 on [shrunk] under another [$sort]: the check reopens the mailbox
    and leaves its two records in the order of the file; the sync hands
    them back in the order of [$sort]. *)
Lemma sync_stops_when_mailbox_changed_witness :
  exists st4 st',
    mbox_mbox_check (C := busy_collab) quiet_env 200
      (set_locked true (log EvSigBlock (set_fp (Some 0)
         (sync_sorted (C := busy_collab) quiet_env (with_sort 9 shrunk)))))
    = Some (MUTT_REOPENED, st4) /\
    offset <$> hdrs st4 = [0; 35] /\
    mbox_mbox_sync (C := busy_collab) quiet_env 200 (with_sort 9 shrunk)
    = Some (MUTT_REOPENED, st') /\
    offset <$> hdrs st' = [35; 0] /\ disk st' = mb2 /\ locked st' = false.
Proof.
  assert (Hcheck : exists st4,
            mbox_mbox_check (C := busy_collab) quiet_env 200
              (set_locked true (log EvSigBlock (set_fp (Some 0)
                 (sync_sorted (C := busy_collab) quiet_env (with_sort 9 shrunk)))))
            = Some (MUTT_REOPENED, st4) /\ disk st4 = mb2 /\
            offset <$> hdrs st4 = [0; 35] /\
            offset <$> mutt_sort_headers (Collab := busy_collab) (Sort st4)
                         (1 =? MUTT_REOPENED) (hdrs st4) = [35; 0]).
  { eexists. split; [vm_compute; reflexivity|]. repeat split; vm_compute; reflexivity. }
  destruct Hcheck as (st4 & Hcheck & Hd4 & Ho4 & Hs4).
  destruct (sync_stops_when_mailbox_changed (C := busy_collab) quiet_env 200
              (with_sort 9 shrunk) st4 MUTT_REOPENED
              (ex_intro _ _ eq_refl) eq_refl eq_refl Hcheck (or_intror eq_refl) eq_refl)
    as (st' & evs & Hrun & Hh & Hd & Hl & _).
  exists st4, st'. split; [exact Hcheck|]. split; [exact Ho4|]. split; [exact Hrun|].
  split; [rewrite Hh; exact Hs4|]. split; [rewrite Hd; exact Hd4|exact Hl].
Defined.

(** X25 on [shrunk] with the lock held and an [fopen] that fails: the check
    has no result, and a sync has none either. *)
Lemma check_without_stream_witness :
  mbox_mbox_check (failing AtReopenFopen) 200 (set_locked true shrunk) = None /\
  mbox_mbox_sync (failing AtReopenFopen) 200 (set_locked true shrunk) = None.
Proof.
  assert (Hshrunk : Z.of_nat (length (disk (set_locked true shrunk)))
                    < size (set_locked true shrunk)) by (vm_compute; reflexivity).
  destruct (check_without_stream (failing AtReopenFopen) 200 (set_locked true shrunk)
              eq_refl Hshrunk (or_introl eq_refl) eq_refl) as (Hlocked & _ & Hsync).
  split; [exact (Hlocked eq_refl)|exact (Hsync eq_refl eq_refl)].
Defined.

(** [mb3] opened, and a fourth message delivered behind it. *)
Definition grown : State := Eval vm_compute in
  set_disk (mb3 ++ text "From d|Message-ID: 4||z|") opened.

Lemma check_appends_new_mail_witness :
  exists st' suffix,
    mbox_mbox_check quiet_env (S (length (disk grown))) grown = Some (MUTT_NEW_MAIL, st') /\
    hdrs st' = hdrs opened ++ suffix.
Proof.
  assert (Hline : exists r, fgets LONG_STRING (disk grown) (size grown) = Some r /\
                            starts_with_From (fst r) = true).
  { eexists. split; [vm_compute; reflexivity|]. vm_compute. reflexivity. }
  destruct Hline as ([buf q] & Hline & Hfrom).
  assert (Hgrew : 0 <= size grown < Z.of_nat (length (disk grown))) by (vm_compute; split; [discriminate|reflexivity]).
  assert (Hopen : exists p, fp grown = Some p) by (eexists; reflexivity).
  destruct Hopen as [p Hopen].
  exact (check_appends_new_mail quiet_env grown p q buf sample_reader_advances
           (conj eq_refl eq_refl) Hgrew Hopen (or_intror eq_refl) Hline
           (or_introl (conj eq_refl Hfrom))).
Defined.

Lemma open_answers_and_unlocks_witness :
  exists rc st',
    mbox_mbox_open quiet_env (S (length (disk (fresh MUTT_MBOX mb3)))) (fresh MUTT_MBOX mb3)
      = Some (rc, st') /\ disk st' = mb3.
Proof.
  destruct (open_answers_and_unlocks quiet_env (fresh MUTT_MBOX mb3) sample_reader_advances)
    as (rc & st' & Hr & Hd & _).
  exists rc, st'. split; [exact Hr|exact Hd].
Defined.

Lemma open_rejects_corrupt_mmdf_witness :
  exists st',
    mbox_mbox_open quiet_env 1 (fresh MUTT_MMDF mb3) = Some (-1, st') /\
    hdrs st' = [] /\ locked st' = false.
Proof.
  assert (Hline : exists r, fgets (HUGE_STRING - 1) (disk (fresh MUTT_MMDF mb3)) 0 = Some r /\
                            str_equal (fst r) MMDF_SEP = false).
  { eexists. split; [vm_compute; reflexivity|]. vm_compute. reflexivity. }
  destruct Hline as ([buf q] & Hline & Hnot).
  assert (Hsig : no_signal quiet_env (fresh MUTT_MMDF mb3) 1).
  { split; [discriminate|]. intros n _. reflexivity. }
  destruct (open_rejects_corrupt_mmdf quiet_env 0 (fresh MUTT_MMDF mb3) buf q
              eq_refl eq_refl eq_refl Hline Hnot Hsig)
    as (st' & Hrun & Hh & _ & Hl & _).
  exists st'. split; [exact Hrun|]. split; [exact Hh|exact Hl].
Defined.

Lemma open_without_messages_witness :
  exists st',
    mbox_mbox_open quiet_env 3 (fresh MUTT_MBOX (text "hello|world|")) = Some (0, st') /\
    hdrs st' = [] /\ size st' = 12.
Proof.
  assert (Hbody : body_lines (text "hello|world|") 0 2 12).
  { apply (body_line _ 0 6 12 1 (text "hello|")); [vm_compute; reflexivity|reflexivity|].
    apply (body_line _ 6 12 12 0 (text "world|")); [vm_compute; reflexivity|reflexivity|].
    apply body_done. }
  assert (Hsig : no_signal quiet_env (fresh MUTT_MBOX (text "hello|world|")) 3).
  { split; [discriminate|]. intros n _. reflexivity. }
  destruct (open_without_messages quiet_env 0 2 (fresh MUTT_MBOX (text "hello|world|")) 12
              eq_refl eq_refl eq_refl Hbody eq_refl Hsig)
    as (st' & Hrun & Hh & _ & _ & Hz).
  exists st'. split; [exact Hrun|]. split; [exact Hh|exact Hz].
Defined.

End MboxEngineProps.
